(** * filesize: a directory-size tree printer (Go)

    The repository holds the tool twice, and both programs are embedded
    here:

    - [src/main.go], which prints the tree to the console (module
      [ConsoleTool]);
    - [src/unnamed/part_000], which can also write the tree as an HTML page
      (module [HtmlTool]); this is the program that spec.md describes.

    They share the data model and [formatSize]; they differ in the walk,
    in the comparator of the size sort and in how the root is printed.

    Conventions.
    - int64 values are [Z] numbers; Go's wrap-around addition is [add64].
    - Go strings are byte strings: [string], compared byte-wise as Go's [<].
    - Slices of node pointers are lists; the programs never alias two
      nodes, so in-place mutation is modelled by returning the updated
      tree.
    - The calls into Go's standard library ([sort.Slice], [strings.ToLower],
      [filepath.Abs], [filepath.Base], [filepath.Join]) are the fields of
      the class [GoLib]; [reference_lib] is an executable instance.
    - The file system is the finite tree of answers that [os.Stat],
      [os.ReadDir] and the directory entries give below the root
      ([FsEntry]).
    - A run of [main] starts after [flag.Parse]; what it gets from
      outside is a [World], what it leaves behind an [Outcome].
    - The script in the page that [generateHTML] writes is embedded as
      far as it computes on the data ([Page.sortTreeData]); what it calls
      of the JavaScript host is the class [JsHost], with the executable
      instance [reference_host].  Rendering into the document is not
      embedded. *)

From Stdlib Require Import ZArith List String Ascii Bool Lia.
From Stdlib Require Import Permutation Sorted DecimalString.
From Stdlib Require DecimalPos DecimalZ.
Import ListNotations.

Local Open Scope Z_scope.
Local Open Scope string_scope.

Set Implicit Arguments.

(* ================================================================== *)
(** ** int64 arithmetic *)

Definition int64_min : Z := - 2 ^ 63.
Definition int64_max : Z := 2 ^ 63 - 1.

Definition in_int64 (z : Z) : Prop := int64_min <= z <= int64_max.

(** Two's-complement wrap-around of a mathematical integer into int64. *)
Definition wrap64 (z : Z) : Z := (z + 2 ^ 63) mod 2 ^ 64 - 2 ^ 63.

(** Go's [a + b] on int64. *)
Definition add64 (a b : Z) : Z := wrap64 (a + b).

(** The loop [var t int64; for _, z := range zs { t += z }]. *)
Definition sum64 (zs : list Z) : Z := fold_left add64 zs 0.

(* ================================================================== *)
(** ** Go's standard library, as far as the programs call it *)

(** [less] describes a strict weak ordering, which is what [sort.Slice]
    asks of its comparator. *)
Record StrictWeak {A : Type} (less : A -> A -> bool) : Prop := {
  sw_asym : forall a b, less a b = true -> less b a = false;
  sw_negtrans :
    forall a b c, less a b = false -> less b c = false -> less a c = false
}.

(** No later element is [less] than an earlier one. *)
Definition SortedBy {A : Type} (less : A -> A -> bool) : list A -> Prop :=
  StronglySorted (fun x y => less y x = false).

(** [insertionSort_func] of package sort:
<<
  for i := a + 1; i < b; i++ {
      for j := i; j > a && data.Less(j, j-1); j-- { data.Swap(j, j-1) }
  }
>>
    The sorted prefix is kept reversed, so that its head is the element at
    index [j-1]; [sink] is the inner loop. *)
Fixpoint sink {A : Type} (less : A -> A -> bool) (x : A) (rprefix : list A)
  : list A :=
  match rprefix with
  | [] => [x]
  | p :: ps => if less x p then p :: sink less x ps else x :: p :: ps
  end.

Definition insertionSort_func {A : Type} (less : A -> A -> bool) (l : list A)
  : list A :=
  rev (fold_left (fun rprefix x => sink less x rprefix) l []).

(** The reversed prefix of [insertionSort_func] is sorted the other way
    round: no earlier element is [less] than a later one. *)
Definition RSorted {A : Type} (less : A -> A -> bool) : list A -> Prop :=
  StronglySorted (fun x y => less x y = false).

(** [less] is the non-strict side of a total preorder: what the closures
    of the programs become when the reverse flag negates them.  This is
    not a strict weak ordering, so [sort.Slice] promises nothing about it;
    insertion sort still sorts by it. *)
Record TotalPreorder {A : Type} (less : A -> A -> bool) : Prop := {
  tp_total : forall a b, less a b = false -> less b a = true;
  tp_trans :
    forall a b c, less a b = true -> less b c = true -> less a c = true
}.

(** Every earlier element is [less] than or equal to every later one. *)
Definition WeaklySortedBy {A : Type} (less : A -> A -> bool)
  : list A -> Prop :=
  StronglySorted (fun x y => less x y = true).

(** [strings.ToLower] on ASCII text: the bytes [A] to [Z] move to [a] to
    [z], every other byte stays. *)
Definition lower_byte (c : ascii) : ascii :=
  let n := N_of_ascii c in
  if ((65 <=? n) && (n <=? 90))%N then ascii_of_N (n + 32) else c.

Fixpoint ascii_ToLower (s : string) : string :=
  match s with
  | EmptyString => EmptyString
  | String c s' => String (lower_byte c) (ascii_ToLower s')
  end.

(** Every byte is below 128. *)
Fixpoint is_ascii (s : string) : bool :=
  match s with
  | EmptyString => true
  | String c s' => (N_of_ascii c <? 128)%N && is_ascii s'
  end.

(** The standard library.  [sort_Slice less l] is the slice after
    [sort.Slice(l, less)], with [less] taken on elements instead of
    indices.  The laws are the documented contract of [sort.Slice] (a
    permutation; sorted when [less] is a strict weak ordering), the fact
    that it looks at the elements only through [less], the fact that
    every release of Go sorts slices of at most six elements by
    [insertionSort_func] alone, and the ASCII case of [strings.ToLower]. *)
Class GoLib : Type := {
  sort_Slice : forall A : Type, (A -> A -> bool) -> list A -> list A;
  strings_ToLower : string -> string;
  filepath_Abs : string -> option string;
  filepath_Base : string -> string;
  filepath_Join : string -> string -> string;

  sort_Slice_perm :
    forall (A : Type) (less : A -> A -> bool) (l : list A),
      Permutation l (sort_Slice less l);
  sort_Slice_sorted :
    forall (A : Type) (less : A -> A -> bool) (l : list A),
      StrictWeak less -> SortedBy less (sort_Slice less l);
  sort_Slice_natural :
    forall (A B : Type) (f : A -> B) (lessA : A -> A -> bool)
           (lessB : B -> B -> bool) (l : list A),
      (forall a b, In a l -> In b l -> lessB (f a) (f b) = lessA a b) ->
      sort_Slice lessB (map f l) = map f (sort_Slice lessA l);
  sort_Slice_short :
    forall (A : Type) (less : A -> A -> bool) (l : list A),
      (List.length l <= 6)%nat -> sort_Slice less l = insertionSort_func less l;
  strings_ToLower_ascii :
    forall s : string, is_ascii s = true -> strings_ToLower s = ascii_ToLower s
}.

Arguments sort_Slice {_} [A] less l.

(** Stand-ins for package path/filepath on Unix paths: the text after the
    last slash, a path taken as relative to the root directory, and the
    two parts with a slash between them. *)
Fixpoint last_element (acc s : string) : string :=
  match s with
  | EmptyString => acc
  | String c s' =>
      if Ascii.eqb c "/" then last_element EmptyString s'
      else last_element (acc ++ String c EmptyString) s'
  end.

Definition unix_Abs (p : string) : option string :=
  Some (if prefix "/" p then p else "/" ++ p).

Definition unix_Join (dir name : string) : string := dir ++ "/" ++ name.

(* ================================================================== *)
(** ** The data model *)

(** [type FileInfo struct { Name; Size; IsDir; Path; Children }]. *)
#[warnings="-register-all"]
Inductive FileInfo : Type := mkFileInfo {
  Name : string;
  Size : Z;
  IsDir : bool;
  Path : string;
  Children : list FileInfo
}.

(** [type SortType int] with [SortByName] and [SortBySize]. *)
Inductive SortType : Type := SortByName | SortBySize.

(** Induction over a tree with the hypothesis on every child. *)
Unset Implicit Arguments.
Fixpoint FileInfo_tree_ind (P : FileInfo -> Prop)
  (step : forall n s d p cs, Forall P cs -> P (mkFileInfo n s d p cs))
  (t : FileInfo) : P t :=
  match t with
  | mkFileInfo n s d p cs =>
      step n s d p cs
        ((fix all (l : list FileInfo) : Forall P l :=
            match l with
            | [] => Forall_nil P
            | c :: l' => Forall_cons c (FileInfo_tree_ind P step c) (all l')
            end) cs)
  end.
Set Implicit Arguments.

(** The nodes of a tree, parents before children. *)
Fixpoint nodes (t : FileInfo) : list FileInfo :=
  match t with
  | mkFileInfo _ _ _ _ children => t :: flat_map nodes children
  end.

(** The nodes whose children [sortFileTree] sorts: the root, and every
    directory reached from it through directories. *)
Fixpoint directories (t : FileInfo) : list FileInfo :=
  match t with
  | mkFileInfo _ _ _ _ children =>
      t :: flat_map (fun c => if IsDir c then directories c else []) children
  end.

(** What the program sees of one directory entry and of the path it names:
    - [entName]: [entry.Name()];
    - [entIsDir]: [entry.IsDir()], the type recorded in the directory;
    - [entInfo]: the size in [entry.Info()], [None] when it fails;
    - [entStat]: [os.Stat] of the path, [(IsDir(), Size())], [None] when it
      fails (a broken link, no permission);
    - [entReadDir]: [os.ReadDir] of the path, [None] when it fails. *)
#[warnings="-register-all"]
Inductive FsEntry : Type := mkFsEntry {
  entName : string;
  entIsDir : bool;
  entInfo : option Z;
  entStat : option (bool * Z);
  entReadDir : option (list FsEntry)
}.

(** Induction over the file system with the hypothesis on every entry
    of a readable directory. *)
Unset Implicit Arguments.
Fixpoint FsEntry_tree_ind (P : FsEntry -> Prop)
  (step : forall n d i s r,
      (forall entries, r = Some entries -> Forall P entries) ->
      P (mkFsEntry n d i s r))
  (fs : FsEntry) : P fs :=
  match fs with
  | mkFsEntry n d i s r =>
      step n d i s r
        (match r as r0
               return forall entries, r0 = Some entries -> Forall P entries
         with
         | None => fun entries E =>
             match E in _ = y return
                   match y with None => True | Some _ => Forall P entries end
             with eq_refl => I end
         | Some l => fun entries E =>
             match E in _ = y return
                   match y with None => True | Some l' => Forall P l' end
             with
             | eq_refl =>
                 (fix all (l0 : list FsEntry) : Forall P l0 :=
                    match l0 with
                    | [] => Forall_nil P
                    | e :: l1 =>
                        Forall_cons e (FsEntry_tree_ind P step e) (all l1)
                    end) l
             end
         end)
  end.
Set Implicit Arguments.

(* ================================================================== *)
(** ** Formatting ([fmt.Sprintf]) *)

(** The integer nearest to [num / den] for [den > 0], ties to even. *)
Definition round_half_even (num den : Z) : Z :=
  let q := num / den in
  let r := num mod den in
  if (2 * r <? den)%Z then q
  else if (den <? 2 * r)%Z then q + 1
  else if Z.even q then q else q + 1.

(** [float64(n)] for an int64 [n]: exact below [2^53], else rounded to 53
    significant bits, ties to even.  The result is an integer again. *)
Definition float64_of_int64 (n : Z) : Z :=
  let a := Z.abs n in
  if (a <? 2 ^ 53)%Z then n
  else
    let e := Z.log2 a - 52 in
    Z.sgn n * (round_half_even a (2 ^ e) * 2 ^ e).

Definition digit_char (d : Z) : ascii := ascii_of_N (48 + Z.to_N d).

(** [fmt.Sprintf("%d", n)]. *)
Definition fmt_d (n : Z) : string := NilZero.string_of_int (Z.to_int n).

(** [fmt.Sprintf("%.2f", x)] for the float64 [x = num / den], where [den]
    is a power of two, so that the division is exact: the decimal
    expansion of [x] rounded to two places, ties to even. *)
Definition fmt_2f (num den : Z) : string :=
  let h := round_half_even (Z.abs num * 100) den in
  (if (num <? 0)%Z then "-" else "")
  ++ fmt_d (h / 100) ++ "."
  ++ String (digit_char (h / 10 mod 10))
       (String (digit_char (h mod 10)) EmptyString).

Definition B : Z := 1.
Definition KB : Z := 1024 * B.
Definition MB : Z := 1024 * KB.
Definition GB : Z := 1024 * MB.
Definition TB : Z := 1024 * GB.

(** [func formatSize(size int64) string], the same text in both programs. *)
Definition formatSize (size : Z) : string :=
  if (TB <=? size)%Z then fmt_2f (float64_of_int64 size) TB ++ " TB"
  else if (GB <=? size)%Z then fmt_2f (float64_of_int64 size) GB ++ " GB"
  else if (MB <=? size)%Z then fmt_2f (float64_of_int64 size) MB ++ " MB"
  else if (KB <=? size)%Z then fmt_2f (float64_of_int64 size) KB ++ " KB"
  else fmt_d size ++ " B".

Definition newline : string := String (ascii_of_N 10) EmptyString.

Definition connector_last : string := "└── ".
Definition connector_mid : string := "├── ".
Definition indent_last : string := "    ".
Definition indent_mid : string := "│   ".

(** The text of one [fmt.Printf] of [printFileTree]:
    ["%s%s%s/ (%s)\n"] for a directory, ["%s%s%s (%s)\n"] for a file. *)
Definition node_line (prefix connector : string) (node : FileInfo) : string :=
  if IsDir node
  then prefix ++ connector ++ Name node ++ "/ (" ++ formatSize (Size node)
       ++ ")" ++ newline
  else prefix ++ connector ++ Name node ++ " (" ++ formatSize (Size node)
       ++ ")" ++ newline.

(** [i == len(children)-1] while ranging over [children], at the element
    whose remaining tail is [rest]. *)
Definition is_last_index {A : Type} (rest : list A) : bool :=
  match rest with [] => true | _ :: _ => false end.

(** Results of a Go function returning [( *FileInfo, error)]: the pointer
    ([None] for nil) and whether the error is non-nil. *)
Definition TreeAndError : Type := (option FileInfo * bool)%type.

(** What a run of [main] leaves behind: the status of the process, the
    texts written to standard output and to standard error, one element
    for every [Printf], and the file that [generateHTML] created, if any,
    with what went into it. *)
Definition HtmlPage : Type := (string * string * string)%type.

Record Outcome : Type := mkOutcome {
  exit_status : Z;
  stdout : list string;
  stderr : list string;
  created : option (string * option HtmlPage)
}.

(** The answers that a run of [main] gets from outside:
    - [os_IsNotExist]: whether [os.Stat(targetDir)] fails with an error
      that [os.IsNotExist] accepts;
    - [os_fs]: the file system at the target directory;
    - [os_Create]: whether [os.Create(outputFile)] succeeds;
    - [error_text]: what [%v] prints for the error at hand.
    [json.MarshalIndent] is passed to the functions that call it: the
    text of a tree of JSON nodes, [None] when it returns an error. *)
Record World : Type := mkWorld {
  os_IsNotExist : bool;
  os_fs : FsEntry;
  os_Create : bool;
  error_text : string
}.

(* ================================================================== *)
(** ** The tool with HTML output: [src/unnamed/part_000] *)

Module HtmlTool.
Section WithLib.
Context {lib : GoLib}.

(** The loop body of [buildFileTreeRecursive] after the recursive call:
    [if err != nil { continue }; node.Children = append(node.Children,
    child); totalSize += child.Size]. *)
Definition add_child (acc : list FileInfo * Z) (built : option FileInfo)
  : list FileInfo * Z :=
  match built with
  | None => acc
  | Some child => ((fst acc ++ [child])%list, add64 (snd acc) (Size child))
  end.

(** [func buildFileTreeRecursive(node *FileInfo) error]: [fs] is what the
    file system answers at [node.Path]; the result is the node as filled
    in, [None] when an error is returned. *)
Fixpoint buildFileTreeRecursive (fs : FsEntry) (node : FileInfo)
  : option FileInfo :=
  match fs with
  | mkFsEntry _ _ _ stat readdir =>
      match stat with
      | None => None
      | Some (isDir, size) =>
          if isDir then
            match readdir with
            | None => None
            | Some entries =>
                let walked :=
                  fold_left
                    (fun acc entry =>
                       let childPath :=
                         filepath_Join (Path node) (entName entry) in
                       let child :=
                         mkFileInfo (entName entry) 0 false childPath [] in
                       add_child acc (buildFileTreeRecursive entry child))
                    entries (Children node, 0) in
                Some (mkFileInfo (Name node) (snd walked) true (Path node)
                                 (fst walked))
            end
          else
            Some (mkFileInfo (Name node) size false (Path node)
                             (Children node))
      end
  end.

(** [func buildFileTree(rootPath string) ( *FileInfo, error)]; [fs] is the
    file system at the absolute path. *)
Definition buildFileTree (fs : FsEntry) (rootPath : string)
  : option FileInfo :=
  match filepath_Abs rootPath with
  | None => None
  | Some absPath =>
      let root := mkFileInfo (filepath_Base absPath) 0 false absPath [] in
      buildFileTreeRecursive fs root
  end.

(** The closure passed to [sort.Slice], on the two elements compared. *)
Definition less (sortType : SortType) (reverse : bool) (a b : FileInfo)
  : bool :=
  match sortType with
  | SortBySize =>
      let result := (Size b <? Size a)%Z in
      if reverse then negb result else result
  | SortByName =>
      if negb (Bool.eqb (IsDir a) (IsDir b)) then IsDir a
      else
        let result :=
          String.ltb (strings_ToLower (Name a)) (strings_ToLower (Name b)) in
        if reverse then negb result else result
  end.

(** [func sortFileTree(root *FileInfo, sortType SortType, reverse bool)],
    returning the tree as it is after the call. *)
Fixpoint sortFileTree (root : FileInfo) (sortType : SortType)
  (reverse : bool) : FileInfo :=
  match root with
  | mkFileInfo name size isDir path children =>
      match children with
      | [] => root
      | _ :: _ =>
          let sortedBelow :=
            map (fun child =>
                   if IsDir child then sortFileTree child sortType reverse
                   else child)
                children in
          mkFileInfo name size isDir path
                     (sort_Slice (less sortType reverse) sortedBelow)
      end
  end.

(** [func printFileTree(node *FileInfo, prefix string, isLast bool)]: the
    lines written to standard output, in order. *)
Fixpoint printFileTree (node : FileInfo) (prefix : string) (isLast : bool)
  : list string :=
  let connector :=
    if String.eqb prefix "" then ""
    else if isLast then connector_last else connector_mid in
  node_line prefix connector node ::
  match Children node with
  | [] => []
  | _ :: _ =>
      let newPrefix :=
        if String.eqb prefix ""
        then (if isLast then indent_last else indent_mid)
        else if isLast then prefix ++ indent_last
        else prefix ++ indent_mid in
      (fix range (children : list FileInfo) : list string :=
         match children with
         | [] => []
         | child :: rest =>
             (printFileTree child newPrefix (is_last_index rest)
              ++ range rest)%list
         end) (Children node)
  end.

(** The console branch of [main]: [printFileTree] on the root, with the
    empty prefix and [isLast = true]. *)
Definition console_output (root : FileInfo) : list string :=
  printFileTree root "" true.

(** [type JSONFileInfo struct]; the fields carry the names of their JSON
    tags.  [json_children] is [None] for a nil slice. *)
#[warnings="-register-all"]
Inductive JSONFileInfo : Type := mkJSONFileInfo {
  json_name : string;
  json_size : Z;
  json_sizeStr : string;
  json_isDir : bool;
  json_path : string;
  json_children : option (list JSONFileInfo)
}.

(** [func convertToJSON(node *FileInfo) *JSONFileInfo], on a node that is
    not nil: no node of a tree is. *)
Fixpoint convertToJSON (node : FileInfo) : JSONFileInfo :=
  match node with
  | mkFileInfo name size isDir path children =>
      mkJSONFileInfo name size (formatSize size) isDir path
        (match children with
         | [] => None
         | _ :: _ => Some (map convertToJSON children)
         end)
  end.

(** [func generateHTML(root *FileInfo, targetDir, outputFile string) error]:
    whether the error is non-nil, and what became of the file.  The page
    is the template filled by [Fprintf] with [targetDir], [targetDir] and
    the JSON text; the result of [Fprintf] is dropped. *)
Definition generateHTML (w : World)
  (json_MarshalIndent : JSONFileInfo -> option string)
  (root : FileInfo) (targetDir outputFile : string)
  : bool * option (string * option HtmlPage) :=
  if negb (os_Create w) then (true, None)
  else
    let jsonData := convertToJSON root in
    match json_MarshalIndent jsonData with
    | None => (true, Some (outputFile, None))
    | Some jsonBytes =>
        (false, Some (outputFile, Some (targetDir, targetDir, jsonBytes)))
    end.

(** [func main()], after [flag.Parse]: [sortBy], [reverse] and
    [htmlOutput] are the values of the three flags, [args] is
    [flag.Args()]. *)
Definition main (w : World)
  (json_MarshalIndent : JSONFileInfo -> option string)
  (sortBy : string) (reverse : bool) (htmlOutput : string)
  (args : list string) : Outcome :=
  let targetDir := match args with [] => "." | arg0 :: _ => arg0 end in
  if os_IsNotExist w then
    mkOutcome 1 []
      ["Error: Directory '" ++ targetDir ++ "' does not exist" ++ newline]
      None
  else
    let lowered := strings_ToLower sortBy in
    match (if String.eqb lowered "size" then Some SortBySize
           else if String.eqb lowered "name" then Some SortByName
           else None) with
    | None =>
        mkOutcome 1 []
          ["Error: Invalid sort method '" ++ sortBy
           ++ "'. Use 'name' or 'size'" ++ newline]
          None
    | Some sortType =>
        match buildFileTree (os_fs w) targetDir with
        | None =>
            mkOutcome 1 []
              ["Error building file tree: " ++ error_text w ++ newline] None
        | Some root =>
            let root := sortFileTree root sortType reverse in
            if negb (String.eqb htmlOutput "") then
              match generateHTML w json_MarshalIndent root targetDir
                                 htmlOutput with
              | (true, file) =>
                  mkOutcome 1 []
                    ["Error generating HTML: " ++ error_text w ++ newline]
                    file
              | (false, file) =>
                  mkOutcome 0
                    ["HTML output saved to: " ++ htmlOutput ++ newline] []
                    file
              end
            else mkOutcome 0 (printFileTree root "" true) [] None
        end
    end.
End WithLib.
End HtmlTool.

(* ================================================================== *)
(** ** The console-only tool: [src/main.go] *)

Module ConsoleTool.
Section WithLib.
Context {lib : GoLib}.

(** [func calculateDirSize(dir *FileInfo) int64]. *)
Definition calculateDirSize (dir : FileInfo) : Z :=
  if negb (IsDir dir) then Size dir
  else fold_left (fun totalSize child => add64 totalSize (Size child))
                 (Children dir) 0.

(** [func buildFileTree(dirPath string) ( *FileInfo, error)]; [fs] is
    what the file system answers at [dirPath]. *)
Fixpoint buildFileTree (fs : FsEntry) (dirPath : string) : TreeAndError :=
  match fs with
  | mkFsEntry _ _ _ stat readdir =>
      match stat with
      | None => (None, true)
      | Some (infoIsDir, infoSize) =>
          let root :=
            mkFileInfo (filepath_Base dirPath) infoSize infoIsDir dirPath []
          in
          if negb infoIsDir then (Some root, false)
          else
            match readdir with
            | None => (Some root, true)
            | Some entries =>
                let children :=
                  fold_left
                    (fun rootChildren entry =>
                       let childPath :=
                         filepath_Join dirPath (entName entry) in
                       match entInfo entry with
                       | None => rootChildren
                       | Some childSize =>
                           let child :=
                             mkFileInfo (entName entry) childSize
                                        (entIsDir entry) childPath [] in
                           let child :=
                             if entIsDir entry then
                               match buildFileTree entry childPath with
                               | (Some subTree, false) =>
                                   let child :=
                                     mkFileInfo (Name child) (Size child)
                                                (IsDir child) (Path child)
                                                (Children subTree) in
                                   mkFileInfo (Name child)
                                              (calculateDirSize child)
                                              (IsDir child) (Path child)
                                              (Children child)
                               | _ => child
                               end
                             else child in
                           (rootChildren ++ [child])%list
                       end)
                    entries (Children root) in
                let root :=
                  mkFileInfo (Name root) (Size root) (IsDir root)
                             (Path root) children in
                (Some (mkFileInfo (Name root) (calculateDirSize root)
                                  (IsDir root) (Path root) (Children root)),
                 false)
            end
      end
  end.

(** The closure passed to [sort.Slice]: here the directories-first test
    comes before the [switch], for both sort keys. *)
Definition less (sortType : SortType) (reverse : bool) (a b : FileInfo)
  : bool :=
  if negb (Bool.eqb (IsDir a) (IsDir b)) then IsDir a
  else
    let result :=
      match sortType with
      | SortBySize => (Size b <? Size a)%Z
      | SortByName =>
          String.ltb (strings_ToLower (Name a)) (strings_ToLower (Name b))
      end in
    if reverse then negb result else result.

(** [func sortFileTree(root *FileInfo, sortType SortType, reverse bool)]. *)
Fixpoint sortFileTree (root : FileInfo) (sortType : SortType)
  (reverse : bool) : FileInfo :=
  match root with
  | mkFileInfo name size isDir path children =>
      match children with
      | [] => root
      | _ :: _ =>
          let sortedBelow :=
            map (fun child =>
                   if IsDir child then sortFileTree child sortType reverse
                   else child)
                children in
          mkFileInfo name size isDir path
                     (sort_Slice (less sortType reverse) sortedBelow)
      end
  end.

(** [func printFileTree(node *FileInfo, prefix string, isLast bool)]. *)
Fixpoint printFileTree (node : FileInfo) (prefix : string) (isLast : bool)
  : list string :=
  let connector :=
    if String.eqb prefix "" then ""
    else if isLast then connector_last else connector_mid in
  node_line prefix connector node ::
  match Children node with
  | [] => []
  | _ :: _ =>
      let newPrefix :=
        if String.eqb prefix "" then ""
        else if isLast then prefix ++ indent_last
        else prefix ++ indent_mid in
      (fix range (children : list FileInfo) : list string :=
         match children with
         | [] => []
         | child :: rest =>
             (printFileTree child newPrefix (is_last_index rest)
              ++ range rest)%list
         end) (Children node)
  end.

(** The grandchildren loop of [main]. *)
Fixpoint display_grandchildren (newPrefix : string)
  (grandChildren : list FileInfo) : list string :=
  match grandChildren with
  | [] => []
  | grandChild :: rest =>
      (printFileTree grandChild newPrefix (is_last_index rest)
       ++ display_grandchildren newPrefix rest)%list
  end.

(** The children loop of [main]. *)
Fixpoint display_children (children : list FileInfo) : list string :=
  match children with
  | [] => []
  | child :: rest =>
      let isLast := is_last_index rest in
      let connector := if isLast then connector_last else connector_mid in
      let newPrefix := if isLast then indent_last else indent_mid in
      (node_line "" connector child
       :: display_grandchildren newPrefix (Children child)
       ++ display_children rest)%list
  end.

(** The display part of [main]: the line with [targetDir], then the
    tree below the root. *)
Definition display (targetDir : string) (root : FileInfo) : list string :=
  (targetDir ++ newline) :: display_children (Children root).

(** [func main()], after [flag.Parse]: [sortBy] and [reverse] are the
    values of the two flags, [args] is [flag.Args()].  [buildFileTree]
    never returns a nil tree without an error; Go would stop with a panic
    and status 2 when [sortFileTree] reads the children of nil. *)
Definition main (w : World) (sortBy : string) (reverse : bool)
  (args : list string) : Outcome :=
  let targetDir := match args with arg0 :: _ => arg0 | [] => "." end in
  let sortType :=
    if String.eqb (strings_ToLower sortBy) "size" then SortBySize
    else SortByName in
  match buildFileTree (os_fs w) targetDir with
  | (_, true) => mkOutcome 1 [] ["Error: " ++ error_text w ++ newline] None
  | (None, false) =>
      mkOutcome 2 []
        ["panic: runtime error: invalid memory address or nil pointer "
         ++ "dereference" ++ newline]
        None
  | (Some root, false) =>
      let root := sortFileTree root sortType reverse in
      mkOutcome 0 (display targetDir root) [] None
  end.
End WithLib.
End ConsoleTool.

(* ================================================================== *)
(** ** The script of the HTML page: [src/unnamed/part_000], inside the
       template of [generateHTML] *)

(** A consistent comparison function, as ECMAScript asks of the argument
    of [Array.prototype.sort]: the elements fall into classes of equals,
    and the classes are totally ordered.  [cf_antisym] is the link between
    the two argument orders that the standard's note relies on. *)
Record Consistent {A : Type} (cmp : A -> A -> Z) : Prop := {
  cf_refl : forall a, cmp a a = 0;
  cf_sym : forall a b, cmp a b = 0 -> cmp b a = 0;
  cf_antisym : forall a b, cmp a b < 0 <-> 0 < cmp b a;
  cf_trans_eq : forall a b c, cmp a b = 0 -> cmp b c = 0 -> cmp a c = 0;
  cf_trans_lt : forall a b c, cmp a b < 0 -> cmp b c < 0 -> cmp a c < 0;
  cf_trans_gt : forall a b c, 0 < cmp a b -> 0 < cmp b c -> 0 < cmp a c
}.

(** No later element compares below an earlier one. *)
Definition ComparedSorted {A : Type} (cmp : A -> A -> Z) : list A -> Prop :=
  StronglySorted (fun earlier later => 0 <= cmp later earlier).

(** What the script calls of the JavaScript host.  [Array_sort cmp l] is
    the array after [l.sort(cmp)]; the laws are those of ECMAScript: the
    result is a permutation, sorted when [cmp] is consistent, and
    [localeCompare] is a consistent comparison on all strings, whatever
    the locale.  The data of the script is the tree of [JSONFileInfo]
    that [generateHTML] marshals; a string of the script is taken to be
    the Go string it was made from. *)
Class JsHost : Type := {
  Array_sort : forall A : Type, (A -> A -> Z) -> list A -> list A;
  String_toLowerCase : string -> string;
  String_localeCompare : string -> string -> Z;

  Array_sort_perm :
    forall (A : Type) (cmp : A -> A -> Z) (l : list A),
      Permutation l (Array_sort cmp l);
  Array_sort_sorted :
    forall (A : Type) (cmp : A -> A -> Z) (l : list A),
      Consistent cmp -> ComparedSorted cmp (Array_sort cmp l);
  String_localeCompare_consistent : Consistent String_localeCompare
}.

Arguments Array_sort {_} [A] cmp l.

(** A stand-in for [localeCompare]: the byte-wise order. *)
Definition bytewise_localeCompare (a b : string) : Z :=
  match String.compare a b with Lt => -1 | Eq => 0 | Gt => 1 end.

Module Page.
Section WithHost.
Context {host : JsHost}.

(** The Number that the script holds for an integer of the JSON text: the
    nearest float64. *)
Definition js_number (n : Z) : Z := float64_of_int64 n.

(** The subtraction of two Numbers that hold integers: the exact
    difference, rounded to the nearest float64. *)
Definition js_minus (x y : Z) : Z := float64_of_int64 (x - y).

(** The arrow function passed to [sort] in [sortRecursive]:
<<
  let result;
  if (sortBy === 'size') { result = b.size - a.size; }
  else {
      if (a.isDir !== b.isDir) { return a.isDir ? -1 : 1; }
      result = a.name.toLowerCase().localeCompare(b.name.toLowerCase());
  }
  return ascending ? result : -result;
>>
    [inr] is the early return. *)
Definition compare (sortBy : string) (ascending : bool)
  (a b : HtmlTool.JSONFileInfo) : Z :=
  match
    (if String.eqb sortBy "size" then
       inl (js_minus (js_number (HtmlTool.json_size b))
                     (js_number (HtmlTool.json_size a)))
     else if negb (Bool.eqb (HtmlTool.json_isDir a) (HtmlTool.json_isDir b))
          then inr (if HtmlTool.json_isDir a then -1 else 1)
          else inl (String_localeCompare
                      (String_toLowerCase (HtmlTool.json_name a))
                      (String_toLowerCase (HtmlTool.json_name b))))
  with
  | inr returned => returned
  | inl result => if ascending then result else - result
  end.

(** [function sortRecursive(node)] inside [sortTreeData]: the node as it
    is after the call. *)
Fixpoint sortRecursive (sortBy : string) (ascending : bool)
  (node : HtmlTool.JSONFileInfo) : HtmlTool.JSONFileInfo :=
  match node with
  | HtmlTool.mkJSONFileInfo name size sizeStr isDir path children =>
      match children with
      | None => node
      | Some l =>
          HtmlTool.mkJSONFileInfo name size sizeStr isDir path
            (Some (Array_sort (compare sortBy ascending)
                              (map (sortRecursive sortBy ascending) l)))
      end
  end.

(** [function sortTreeData(data, sortBy, ascending)] on data that is not
    null; the deep copy through JSON leaves the values as they are. *)
Definition sortTreeData (data : HtmlTool.JSONFileInfo) (sortBy : string)
  (ascending : bool) : HtmlTool.JSONFileInfo :=
  match HtmlTool.json_children data with
  | None => data
  | Some _ =>
      let sortedData := data in
      sortRecursive sortBy ascending sortedData
  end.
End WithHost.
End Page.

(* ================================================================== *)
(** ** The properties of spec.md, as definitions *)

(** *** Sizes *)

(** The sum of a list of integers, without wrap-around. *)
Definition Zsum (zs : list Z) : Z := fold_right Z.add 0 zs.

(** A directory node carries the sum of its children's sizes: the int64
    sum as Go computes it, which is the exact sum whenever that fits. *)
Definition size_is_sum (d : FileInfo) : Prop :=
  IsDir d = true ->
  Size d = sum64 (map Size (Children d)) /\
  (in_int64 (Zsum (map Size (Children d))) ->
   Size d = Zsum (map Size (Children d))).

(** The same, asked only of the directory nodes that have children. *)
Definition listed_size_is_sum (d : FileInfo) : Prop :=
  Children d <> [] -> size_is_sum d.

(** *** The walk *)

(** The stat or the readdir of the entry fails. *)
Definition unreadable (e : FsEntry) : bool :=
  match entStat e with
  | None => true
  | Some (true, _) =>
      match entReadDir e with None => true | Some _ => false end
  | Some (false, _) => false
  end.

Definition readable (e : FsEntry) : bool := negb (unreadable e).

(** The node that the loop of [buildFileTreeRecursive] makes for an entry
    of the directory [node] before it descends into it. *)
Definition child_node {lib : GoLib} (node : FileInfo) (entry : FsEntry)
  : FileInfo :=
  mkFileInfo (entName entry) 0 false
             (filepath_Join (Path node) (entName entry)) [].

(** [entry.Info()] succeeds. *)
Definition has_info (e : FsEntry) : bool :=
  match entInfo e with Some _ => true | None => false end.

(** The child that the loop of [ConsoleTool.buildFileTree] appends for an
    entry of the directory at [dirPath], if it appends one: nothing when
    [entry.Info()] fails; a directory with the children and the summed
    size of its own walk when that walk succeeds; else a node without
    children that carries the size of the entry's own record. *)
Definition console_entry {lib : GoLib} (dirPath : string) (entry : FsEntry)
  : option FileInfo :=
  let childPath := filepath_Join dirPath (entName entry) in
  match entInfo entry with
  | None => None
  | Some childSize =>
      Some
        (if entIsDir entry then
           match ConsoleTool.buildFileTree entry childPath with
           | (Some subTree, false) =>
               mkFileInfo (entName entry)
                          (sum64 (map Size (Children subTree))) true childPath
                          (Children subTree)
           | _ => mkFileInfo (entName entry) childSize true childPath []
           end
         else mkFileInfo (entName entry) childSize false childPath [])
  end.

(** The results of the entries on which [build] succeeds, in order. *)
Definition successes (build : FsEntry -> option FileInfo)
  (entries : list FsEntry) : list FileInfo :=
  flat_map (fun e => match build e with Some c => [c] | None => [] end)
           entries.

(** A node that is not a directory has no children; every tree that the
    walk builds is of this kind. *)
Definition files_are_leaves (t : FileInfo) : Prop :=
  Forall (fun d => IsDir d = false -> Children d = []) (nodes t).

(** *** Orders *)

(** [a] stands before [b] in a name-sorted list: no file before a
    directory, and names of the same kind ascending without case. *)
Definition name_order {lib : GoLib} (a b : FileInfo) : Prop :=
  (IsDir b = true -> IsDir a = true) /\
  (IsDir a = IsDir b ->
   String.leb (strings_ToLower (Name a)) (strings_ToLower (Name b)) = true).

(** [a] stands before [b] in a size-sorted list. *)
Definition size_order (a b : FileInfo) : Prop := Size b <= Size a.

(** [a] stands before [b] when directories come first and sizes descend
    within each kind. *)
Definition kind_then_size_order (a b : FileInfo) : Prop :=
  (IsDir b = true -> IsDir a = true) /\
  (IsDir a = IsDir b -> Size b <= Size a).

(** [a] stands before [b] in a list sorted by name with the reverse flag:
    still no file before a directory, and names of the same kind
    descending without case. *)
Definition reverse_name_order {lib : GoLib} (a b : FileInfo) : Prop :=
  (IsDir b = true -> IsDir a = true) /\
  (IsDir a = IsDir b ->
   String.leb (strings_ToLower (Name b)) (strings_ToLower (Name a)) = true).

(** No node of the tree has more than six children. *)
Definition small_directories (t : FileInfo) : Prop :=
  Forall (fun d => (List.length (Children d) <= 6)%nat) (nodes t).

(** Every earlier element is related to every later one. *)
Definition ordered_by (R : FileInfo -> FileInfo -> Prop)
  : list FileInfo -> Prop :=
  StronglySorted R.

(** The six orders in which three siblings can be listed. *)
Definition arrangements3 {A : Type} (x y z : A) : list (list A) :=
  [[x; y; z]; [x; z; y]; [y; x; z]; [y; z; x]; [z; x; y]; [z; y; x]].

(** *** Sorting *)

(** The recursion of [sortFileTree] with the comparator left open. *)
Fixpoint sort_levels {lib : GoLib} (cmp : FileInfo -> FileInfo -> bool)
  (root : FileInfo) : FileInfo :=
  match root with
  | mkFileInfo name size isDir path children =>
      match children with
      | [] => root
      | _ :: _ =>
          mkFileInfo name size isDir path
            (sort_Slice cmp
               (map (fun child =>
                       if IsDir child then sort_levels cmp child else child)
                    children))
      end
  end.

(** What [sortFileTree] does to one child of the node it is at. *)
Definition descend {lib : GoLib} (cmp : FileInfo -> FileInfo -> bool)
  (child : FileInfo) : FileInfo :=
  if IsDir child then sort_levels cmp child else child.

(** [cmp] reads the name, the size and the kind of a node only. *)
Definition reads_keys_only (cmp : FileInfo -> FileInfo -> bool) : Prop :=
  forall a a' b b',
    Name a = Name a' -> Size a = Size a' -> IsDir a = IsDir a' ->
    Name b = Name b' -> Size b = Size b' -> IsDir b = IsDir b' ->
    cmp a b = cmp a' b'.

(** The number of levels of a tree. *)
Fixpoint height (t : FileInfo) : nat :=
  match t with
  | mkFileInfo _ _ _ _ children =>
      S (fold_right Nat.max 0%nat (map height children))
  end.

(** The other order of work: sort the children of [root] first, then
    descend into the directories among them.  The recursion runs on the
    sorted list, so it is bounded by [fuel] levels. *)
Fixpoint sort_then_descend {lib : GoLib} (cmp : FileInfo -> FileInfo -> bool)
  (fuel : nat) (root : FileInfo) : FileInfo :=
  match fuel with
  | O => root
  | S fuel' =>
      match Children root with
      | [] => root
      | _ :: _ =>
          mkFileInfo (Name root) (Size root) (IsDir root) (Path root)
            (map (fun child =>
                    if IsDir child then sort_then_descend cmp fuel' child
                    else child)
                 (sort_Slice cmp (Children root)))
      end
  end.

(** [sortFileTree] with the two steps exchanged, on the whole tree. *)
Definition sortFileTree_sort_first {lib : GoLib}
  (cmp : FileInfo -> FileInfo -> bool) (root : FileInfo) : FileInfo :=
  sort_then_descend cmp (height root) root.

(** [t'] is [t] with the children lists permuted, at any depth: the four
    scalar fields agree, and the children of [t'] are, in some order, the
    children of [t], each again changed in this way only. *)
#[warnings="-register-all"]
Inductive reordered : FileInfo -> FileInfo -> Prop :=
| reordered_node :
    forall name size isDir path children below children',
      Forall2 reordered children below ->
      Permutation below children' ->
      reordered (mkFileInfo name size isDir path children)
                (mkFileInfo name size isDir path children').

(** The scalar fields of every node, parents before children. *)
Definition fields (t : FileInfo) : string * Z * bool * string :=
  (Name t, Size t, IsDir t, Path t).

(** [a] stands somewhere before [b] in [l]. *)
Definition stands_before (l : list FileInfo) (a b : FileInfo) : Prop :=
  exists l1 l2 l3, l = (l1 ++ a :: l2 ++ b :: l3)%list.

(** The reading of the reverse flag in spec.md: with the flag, [a] comes
    before [b] exactly when, without it, [b] comes before [a]. *)
Definition reverse_mirrors (reversed forward : list FileInfo)
  (a b : FileInfo) : Prop :=
  stands_before reversed a b <-> stands_before forward b a.

(** *** The console tree *)

(** What an ancestor adds to the prefix of the lines below it. *)
Definition continuation (ancestorIsLast : bool) : string :=
  if ancestorIsLast then indent_last else indent_mid.

(** The prefix of a line: the continuations of the ancestors, outermost
    first. *)
Definition prefix_of (ancestors : list bool) : string :=
  fold_right String.append "" (map continuation ancestors).

Definition connector_of (isLast : bool) : string :=
  if isLast then connector_last else connector_mid.

(** The lines of a subtree as section 4.3 describes them; [ancestors]
    holds, for each ancestor of [node] from the root down, whether it was
    the last of its siblings.  [root_connector] tells whether a node
    without ancestors gets a connector. *)
Fixpoint tree_lines (root_connector : bool) (ancestors : list bool)
  (node : FileInfo) (isLast : bool) : list string :=
  match node with
  | mkFileInfo _ _ _ _ children =>
      node_line (prefix_of ancestors)
                (match ancestors with
                 | [] => if root_connector then connector_of isLast else ""
                 | _ :: _ => connector_of isLast
                 end)
                node
      :: (fix range (l : list FileInfo) : list string :=
            match l with
            | [] => []
            | child :: rest =>
                (tree_lines root_connector (ancestors ++ [isLast]) child
                            (is_last_index rest)
                 ++ range rest)%list
            end) children
  end.

(** The lines of a list of siblings below the same ancestors. *)
Fixpoint forest_lines (root_connector : bool) (ancestors : list bool)
  (siblings : list FileInfo) : list string :=
  match siblings with
  | [] => []
  | node :: rest =>
      (tree_lines root_connector ancestors node (is_last_index rest)
       ++ forest_lines root_connector ancestors rest)%list
  end.

(** *** A small file system *)

Definition plain_file (name : string) (size : Z) : FsEntry :=
  mkFsEntry name false (Some size) (Some (false, size)) None.

(** [/work] holds a file, a directory that cannot be listed, a broken
    symbolic link, a directory with two files, and another file. *)
Definition example_entries : list FsEntry :=
  [ plain_file "a.txt" 10;
    mkFsEntry "locked" true (Some 4096) (Some (true, 4096)) None;
    mkFsEntry "broken" false (Some 7) None None;
    mkFsEntry "sub" true (Some 4096) (Some (true, 4096))
              (Some [plain_file "c" 5; plain_file "d" 6]);
    plain_file "e" 1 ].

Definition example_fs : FsEntry :=
  mkFsEntry "work" true (Some 4096) (Some (true, 4096)) (Some example_entries).

Definition example_root : FileInfo := mkFileInfo "work" 0 false "/work" [].

(** The tree that [HtmlTool.buildFileTree] makes of it. *)
Definition example_tree : FileInfo :=
  mkFileInfo "work" 22 true "/work"
    [ mkFileInfo "a.txt" 10 false "/work/a.txt" [];
      mkFileInfo "sub" 11 true "/work/sub"
        [ mkFileInfo "c" 5 false "/work/sub/c" [];
          mkFileInfo "d" 6 false "/work/sub/d" [] ];
      mkFileInfo "e" 1 false "/work/e" [] ].

(** The tree that [ConsoleTool.buildFileTree] makes of the same file
    system: [locked] and [broken] stay. *)
Definition console_example_tree : FileInfo :=
  mkFileInfo "work" 4125 true "/work"
    [ mkFileInfo "a.txt" 10 false "/work/a.txt" [];
      mkFileInfo "locked" 4096 true "/work/locked" [];
      mkFileInfo "broken" 7 false "/work/broken" [];
      mkFileInfo "sub" 11 true "/work/sub"
        [ mkFileInfo "c" 5 false "/work/sub/c" [];
          mkFileInfo "d" 6 false "/work/sub/d" [] ];
      mkFileInfo "e" 1 false "/work/e" [] ].

(* ================================================================== *)
(** ** Further properties of the code, as definitions *)

(** *** Trees as the walk builds them *)

(** The path of every child is the path of its parent joined with the
    name of the child. *)
Definition paths_follow_names {lib : GoLib} (t : FileInfo) : Prop :=
  Forall (fun d =>
            Forall (fun c => Path c = filepath_Join (Path d) (Name c))
                   (Children d))
         (nodes t).

(** Nothing fails below [e], and the record of every entry agrees with
    [os.Stat] of its path: the same kind, and for a file the same size. *)
Fixpoint healthy (e : FsEntry) : bool :=
  match e with
  | mkFsEntry _ isDir info stat readdir =>
      match info, stat with
      | Some infoSize, Some (statIsDir, statSize) =>
          Bool.eqb isDir statIsDir &&
          (if isDir then
             match readdir with
             | Some entries => forallb healthy entries
             | None => false
             end
           else (infoSize =? statSize)%Z)
      | _, _ => false
      end
  end.

(** The root needs no record of its own: [os.Stat] and [os.ReadDir]
    answer, and the entries below are healthy. *)
Definition healthy_root (fs : FsEntry) : bool :=
  match entStat fs with
  | Some (true, _) =>
      match entReadDir fs with
      | Some entries => forallb healthy entries
      | None => false
      end
  | Some (false, _) => true
  | None => false
  end.

(** *** Sorting *)

(** A property of a node that reads its four scalar fields and, of its
    children, only which scalar fields they have, in any order. *)
Definition reads_level (P : FileInfo -> Prop) : Prop :=
  forall d d',
    fields d = fields d' ->
    Permutation (map fields (Children d)) (map fields (Children d')) ->
    P d -> P d'.

(** *** The printed lines *)

(** The text of a node in the console tree, after the indentation and the
    connector: the name, a slash for a directory, and the size. *)
Definition label (node : FileInfo) : string :=
  Name node ++ (if IsDir node then "/ (" else " (")
  ++ formatSize (Size node) ++ ")" ++ newline.

(** [line] is the line of [node]: its label behind some indentation. *)
Definition shows (line : string) (node : FileInfo) : Prop :=
  exists indent : string, line = indent ++ label node.

(** [line] ends with the text [text]. *)
Definition carries (line text : string) : Prop :=
  exists indent : string, line = indent ++ text.

(** *** The JSON tree *)

(** The nodes of a JSON tree, parents before children. *)
Fixpoint json_nodes (j : HtmlTool.JSONFileInfo)
  : list HtmlTool.JSONFileInfo :=
  match j with
  | HtmlTool.mkJSONFileInfo _ _ _ _ _ children =>
      j :: match children with
           | None => []
           | Some l => flat_map json_nodes l
           end
  end.

(** The scalar fields of a JSON node. *)
Definition json_fields (j : HtmlTool.JSONFileInfo)
  : string * Z * string * bool * string :=
  (HtmlTool.json_name j, HtmlTool.json_size j, HtmlTool.json_sizeStr j,
   HtmlTool.json_isDir j, HtmlTool.json_path j).

(** Reading a JSON tree back: the formatted size is dropped, and a nil
    slice of children is the empty list. *)
Fixpoint tree_of_json (j : HtmlTool.JSONFileInfo) : FileInfo :=
  match j with
  | HtmlTool.mkJSONFileInfo name size _ isDir path children =>
      mkFileInfo name size isDir path
        (match children with
         | None => []
         | Some l => map tree_of_json l
         end)
  end.

(** What [convertToJSON] puts into the scalar fields of a node. *)
Definition json_fields_of (d : FileInfo)
  : string * Z * string * bool * string :=
  (Name d, Size d, formatSize (Size d), IsDir d, Path d).

(** *** The sort flag *)

(** The values of [-sort] that the tool with HTML output accepts. *)
Definition valid_sort {lib : GoLib} (sortBy : string) : Prop :=
  strings_ToLower sortBy = "size" \/ strings_ToLower sortBy = "name".

(** The first positional argument, or the current directory. *)
Definition target_of (args : list string) : string :=
  match args with [] => "." | arg0 :: _ => arg0 end.

(** [filepath.Abs] of the stand-in library never fails, and the example
    world has the example file system. *)
Definition example_world : World := mkWorld false example_fs true "denied".

(** *** The script of the page *)

(** Induction over a JSON tree with the hypothesis on every child. *)
Unset Implicit Arguments.
Fixpoint JSONFileInfo_tree_ind (P : HtmlTool.JSONFileInfo -> Prop)
  (step : forall n s ss d p cs,
      (forall l, cs = Some l -> Forall P l) ->
      P (HtmlTool.mkJSONFileInfo n s ss d p cs))
  (j : HtmlTool.JSONFileInfo) : P j :=
  match j with
  | HtmlTool.mkJSONFileInfo n s ss d p cs =>
      step n s ss d p cs
        (match cs as cs0
               return forall l, cs0 = Some l -> Forall P l
         with
         | None => fun l E =>
             match E in _ = y return
                   match y with None => True | Some _ => Forall P l end
             with eq_refl => I end
         | Some l0 => fun l E =>
             match E in _ = y return
                   match y with None => True | Some l' => Forall P l' end
             with
             | eq_refl =>
                 (fix all (k : list HtmlTool.JSONFileInfo) : Forall P k :=
                    match k with
                    | [] => Forall_nil P
                    | c :: k' =>
                        Forall_cons c (JSONFileInfo_tree_ind P step c)
                                    (all k')
                    end) l0
             end
         end)
  end.
Set Implicit Arguments.

(** Every array of children in the tree is ordered by [R]: each earlier
    element is related to each later one. *)
Definition levels_ordered
  (R : HtmlTool.JSONFileInfo -> HtmlTool.JSONFileInfo -> Prop)
  (j : HtmlTool.JSONFileInfo) : Prop :=
  Forall (fun n =>
            forall l, HtmlTool.json_children n = Some l -> StronglySorted R l)
         (json_nodes j).

(** The order of sizes on the page: with [ascending] the sizes descend,
    without it they ascend. *)
Definition page_size_order (ascending : bool)
  (earlier later : HtmlTool.JSONFileInfo) : Prop :=
  if ascending
  then Page.js_number (HtmlTool.json_size later)
       <= Page.js_number (HtmlTool.json_size earlier)
  else Page.js_number (HtmlTool.json_size earlier)
       <= Page.js_number (HtmlTool.json_size later).

(** [localeCompare] of the lower-cased names of two nodes. *)
Definition compare_names {host : JsHost} (a b : HtmlTool.JSONFileInfo) : Z :=
  String_localeCompare (String_toLowerCase (HtmlTool.json_name a))
                       (String_toLowerCase (HtmlTool.json_name b)).

(** The order of names on the page: no file before a directory, and
    within a kind the later name does not compare below the earlier one,
    or with [ascending] off not above it. *)
Definition page_name_order {host : JsHost} (ascending : bool)
  (earlier later : HtmlTool.JSONFileInfo) : Prop :=
  (HtmlTool.json_isDir later = true -> HtmlTool.json_isDir earlier = true) /\
  (HtmlTool.json_isDir earlier = HtmlTool.json_isDir later ->
   if ascending then 0 <= compare_names later earlier
   else compare_names later earlier <= 0).

(** *** The console walk, entry by entry *)

(** The nodes that the walk of the console-only tool makes of an entry
    [e] of the directory at [dirPath] and of the entries below it, each
    paired with the entry it was made of, parents before children.  An
    entry whose [Info()] fails leaves no node; the walk goes below an
    entry only where it is a directory by its own record, [os.Stat] says
    so too, and the listing succeeds. *)
Fixpoint console_made {lib : GoLib} (dirPath : string) (e : FsEntry)
  : list (FsEntry * FileInfo) :=
  match e with
  | mkFsEntry name isDir _ stat readdir =>
      match console_entry dirPath e with
      | None => []
      | Some c =>
          (e, c) ::
          (if isDir then
             match stat, readdir with
             | Some (true, _), Some entries =>
                 flat_map (console_made (filepath_Join dirPath name)) entries
             | _, _ => []
             end
           else [])
      end
  end.

(** The same for everything below the root [fs] of a walk of [rootPath]:
    the root itself is made of [os.Stat], not of an entry. *)
Definition console_made_below {lib : GoLib} (fs : FsEntry)
  (rootPath : string) : list (FsEntry * FileInfo) :=
  match entStat fs, entReadDir fs with
  | Some (true, _), Some entries => flat_map (console_made rootPath) entries
  | _, _ => []
  end.

(** What the node [d] made of the entry [e] carries: the name and the kind
    of the record; for a directory that can be walked, the sum of the
    sizes of its children, which is 0 when it is empty; for a directory
    whose stat or listing fails, and for a file, no children and the size
    of the record. *)
Definition console_node_of (made : FsEntry * FileInfo) : Prop :=
  let (e, d) := made in
  Name d = entName e /\
  IsDir d = entIsDir e /\
  (entIsDir e = true -> unreadable e = false -> size_is_sum d) /\
  (entIsDir e = true -> unreadable e = true ->
   Children d = [] /\ entInfo e = Some (Size d)) /\
  (entIsDir e = false -> Children d = [] /\ entInfo e = Some (Size d)).

(** A directory with an empty subdirectory and one that cannot be
    listed. *)
Definition sparse_fs : FsEntry :=
  mkFsEntry "work" true (Some 4096) (Some (true, 4096))
    (Some [ mkFsEntry "empty" true (Some 4096) (Some (true, 4096)) (Some []);
            mkFsEntry "locked" true (Some 4096) (Some (true, 4096)) None ]).

(** *** Orders under the reverse flag *)

(** [a] stands before [b] in a list sorted by size with the reverse flag:
    sizes ascending. *)
Definition reverse_size_order (a b : FileInfo) : Prop := Size a <= Size b.

(** The same where directories come first: no file before a directory,
    and sizes ascending within each kind. *)
Definition kind_then_reverse_size_order (a b : FileInfo) : Prop :=
  (IsDir b = true -> IsDir a = true) /\
  (IsDir a = IsDir b -> Size a <= Size b).

(** The directory has at most six entries, which is where every release
    of Go sorts by insertion alone. *)
Definition short (d : FileInfo) : Prop :=
  (List.length (Children d) <= 6)%nat.

(** The field tuple [fa] stands somewhere before the field tuple [fb]
    among the fields of the nodes of [l]. *)
Definition fields_stand_before (l : list FileInfo)
  (fa fb : string * Z * bool * string) : Prop :=
  exists l1 l2 l3, map fields l = (l1 ++ fa :: l2 ++ fb :: l3)%list.

(** The sort key of the two nodes differs. *)
Definition keys_differ {lib : GoLib} (sortType : SortType)
  (fa fb : string * Z * bool * string) : Prop :=
  match sortType with
  | SortBySize => snd (fst (fst fa)) <> snd (fst (fst fb))
  | SortByName =>
      strings_ToLower (fst (fst (fst fa))) <> strings_ToLower (fst (fst (fst fb)))
  end.

(** The two nodes are of one kind. *)
Definition same_kind (fa fb : string * Z * bool * string) : Prop :=
  snd (fst fa) = snd (fst fb).

(** The reading of the reverse flag in spec.md, on the fields of the
    nodes: with the flag, [fa] comes before [fb] exactly when, without
    it, [fb] comes before [fa]. *)
Definition reverse_mirrors_fields (reversed forward : list FileInfo)
  (fa fb : string * Z * bool * string) : Prop :=
  fields_stand_before reversed fa fb <-> fields_stand_before forward fb fa.

(* ================================================================== *)
(** * Properties *)

Local Open Scope list_scope.

(** ** The laws of [GoLib] hold of insertion sort *)

Section InsertionSort.
Variables A B : Type.
Variable less : A -> A -> bool.

Lemma sink_perm (x : A) (r : list A) : Permutation (x :: r) (sink less x r).
Proof.
  induction r as [|p ps IH]; simpl; [reflexivity|].
  destruct (less x p); [|reflexivity].
  rewrite perm_swap. now apply perm_skip.
Qed.

Lemma insertion_loop_perm (l r : list A) :
  Permutation (rev r ++ l)
              (rev (fold_left (fun acc x => sink less x acc) l r)).
Proof.
  revert r; induction l as [|x l IH]; intro r; simpl.
  - now rewrite app_nil_r.
  - rewrite <- IH. rewrite <- (Permutation_rev (sink less x r)).
    rewrite <- sink_perm. rewrite <- Permutation_rev.
    rewrite <- Permutation_middle. reflexivity.
Qed.

Lemma insertionSort_perm (l : list A) :
  Permutation l (insertionSort_func less l).
Proof. exact (insertion_loop_perm l []). Qed.

Hypothesis SW : StrictWeak less.

Lemma sink_sorted (x : A) (r : list A) :
  RSorted less r -> RSorted less (sink less x r).
Proof.
  unfold RSorted.
  induction r as [|p ps IH]; simpl; intro Hs.
  - repeat constructor.
  - apply StronglySorted_inv in Hs. destruct Hs as [Hps Hall].
    destruct (less x p) eqn:Hxp.
    + constructor; [now apply IH|].
      rewrite Forall_forall in *. intros y Hy.
      apply (Permutation_in _ (Permutation_sym (sink_perm x ps))) in Hy.
      destruct Hy as [<-|Hy]; [now apply (sw_asym SW)|now apply Hall].
    + constructor; [now constructor|].
      constructor; [assumption|].
      rewrite Forall_forall in *. intros y Hy.
      apply (sw_negtrans SW) with p; [assumption|now apply Hall].
Qed.

Lemma insertion_loop_sorted (l r : list A) :
  RSorted less r ->
  RSorted less (fold_left (fun acc x => sink less x acc) l r).
Proof.
  revert r; induction l as [|x l IH]; intros r Hr; simpl; [assumption|].
  apply IH. now apply sink_sorted.
Qed.

Lemma StronglySorted_snoc (R : A -> A -> Prop) (l : list A) (x : A) :
  StronglySorted R l -> Forall (fun y => R y x) l ->
  StronglySorted R (l ++ [x]).
Proof.
  induction l as [|y l IH]; simpl; intros Hs Hx.
  - repeat constructor.
  - apply StronglySorted_inv in Hs. destruct Hs as [Hl Hy].
    apply Forall_inv_tail in Hx as Hx'. apply Forall_inv in Hx.
    constructor; [now apply IH|].
    apply Forall_app. split; [assumption|now constructor].
Qed.

Lemma RSorted_rev (r : list A) : RSorted less r -> SortedBy less (rev r).
Proof.
  unfold RSorted, SortedBy.
  induction r as [|p ps IH]; simpl; intro Hs; [constructor|].
  apply StronglySorted_inv in Hs. destruct Hs as [Hps Hall].
  apply StronglySorted_snoc; [now apply IH|now apply Forall_rev].
Qed.

Lemma insertionSort_sorted (l : list A) :
  SortedBy less (insertionSort_func less l).
Proof.
  apply RSorted_rev, insertion_loop_sorted. constructor.
Qed.
End InsertionSort.

Section InsertionSortTotal.
Variable A : Type.
Variable less : A -> A -> bool.
Hypothesis TP : TotalPreorder less.

Lemma sink_weakly_sorted (x : A) (r : list A) :
  StronglySorted (fun p q => less q p = true) r ->
  StronglySorted (fun p q => less q p = true) (sink less x r).
Proof.
  induction r as [|p ps IH]; simpl; intro Hs.
  - repeat constructor.
  - apply StronglySorted_inv in Hs. destruct Hs as [Hps Hall].
    destruct (less x p) eqn:Hxp.
    + constructor; [now apply IH|].
      rewrite Forall_forall in *. intros y Hy.
      apply (Permutation_in _ (Permutation_sym (sink_perm less x ps))) in Hy.
      destruct Hy as [<-|Hy]; [exact Hxp|now apply Hall].
    + constructor; [now constructor|].
      constructor; [now apply (tp_total TP)|].
      rewrite Forall_forall in *. intros y Hy.
      apply (tp_trans TP) with p; [now apply Hall|now apply (tp_total TP)].
Qed.

Lemma insertionSort_weakly_sorted (l : list A) :
  WeaklySortedBy less (insertionSort_func less l).
Proof.
  unfold insertionSort_func, WeaklySortedBy.
  assert (H : forall r,
             StronglySorted (fun p q => less q p = true) r ->
             StronglySorted (fun p q => less q p = true)
               (fold_left (fun acc x => sink less x acc) l r)).
  { induction l as [|x l IH]; intros r Hr; simpl; [assumption|].
    apply IH. now apply sink_weakly_sorted. }
  specialize (H [] (SSorted_nil _)).
  induction (fold_left (fun acc x => sink less x acc) l []) as [|p ps IH];
    simpl; [constructor|].
  apply StronglySorted_inv in H. destruct H as [Hps Hall].
  apply StronglySorted_snoc; [now apply IH|now apply Forall_rev].
Qed.
End InsertionSortTotal.

Section InsertionSortNatural.
Variables A B : Type.
Variable f : A -> B.
Variable lessA : A -> A -> bool.
Variable lessB : B -> B -> bool.

Lemma sink_natural (x : A) (r : list A) :
  (forall p, In p r -> lessB (f x) (f p) = lessA x p) ->
  sink lessB (f x) (map f r) = map f (sink lessA x r).
Proof.
  induction r as [|p ps IH]; simpl; intro H; [reflexivity|].
  rewrite (H p (or_introl eq_refl)).
  destruct (lessA x p); [|reflexivity].
  simpl. f_equal. apply IH. intros q Hq. apply H. now right.
Qed.

Lemma insertion_loop_natural (l r : list A) :
  (forall a b, In a (r ++ l) -> In b (r ++ l) ->
               lessB (f a) (f b) = lessA a b) ->
  fold_left (fun acc x => sink lessB x acc) (map f l) (map f r)
  = map f (fold_left (fun acc x => sink lessA x acc) l r).
Proof.
  revert r; induction l as [|x l IH]; intros r H; simpl; [reflexivity|].
  rewrite sink_natural.
  - apply IH. intros a b Ha Hb.
    assert (Hin : forall c, In c (sink lessA x r ++ l) ->
                            In c (r ++ x :: l)).
    { intros c Hc. apply in_app_or in Hc. apply in_or_app.
      destruct Hc as [Hc|Hc]; [|right; now right].
      apply (Permutation_in _ (Permutation_sym (sink_perm lessA x r))) in Hc.
      destruct Hc as [<-|Hc]; [right; now left|now left]. }
    apply H; now apply Hin.
  - intros p Hp. apply H; apply in_or_app; [right; now left|now left].
Qed.

Lemma insertionSort_natural (l : list A) :
  (forall a b, In a l -> In b l -> lessB (f a) (f b) = lessA a b) ->
  insertionSort_func lessB (map f l) = map f (insertionSort_func lessA l).
Proof.
  intro H. unfold insertionSort_func.
  rewrite map_rev. f_equal. exact (insertion_loop_natural l [] H).
Qed.
End InsertionSortNatural.

(** ** An executable instance of [GoLib] *)

#[refine] Instance reference_lib : GoLib := {|
  sort_Slice := @insertionSort_func;
  strings_ToLower := ascii_ToLower;
  filepath_Abs := unix_Abs;
  filepath_Base := last_element EmptyString;
  filepath_Join := unix_Join
|}.
Proof.
  - exact insertionSort_perm.
  - intros A less l SW. now apply insertionSort_sorted.
  - exact insertionSort_natural.
  - reflexivity.
  - reflexivity.
Defined.

(* ================================================================== *)
(** ** Byte-wise string order *)

Lemma string_ltb_asym (a b : string) :
  String.ltb a b = true -> String.ltb b a = false.
Proof.
  unfold String.ltb. rewrite (String.compare_antisym b a).
  destruct (String.compare a b); simpl; congruence.
Qed.

Lemma string_compare_not_lt_trans (a b c : string) :
  String.compare a b <> Lt -> String.compare b c <> Lt ->
  String.compare a c <> Lt.
Proof.
  revert b c. induction a as [|x a IH]; intros [|y b] [|z c]; simpl;
    try congruence.
  unfold Ascii.compare.
  destruct (N.compare_spec (N_of_ascii x) (N_of_ascii y)) as [Exy|Lxy|Gxy];
    destruct (N.compare_spec (N_of_ascii y) (N_of_ascii z)) as [Eyz|Lyz|Gyz];
    destruct (N.compare_spec (N_of_ascii x) (N_of_ascii z)) as [Exz|Lxz|Gxz];
    try congruence; try lia.
  apply IH.
Qed.

Lemma string_ltb_negtrans (a b c : string) :
  String.ltb a b = false -> String.ltb b c = false -> String.ltb a c = false.
Proof.
  unfold String.ltb. intros Hab Hbc.
  assert (H : String.compare a c <> Lt).
  { apply string_compare_not_lt_trans with b.
    - destruct (String.compare a b); congruence.
    - destruct (String.compare b c); congruence. }
  destruct (String.compare a c); congruence.
Qed.

Lemma string_not_ltb_leb (a b : string) :
  String.ltb b a = false -> String.leb a b = true.
Proof.
  unfold String.ltb, String.leb. rewrite (String.compare_antisym a b).
  destruct (String.compare b a); simpl; congruence.
Qed.

(** Distinct strings are ordered one way or the other. *)
Lemma string_ltb_total (a b : string) :
  a <> b -> String.ltb b a = negb (String.ltb a b).
Proof.
  intro Hne. unfold String.ltb. rewrite (String.compare_antisym b a).
  destruct (String.compare a b) eqn:E; simpl; try reflexivity.
  apply String.compare_eq_iff in E. contradiction.
Qed.

(** ** An executable instance of [JsHost] *)

Lemma string_compare_refl (a : string) : String.compare a a = Eq.
Proof.
  pose proof (String.compare_antisym a a) as H.
  destruct (String.compare a a); simpl in H; congruence.
Qed.

Lemma string_compare_lt_trans (a b c : string) :
  String.compare a b = Lt -> String.compare b c = Lt ->
  String.compare a c = Lt.
Proof.
  intros Hab Hbc.
  assert (Hca : String.compare c a <> Lt).
  { apply string_compare_not_lt_trans with b.
    - rewrite (String.compare_antisym c b), Hbc. discriminate.
    - rewrite (String.compare_antisym b a), Hab. discriminate. }
  rewrite (String.compare_antisym c a) in Hca.
  destruct (String.compare a c) eqn:E; simpl in Hca; try congruence.
  apply String.compare_eq_iff in E. subst c.
  rewrite (String.compare_antisym b a), Hab in Hbc. discriminate Hbc.
Qed.

Lemma bytewise_localeCompare_consistent : Consistent bytewise_localeCompare.
Proof.
  unfold bytewise_localeCompare. split.
  - intro a. now rewrite string_compare_refl.
  - intros a b. rewrite (String.compare_antisym a b).
    destruct (String.compare b a); simpl; intro H; try discriminate H.
    reflexivity.
  - intros a b. rewrite (String.compare_antisym a b).
    destruct (String.compare b a); simpl; lia.
  - intros a b c.
    destruct (String.compare a b) eqn:Eab; try discriminate.
    destruct (String.compare b c) eqn:Ebc; try discriminate.
    apply String.compare_eq_iff in Eab, Ebc. subst.
    now rewrite string_compare_refl.
  - intros a b c.
    destruct (String.compare a b) eqn:Eab; try lia.
    destruct (String.compare b c) eqn:Ebc; try lia.
    now rewrite (string_compare_lt_trans _ _ _ Eab Ebc).
  - intros a b c.
    destruct (String.compare a b) eqn:Eab; try lia.
    destruct (String.compare b c) eqn:Ebc; try lia.
    intros _ _.
    assert (Hcb : String.compare c b = Lt)
      by (rewrite (String.compare_antisym c b), Ebc; reflexivity).
    assert (Hba : String.compare b a = Lt)
      by (rewrite (String.compare_antisym b a), Eab; reflexivity).
    rewrite (String.compare_antisym a c).
    now rewrite (string_compare_lt_trans _ _ _ Hcb Hba).
Qed.

(** A consistent comparison gives a strict weak ordering. *)
Lemma Consistent_StrictWeak (A : Type) (cmp : A -> A -> Z) :
  Consistent cmp -> StrictWeak (fun x y => (cmp x y <? 0)%Z).
Proof.
  intros [R S N TE TL TG]. split.
  - intros a b. rewrite Z.ltb_lt, Z.ltb_ge. intro H. apply N in H. lia.
  - intros a b c. rewrite !Z.ltb_ge. intros Hab Hbc.
    destruct (Z.lt_trichotomy (cmp a c) 0) as [L|[E|G]]; [|lia|lia].
    exfalso.
    destruct (Z.eq_dec (cmp a b) 0) as [Eab|Nab].
    + destruct (Z.eq_dec (cmp b c) 0) as [Ebc|Nbc].
      * rewrite (TE _ _ _ Eab Ebc) in L. lia.
      * assert (Lcb : cmp c b < 0) by (apply N; lia).
        pose proof (TL _ _ _ L Lcb). lia.
    + assert (Lba : cmp b a < 0) by (apply N; lia).
      pose proof (TL _ _ _ Lba L). lia.
Qed.

#[refine] Instance reference_host : JsHost := {|
  Array_sort := fun A cmp => insertionSort_func (fun x y => (cmp x y <? 0)%Z);
  String_toLowerCase := ascii_ToLower;
  String_localeCompare := bytewise_localeCompare
|}.
Proof.
  - intros A cmp l. apply insertionSort_perm.
  - intros A cmp l C. unfold ComparedSorted.
    pose proof (insertionSort_sorted (Consistent_StrictWeak C) l) as H.
    unfold SortedBy in H.
    induction H as [|x k Hs IH Hall]; constructor; [exact IH|].
    revert Hall. apply Forall_impl. intro y. now rewrite Z.ltb_ge.
  - exact bytewise_localeCompare_consistent.
Defined.

(* ================================================================== *)
(** ** Sorting: the recursion, for any comparator *)

Section SortLevels.
Context {lib : GoLib}.
Variable cmp : FileInfo -> FileInfo -> bool.

Lemma sort_levels_unfold (t : FileInfo) :
  sort_levels cmp t =
  match Children t with
  | [] => t
  | _ :: _ =>
      mkFileInfo (Name t) (Size t) (IsDir t) (Path t)
                 (sort_Slice cmp (map (descend cmp) (Children t)))
  end.
Proof. destruct t as [n s d p [|c cs]]; reflexivity. Qed.

Lemma sort_levels_fields (t : FileInfo) :
  fields (sort_levels cmp t) = fields t.
Proof. destruct t as [n s d p [|c cs]]; reflexivity. Qed.

Lemma descend_fields (c : FileInfo) : fields (descend cmp c) = fields c.
Proof.
  unfold descend. destruct (IsDir c); [apply sort_levels_fields|reflexivity].
Qed.

Lemma sort_levels_children (t : FileInfo) :
  Children (sort_levels cmp t)
  = sort_Slice cmp (map (descend cmp) (Children t)).
Proof.
  rewrite sort_levels_unfold. destruct t as [n s d p [|c cs]]; simpl.
  - symmetry. apply Permutation_nil. apply (sort_Slice_perm cmp []).
  - reflexivity.
Qed.

Lemma reordered_refl (t : FileInfo) : reordered t t.
Proof.
  induction t as [n s d p cs IH] using FileInfo_tree_ind.
  apply reordered_node with (below := cs); [|reflexivity].
  induction IH; constructor; assumption.
Qed.

Lemma sort_levels_reordered (t : FileInfo) : reordered t (sort_levels cmp t).
Proof.
  induction t as [n s d p cs IH] using FileInfo_tree_ind.
  destruct cs as [|c cs]; [apply reordered_refl|].
  simpl. apply reordered_node with (below := map (descend cmp) (c :: cs)).
  - induction IH as [|x l Hx Hl IHl]; simpl; constructor.
    + unfold descend. destruct (IsDir x); [exact Hx|apply reordered_refl].
    + exact IHl.
  - apply sort_Slice_perm.
Qed.

(** The tree keeps its nodes. *)
Lemma sort_levels_nodes (t : FileInfo) :
  Permutation (map fields (nodes t)) (map fields (nodes (sort_levels cmp t))).
Proof.
  induction t as [n s d p cs IH] using FileInfo_tree_ind.
  destruct cs as [|c cs]; [reflexivity|].
  change (sort_levels cmp (mkFileInfo n s d p (c :: cs)))
    with (mkFileInfo n s d p
            (sort_Slice cmp (map (descend cmp) (c :: cs)))).
  cbn [nodes map]. apply perm_skip.
  transitivity (map fields (flat_map nodes (map (descend cmp) (c :: cs)))).
  - clear - IH. induction IH as [|x l Hx Hl IHl]; [reflexivity|].
    cbn [map flat_map]. rewrite !map_app.
    apply Permutation_app; [|exact IHl].
    unfold descend. destruct (IsDir x); [exact Hx|reflexivity].
  - apply Permutation_map, Permutation_flat_map, sort_Slice_perm.
Qed.

Lemma files_are_leaves_child (t c : FileInfo) :
  files_are_leaves t -> In c (Children t) -> files_are_leaves c.
Proof.
  unfold files_are_leaves. destruct t as [n s d p cs]. cbn [nodes Children].
  intros H Hc. apply Forall_inv_tail in H.
  rewrite Forall_flat_map, Forall_forall in H. now apply H.
Qed.

(** In such a tree [directories] finds every directory. *)
Lemma directories_complete (t : FileInfo) :
  files_are_leaves t ->
  forall d, In d (nodes t) -> IsDir d = true -> In d (directories t).
Proof.
  induction t as [n s d0 p cs IH] using FileInfo_tree_ind.
  intros FL d Hd Hdir. cbn [nodes] in Hd. cbn [directories].
  destruct Hd as [<-|Hd]; [now left|]. right.
  apply in_flat_map in Hd. destruct Hd as (c & Hc & Hd).
  apply in_flat_map. exists c. split; [assumption|].
  assert (FLc : files_are_leaves c)
    by (eapply files_are_leaves_child; [exact FL|exact Hc]).
  rewrite Forall_forall in IH.
  destruct (IsDir c) eqn:Ec.
  - now apply (IH c Hc FLc).
  - assert (Hnil : Children c = []).
    { unfold files_are_leaves in FLc. destruct c as [n' s' d' p' cs'].
      cbn [nodes] in FLc. apply Forall_inv in FLc. now apply FLc. }
    destruct c as [n' s' d' p' cs']. cbn [Children] in Hnil. subst cs'.
    cbn [nodes flat_map] in Hd. destruct Hd as [<-|[]].
    cbn [IsDir] in *. congruence.
Qed.

Lemma sort_levels_files_are_leaves (t : FileInfo) :
  files_are_leaves t -> files_are_leaves (sort_levels cmp t).
Proof.
  induction t as [n s d p cs IH] using FileInfo_tree_ind.
  intro FL. destruct cs as [|c cs]; [exact FL|].
  change (sort_levels cmp (mkFileInfo n s d p (c :: cs)))
    with (mkFileInfo n s d p
            (sort_Slice cmp (map (descend cmp) (c :: cs)))).
  unfold files_are_leaves. cbn [nodes]. constructor.
  - cbn [IsDir Children]. intro Hd. exfalso.
    unfold files_are_leaves in FL. cbn [nodes] in FL.
    apply Forall_inv in FL. cbn [IsDir Children] in FL.
    specialize (FL Hd). discriminate FL.
  - apply Forall_flat_map. rewrite Forall_forall. intros c' Hc'.
    apply (Permutation_in _ (Permutation_sym (sort_Slice_perm cmp _))) in Hc'.
    apply in_map_iff in Hc'. destruct Hc' as (x & <- & Hx).
    assert (FLx : files_are_leaves x)
      by (eapply files_are_leaves_child; [exact FL|exact Hx]).
    rewrite Forall_forall in IH. unfold descend.
    destruct (IsDir x); [now apply (IH x Hx)|exact FLx].
Qed.

(** Every sorted level satisfies the contract of [sort.Slice]. *)
Lemma sort_levels_sorted (t : FileInfo) :
  StrictWeak cmp ->
  Forall (fun d => SortedBy cmp (Children d)) (directories (sort_levels cmp t)).
Proof.
  intro SW.
  induction t as [n s d p cs IH] using FileInfo_tree_ind.
  remember (sort_levels cmp (mkFileInfo n s d p cs)) as t' eqn:Et.
  assert (Hc : Children t' = sort_Slice cmp (map (descend cmp) cs))
    by (subst t'; apply (sort_levels_children (mkFileInfo n s d p cs))).
  destruct t' as [n' s' d' p' cs']. simpl in Hc. simpl.
  constructor.
  - simpl. rewrite Hc. now apply sort_Slice_sorted.
  - apply Forall_flat_map. rewrite Forall_forall. intros c' Hin.
    rewrite Hc in Hin.
    apply (Permutation_in _ (Permutation_sym (sort_Slice_perm cmp _))) in Hin.
    apply in_map_iff in Hin. destruct Hin as [c [<- Hc_in]].
    rewrite Forall_forall in IH. specialize (IH c Hc_in).
    assert (Hd : IsDir (descend cmp c) = IsDir c).
    { pose proof (descend_fields c) as F. unfold fields in F. congruence. }
    rewrite Hd. unfold descend.
    destruct (IsDir c); [exact IH|constructor].
Qed.

(** In a tree whose files are leaves, that is every directory. *)
Lemma sort_levels_sorted_all (t : FileInfo) :
  StrictWeak cmp -> files_are_leaves t ->
  forall d, In d (nodes (sort_levels cmp t)) -> IsDir d = true ->
            SortedBy cmp (Children d).
Proof.
  intros SW FL d Hd Hdir.
  pose proof (sort_levels_sorted t SW) as H. rewrite Forall_forall in H.
  apply H. apply directories_complete; try assumption.
  now apply sort_levels_files_are_leaves.
Qed.

(** With a negated comparator the contract of [sort.Slice] is silent;
    directories of at most six entries are sorted all the same. *)
Lemma sort_levels_small_sorted (t : FileInfo) :
  TotalPreorder cmp -> small_directories t ->
  Forall (fun d => WeaklySortedBy cmp (Children d))
         (directories (sort_levels cmp t)).
Proof.
  intro TP.
  induction t as [n s d p cs IH] using FileInfo_tree_ind.
  intro Small. unfold small_directories in Small. cbn [nodes] in Small.
  apply Forall_cons_iff in Small. destruct Small as [Hlen Small].
  cbn [Children] in Hlen. rewrite Forall_flat_map, Forall_forall in Small.
  remember (sort_levels cmp (mkFileInfo n s d p cs)) as t' eqn:Et.
  assert (Hc : Children t' = sort_Slice cmp (map (descend cmp) cs))
    by (subst t'; apply (sort_levels_children (mkFileInfo n s d p cs))).
  destruct t' as [n' s' d' p' cs']. simpl in Hc. simpl.
  constructor.
  - simpl. rewrite Hc, sort_Slice_short by now rewrite length_map.
    now apply insertionSort_weakly_sorted.
  - apply Forall_flat_map. rewrite Forall_forall. intros c' Hin.
    rewrite Hc in Hin.
    apply (Permutation_in _ (Permutation_sym (sort_Slice_perm cmp _))) in Hin.
    apply in_map_iff in Hin. destruct Hin as [c [<- Hc_in]].
    rewrite Forall_forall in IH. specialize (IH c Hc_in (Small c Hc_in)).
    assert (Hd : IsDir (descend cmp c) = IsDir c).
    { pose proof (descend_fields c) as F. unfold fields in F. congruence. }
    rewrite Hd. unfold descend.
    destruct (IsDir c); [exact IH|constructor].
Qed.

Lemma fold_max_le (l : list FileInfo) (c : FileInfo) :
  In c l -> (height c <= fold_right Nat.max 0 (map height l))%nat.
Proof.
  induction l as [|x l IH]; simpl; [easy|].
  intros [->|H]; [lia|]. specialize (IH H). lia.
Qed.

Lemma sort_then_descend_eq (fuel : nat) :
  reads_keys_only cmp ->
  forall t, (height t <= fuel)%nat ->
            sort_then_descend cmp fuel t = sort_levels cmp t.
Proof.
  intro K. induction fuel as [|fuel IH]; intros t Ht.
  - destruct t; simpl in Ht; lia.
  - rewrite sort_levels_unfold. simpl.
    destruct (Children t) as [|c cs] eqn:Ecs; [reflexivity|].
    f_equal.
    set (g := fun child : FileInfo =>
                if IsDir child then sort_then_descend cmp fuel child
                else child).
    assert (Hg : forall x, In x (c :: cs) -> g x = descend cmp x).
    { intros x Hx. unfold g, descend. destruct (IsDir x); [|reflexivity].
      apply IH. destruct t as [n s d p cs0]. simpl in Ecs. subst cs0.
      simpl in Ht. pose proof (fold_max_le (c :: cs) x Hx). simpl in *. lia. }
    transitivity (map (descend cmp) (sort_Slice cmp (c :: cs))).
    + apply map_ext_in. intros x Hx. apply Hg.
      now apply (Permutation_in _ (Permutation_sym (sort_Slice_perm cmp _))).
    + symmetry. apply sort_Slice_natural. intros a b _ _.
      pose proof (descend_fields a) as Fa. pose proof (descend_fields b) as Fb.
      unfold fields in Fa, Fb. apply K; congruence.
Qed.
End SortLevels.

(* ================================================================== *)
(** ** Sorting: the two comparators *)

Section Comparators.
Context {lib : GoLib}.

Lemma HtmlTool_sortFileTree_levels (root : FileInfo) (st : SortType)
  (r : bool) :
  HtmlTool.sortFileTree root st r = sort_levels (HtmlTool.less st r) root.
Proof.
  induction root as [n s d p cs IH] using FileInfo_tree_ind.
  destruct cs as [|c cs]; [reflexivity|].
  simpl. do 2 f_equal.
  change (map (fun child => if IsDir child
                            then HtmlTool.sortFileTree child st r else child)
              (c :: cs)
          = map (descend (HtmlTool.less st r)) (c :: cs)).
  apply map_ext_in. intros x Hx. unfold descend.
  rewrite Forall_forall in IH. now rewrite (IH x Hx).
Qed.

Lemma ConsoleTool_sortFileTree_levels (root : FileInfo) (st : SortType)
  (r : bool) :
  ConsoleTool.sortFileTree root st r
  = sort_levels (ConsoleTool.less st r) root.
Proof.
  induction root as [n s d p cs IH] using FileInfo_tree_ind.
  destruct cs as [|c cs]; [reflexivity|].
  simpl. do 2 f_equal.
  change (map (fun child => if IsDir child
                            then ConsoleTool.sortFileTree child st r else child)
              (c :: cs)
          = map (descend (ConsoleTool.less st r)) (c :: cs)).
  apply map_ext_in. intros x Hx. unfold descend.
  rewrite Forall_forall in IH. now rewrite (IH x Hx).
Qed.

Lemma HtmlTool_less_keys (st : SortType) (r : bool) :
  reads_keys_only (HtmlTool.less st r).
Proof.
  intros a a' b b' Na Sa Da Nb Sb Db. unfold HtmlTool.less.
  now rewrite Na, Sa, Da, Nb, Sb, Db.
Qed.

Lemma ConsoleTool_less_keys (st : SortType) (r : bool) :
  reads_keys_only (ConsoleTool.less st r).
Proof.
  intros a a' b b' Na Sa Da Nb Sb Db. unfold ConsoleTool.less.
  now rewrite Na, Sa, Da, Nb, Sb, Db.
Qed.

(** With [SortByName] the two closures are the same function. *)
Lemma less_by_name_same (r : bool) (a b : FileInfo) :
  ConsoleTool.less SortByName r a b = HtmlTool.less SortByName r a b.
Proof. reflexivity. Qed.

Lemma HtmlTool_less_name_strict : StrictWeak (HtmlTool.less SortByName false).
Proof.
  split; unfold HtmlTool.less.
  - intros a b. destruct (IsDir a), (IsDir b); simpl; try congruence;
      apply string_ltb_asym.
  - intros a b c.
    destruct (IsDir a), (IsDir b), (IsDir c); simpl; try congruence;
      apply string_ltb_negtrans.
Qed.

Lemma HtmlTool_less_size_strict : StrictWeak (HtmlTool.less SortBySize false).
Proof.
  split; unfold HtmlTool.less; intros; rewrite ?Z.ltb_lt, ?Z.ltb_ge in *; lia.
Qed.

Lemma ConsoleTool_less_strict (st : SortType) :
  StrictWeak (ConsoleTool.less st false).
Proof.
  destruct st.
  - destruct HtmlTool_less_name_strict as [A N]. split; assumption.
  - split; unfold ConsoleTool.less.
    + intros a b. destruct (IsDir a), (IsDir b); simpl; try congruence;
        rewrite ?Z.ltb_lt, ?Z.ltb_ge; lia.
    + intros a b c.
      destruct (IsDir a), (IsDir b), (IsDir c); simpl; try congruence;
        rewrite ?Z.ltb_lt, ?Z.ltb_ge; lia.
Qed.

Lemma sorted_by_name_order (l : list FileInfo) :
  SortedBy (HtmlTool.less SortByName false) l -> ordered_by name_order l.
Proof.
  unfold SortedBy, ordered_by.
  induction 1 as [|x l Hs IH Hall]; constructor; [assumption|].
  revert Hall. apply Forall_impl. intros y. unfold HtmlTool.less, name_order.
  destruct (IsDir x), (IsDir y); simpl; intro H; split; intros;
    try congruence; now apply string_not_ltb_leb.
Qed.

Lemma sorted_by_size_order (l : list FileInfo) :
  SortedBy (HtmlTool.less SortBySize false) l -> ordered_by size_order l.
Proof.
  unfold SortedBy, ordered_by.
  induction 1 as [|x l Hs IH Hall]; constructor; [assumption|].
  revert Hall. apply Forall_impl. intros y. unfold HtmlTool.less, size_order.
  rewrite Z.ltb_ge. lia.
Qed.
Lemma sorted_by_kind_then_size_order (l : list FileInfo) :
  SortedBy (ConsoleTool.less SortBySize false) l ->
  ordered_by kind_then_size_order l.
Proof.
  unfold SortedBy, ordered_by.
  induction 1 as [|x l Hs IH Hall]; constructor; [assumption|].
  revert Hall. apply Forall_impl. intros y.
  unfold ConsoleTool.less, kind_then_size_order.
  destruct (IsDir x), (IsDir y); simpl; intro H; split; intros;
    try congruence; apply Z.ltb_ge in H; lia.
Qed.
Lemma HtmlTool_less_reverse_total (st : SortType) :
  TotalPreorder (HtmlTool.less st true).
Proof.
  destruct st; split; unfold HtmlTool.less.
  - intros a b. destruct (IsDir a), (IsDir b); simpl; try congruence;
      rewrite !negb_false_iff, !negb_true_iff; apply string_ltb_asym.
  - intros a b c.
    destruct (IsDir a), (IsDir b), (IsDir c); simpl; try congruence;
      rewrite !negb_true_iff; apply string_ltb_negtrans.
  - intros a b. rewrite negb_false_iff, negb_true_iff, Z.ltb_lt, Z.ltb_ge.
    lia.
  - intros a b c. rewrite !negb_true_iff, !Z.ltb_ge. lia.
Qed.

Lemma ConsoleTool_less_reverse_total (st : SortType) :
  TotalPreorder (ConsoleTool.less st true).
Proof.
  destruct st.
  - destruct (HtmlTool_less_reverse_total SortByName) as [T R].
    split; assumption.
  - split; unfold ConsoleTool.less.
    + intros a b. destruct (IsDir a), (IsDir b); simpl; try congruence;
        rewrite negb_false_iff, negb_true_iff, Z.ltb_lt, Z.ltb_ge; lia.
    + intros a b c.
      destruct (IsDir a), (IsDir b), (IsDir c); simpl; try congruence;
        rewrite !negb_true_iff, !Z.ltb_ge; lia.
Qed.

Lemma weakly_sorted_reverse_name_order (l : list FileInfo) :
  WeaklySortedBy (HtmlTool.less SortByName true) l ->
  ordered_by reverse_name_order l.
Proof.
  unfold WeaklySortedBy, ordered_by.
  induction 1 as [|x l Hs IH Hall]; constructor; [assumption|].
  revert Hall. apply Forall_impl. intros y.
  unfold HtmlTool.less, reverse_name_order.
  destruct (IsDir x), (IsDir y); simpl; intro H; split; intros;
    try congruence; apply string_not_ltb_leb; now apply negb_true_iff.
Qed.
End Comparators.

(* ================================================================== *)
(** ** Building the tree *)

Lemma wrap64_id (z : Z) : in_int64 z -> wrap64 z = z.
Proof.
  unfold in_int64, int64_min, int64_max, wrap64. intro H.
  rewrite Z.mod_small; lia.
Qed.

Lemma add64_wrap64 (a b : Z) : add64 (wrap64 a) b = wrap64 (a + b).
Proof.
  unfold add64, wrap64. f_equal.
  replace ((a + 2 ^ 63) mod 2 ^ 64 - 2 ^ 63 + b + 2 ^ 63)
    with ((a + 2 ^ 63) mod 2 ^ 64 + b) by lia.
  rewrite Z.add_mod_idemp_l by lia. f_equal. lia.
Qed.

Lemma fold_add64_wrap (zs : list Z) (a : Z) :
  fold_left add64 zs (wrap64 a) = wrap64 (a + Zsum zs).
Proof.
  revert a. induction zs as [|z zs IH]; intro a; simpl.
  - f_equal. lia.
  - rewrite add64_wrap64, IH. f_equal. lia.
Qed.

(** The int64 sum is the exact sum wrapped once. *)
Lemma sum64_wrap (zs : list Z) : sum64 zs = wrap64 (Zsum zs).
Proof. exact (fold_add64_wrap zs 0). Qed.

Lemma sum64_exact (zs : list Z) : in_int64 (Zsum zs) -> sum64 zs = Zsum zs.
Proof. intro H. rewrite sum64_wrap. now apply wrap64_id. Qed.

Section Walk.
Variable build : FsEntry -> option FileInfo.

(** The loop over the entries, in one piece. *)
Lemma walk_fold (entries : list FsEntry) (cs : list FileInfo) (total : Z) :
  fold_left (fun acc entry => HtmlTool.add_child acc (build entry))
            entries (cs, total)
  = (cs ++ successes build entries,
     fold_left add64 (map Size (successes build entries)) total).
Proof.
  revert cs total. induction entries as [|e entries IH]; intros cs total.
  - simpl. now rewrite app_nil_r.
  - cbn [fold_left]. unfold successes. cbn [flat_map].
    fold (successes build entries).
    destruct (build e) as [c|]; cbn [HtmlTool.add_child fst snd].
    + rewrite IH. rewrite <- app_assoc. cbn [app map fold_left].
      reflexivity.
    + rewrite IH. reflexivity.
Qed.

Lemma in_successes (entries : list FsEntry) (c : FileInfo) :
  In c (successes build entries) ->
  exists e, In e entries /\ build e = Some c.
Proof.
  unfold successes. rewrite in_flat_map. intros (e & He & Hc).
  exists e. split; [assumption|].
  destruct (build e) as [c'|]; [|contradiction].
  destruct Hc as [->|[]]. reflexivity.
Qed.

(** The successes are the results of the entries that succeed, one for
    one and in order. *)
Lemma successes_filter (keep : FsEntry -> bool) (entries : list FsEntry) :
  (forall e, In e entries -> keep e = true <-> build e <> None) ->
  Forall2 (fun e c => build e = Some c)
          (filter keep entries) (successes build entries).
Proof.
  induction entries as [|e entries IH]; intro H; simpl; [constructor|].
  assert (He := H e (or_introl eq_refl)).
  assert (IH' := IH (fun e' He' => H e' (or_intror He'))).
  destruct (build e) as [c|] eqn:Eb.
  - destruct (keep e); [|destruct He as [_ He]; now discriminate He].
    now constructor.
  - destruct (keep e); [destruct He as [He _]; now elim He|exact IH'].
Qed.
End Walk.

Section HtmlBuild.
Context {lib : GoLib}.

Lemma HtmlTool_build_unfold (fs : FsEntry) (node : FileInfo) :
  HtmlTool.buildFileTreeRecursive fs node =
  match entStat fs with
  | None => None
  | Some (isDir, size) =>
      if isDir then
        match entReadDir fs with
        | None => None
        | Some entries =>
            let built :=
              successes (fun e => HtmlTool.buildFileTreeRecursive
                                    e (child_node node e)) entries in
            Some (mkFileInfo (Name node)
                             (fold_left add64 (map Size built) 0)
                             true (Path node) (Children node ++ built))
        end
      else Some (mkFileInfo (Name node) size false (Path node)
                            (Children node))
  end.
Proof.
  destruct fs as [n d i [[[|] size]|] [entries|]]; try reflexivity.
  cbn [HtmlTool.buildFileTreeRecursive entStat entReadDir].
  change (fun acc entry =>
            HtmlTool.add_child acc
              (HtmlTool.buildFileTreeRecursive entry
                 (mkFileInfo (entName entry) 0 false
                    (filepath_Join (Path node) (entName entry)) [])))
    with (fun acc entry =>
            HtmlTool.add_child acc
              ((fun e => HtmlTool.buildFileTreeRecursive e (child_node node e))
                 entry)).
  rewrite walk_fold. reflexivity.
Qed.

(** The recursive call fails exactly on an entry whose stat or readdir
    fails. *)
Lemma HtmlTool_build_fails_iff (fs : FsEntry) (node : FileInfo) :
  HtmlTool.buildFileTreeRecursive fs node = None <-> unreadable fs = true.
Proof.
  rewrite HtmlTool_build_unfold. unfold unreadable.
  destruct (entStat fs) as [[[|] size]|]; [|easy|easy].
  destruct (entReadDir fs); easy.
Qed.

Lemma HtmlTool_build_name (fs : FsEntry) (node t : FileInfo) :
  HtmlTool.buildFileTreeRecursive fs node = Some t ->
  Name t = Name node /\ Path t = Path node.
Proof.
  rewrite HtmlTool_build_unfold.
  destruct (entStat fs) as [[[|] size]|]; [| |easy].
  - destruct (entReadDir fs); [|easy]. intros [= <-]. now split.
  - intros [= <-]. now split.
Qed.

Lemma HtmlTool_build_sizes (fs : FsEntry) :
  forall node t,
    Children node = [] ->
    HtmlTool.buildFileTreeRecursive fs node = Some t ->
    Forall size_is_sum (nodes t).
Proof.
  induction fs as [n d i s r IH] using FsEntry_tree_ind.
  intros node t Hnil. rewrite HtmlTool_build_unfold.
  cbn [entStat entReadDir]. rewrite Hnil.
  destruct s as [[[|] size]|]; [| |easy].
  - destruct r as [entries|]; [|easy]. cbn zeta. intros [= <-].
    cbn [nodes app]. constructor.
    + intros _. cbn [Size Children]. split.
      * reflexivity.
      * apply sum64_exact.
    + apply Forall_flat_map. rewrite Forall_forall. intros c Hc.
      apply in_successes in Hc. destruct Hc as (e & He & Hb).
      specialize (IH entries eq_refl). rewrite Forall_forall in IH.
      now apply (IH e He (child_node node e) c).
  - intros [= <-]. cbn [nodes flat_map]. constructor; [|constructor].
    intro H. discriminate H.
Qed.
Lemma HtmlTool_build_leaves (fs : FsEntry) :
  forall node t,
    Children node = [] ->
    HtmlTool.buildFileTreeRecursive fs node = Some t ->
    files_are_leaves t.
Proof.
  induction fs as [n d i s r IH] using FsEntry_tree_ind.
  intros node t Hnil. rewrite HtmlTool_build_unfold.
  cbn [entStat entReadDir]. rewrite Hnil. unfold files_are_leaves.
  destruct s as [[[|] size]|]; [| |easy].
  - destruct r as [entries|]; [|easy]. cbn zeta. intros [= <-].
    cbn [nodes app]. constructor; [intro H; discriminate H|].
    apply Forall_flat_map. rewrite Forall_forall. intros c Hc.
    apply in_successes in Hc. destruct Hc as (e & He & Hb).
    specialize (IH entries eq_refl). rewrite Forall_forall in IH.
    now apply (IH e He (child_node node e) c).
  - intros [= <-]. cbn [nodes flat_map]. constructor; [|constructor].
    reflexivity.
Qed.

(** Every tree that [buildFileTree] returns has its files as leaves. *)
Lemma HtmlTool_built_tree_files_are_leaves (fs : FsEntry) (rootPath : string)
  (tree : FileInfo) :
  HtmlTool.buildFileTree fs rootPath = Some tree -> files_are_leaves tree.
Proof.
  unfold HtmlTool.buildFileTree.
  destruct (filepath_Abs rootPath) as [absPath|]; [|easy].
  now apply HtmlTool_build_leaves.
Qed.
End HtmlBuild.

Section ConsoleBuild.
Context {lib : GoLib}.

Lemma fold_add64_sizes (cs : list FileInfo) (total : Z) :
  fold_left (fun totalSize child => add64 totalSize (Size child)) cs total
  = fold_left add64 (map Size cs) total.
Proof.
  revert total. induction cs as [|c cs IH]; intro total; [reflexivity|].
  cbn [fold_left map]. apply IH.
Qed.

Lemma calculateDirSize_dir (d : FileInfo) :
  IsDir d = true ->
  ConsoleTool.calculateDirSize d = sum64 (map Size (Children d)).
Proof.
  intro H. unfold ConsoleTool.calculateDirSize. rewrite H. cbn [negb].
  apply fold_add64_sizes.
Qed.

(** The loop over the entries, in one piece. *)
Lemma console_walk_fold (build : FsEntry -> option FileInfo)
  (entries : list FsEntry) (cs : list FileInfo) :
  fold_left (fun acc entry =>
               match build entry with
               | None => acc
               | Some child => acc ++ [child]
               end) entries cs
  = cs ++ successes build entries.
Proof.
  revert cs. induction entries as [|e entries IH]; intro cs.
  - simpl. now rewrite app_nil_r.
  - cbn [fold_left]. unfold successes. cbn [flat_map].
    fold (successes build entries).
    destruct (build e) as [c|]; rewrite IH; [|reflexivity].
    now rewrite <- app_assoc.
Qed.

Lemma ConsoleTool_build_unfold (fs : FsEntry) (dirPath : string) :
  ConsoleTool.buildFileTree fs dirPath =
  match entStat fs with
  | None => (None, true)
  | Some (isDir, size) =>
      let root := mkFileInfo (filepath_Base dirPath) size isDir dirPath [] in
      if negb isDir then (Some root, false)
      else
        match entReadDir fs with
        | None => (Some root, true)
        | Some entries =>
            let children := successes (console_entry dirPath) entries in
            (Some (mkFileInfo (filepath_Base dirPath)
                              (sum64 (map Size children)) true dirPath
                              children),
             false)
        end
  end.
Proof.
  destruct fs as [n d i [[[|] size]|] [entries|]]; try reflexivity.
  cbn [ConsoleTool.buildFileTree entStat entReadDir negb].
  cbn [Name Size IsDir Path Children].
  cbn zeta.
  assert (E : forall l acc,
             fold_left
               (fun rootChildren entry =>
                  match entInfo entry with
                  | Some childSize =>
                      rootChildren ++
                      [if entIsDir entry
                       then
                         match
                           ConsoleTool.buildFileTree entry
                             (filepath_Join dirPath (entName entry))
                         with
                         | (Some subTree, true) =>
                             mkFileInfo (entName entry) childSize
                               (entIsDir entry)
                               (filepath_Join dirPath (entName entry)) []
                         | (Some subTree, false) =>
                             mkFileInfo (entName entry)
                               (ConsoleTool.calculateDirSize
                                  (mkFileInfo (entName entry) childSize
                                     (entIsDir entry)
                                     (filepath_Join dirPath (entName entry))
                                     (Children subTree)))
                               (entIsDir entry)
                               (filepath_Join dirPath (entName entry))
                               (Children subTree)
                         | (None, _) =>
                             mkFileInfo (entName entry) childSize
                               (entIsDir entry)
                               (filepath_Join dirPath (entName entry)) []
                         end
                       else
                         mkFileInfo (entName entry) childSize
                           (entIsDir entry)
                           (filepath_Join dirPath (entName entry)) []]
                  | None => rootChildren
                  end) l acc
             = fold_left
                 (fun acc entry =>
                    match console_entry dirPath entry with
                    | None => acc
                    | Some child => acc ++ [child]
                    end) l acc).
  { induction l as [|e l IHl]; intro acc; [reflexivity|].
    cbn [fold_left]. rewrite IHl. f_equal.
    unfold console_entry. destruct (entInfo e) as [sz|]; [|reflexivity].
    destruct (entIsDir e) eqn:Ed; [|reflexivity].
    destruct (ConsoleTool.buildFileTree e _) as [[sub|] [|]]; try reflexivity.
    now rewrite calculateDirSize_dir. }
  rewrite E, console_walk_fold. cbn [app].
  now rewrite calculateDirSize_dir.
Qed.
Lemma size_is_sum_intro (d : FileInfo) :
  Size d = sum64 (map Size (Children d)) -> size_is_sum d.
Proof.
  intros E _. split; [exact E|]. intro H. rewrite E. now apply sum64_exact.
Qed.

(** The error that the recursive call returns. *)
Lemma ConsoleTool_build_error (fs : FsEntry) (dirPath : string) :
  snd (ConsoleTool.buildFileTree fs dirPath) = unreadable fs.
Proof.
  rewrite ConsoleTool_build_unfold. unfold unreadable.
  destruct (entStat fs) as [[[|] size]|]; [|reflexivity|reflexivity].
  cbn [negb]. destruct (entReadDir fs); reflexivity.
Qed.

Lemma console_entry_name (dirPath : string) (e : FsEntry) (c : FileInfo) :
  console_entry dirPath e = Some c -> Name c = entName e.
Proof.
  unfold console_entry. destruct (entInfo e) as [sz|]; [|easy].
  intros [= <-]. destruct (entIsDir e); [|reflexivity].
  destruct (ConsoleTool.buildFileTree e _) as [[sub|] [|]]; reflexivity.
Qed.

(** A directory entry that cannot be read stays, without children and
    with the size of its own record. *)
Lemma console_entry_unreadable (dirPath : string) (e : FsEntry) (sz : Z) :
  entInfo e = Some sz -> entIsDir e = true -> unreadable e = true ->
  console_entry dirPath e
  = Some (mkFileInfo (entName e) sz true
                     (filepath_Join dirPath (entName e)) []).
Proof.
  intros Hi Hd Hu. unfold console_entry. rewrite Hi, Hd.
  pose proof (ConsoleTool_build_error e (filepath_Join dirPath (entName e)))
    as E. rewrite Hu in E.
  destruct (ConsoleTool.buildFileTree e _) as [[sub|] [|]];
    cbn [snd] in E; try discriminate E; reflexivity.
Qed.

Lemma ConsoleTool_build_listed (fs : FsEntry) :
  forall dirPath tree err,
    ConsoleTool.buildFileTree fs dirPath = (Some tree, err) ->
    Forall listed_size_is_sum (nodes tree) /\
    (err = false -> size_is_sum tree).
Proof.
  induction fs as [n d i s r IH] using FsEntry_tree_ind.
  intros dirPath tree err. rewrite ConsoleTool_build_unfold.
  cbn [entStat entReadDir].
  destruct s as [[[|] size]|]; cbn [negb]; [| |easy].
  - destruct r as [entries|].
    + cbn zeta. intros [= <- <-]. split.
      * cbn [nodes]. constructor.
        { intros _. now apply size_is_sum_intro. }
        apply Forall_flat_map. rewrite Forall_forall. intros c Hc.
        apply in_successes in Hc. destruct Hc as (e & He & Hb).
        specialize (IH entries eq_refl). rewrite Forall_forall in IH.
        specialize (IH e He). unfold console_entry in Hb.
        destruct (entInfo e) as [sz|]; [|easy]. injection Hb as <-.
        destruct (entIsDir e);
          [|constructor; [intro H; now elim H|constructor]].
        destruct (ConsoleTool.buildFileTree e _) as [[sub|] [|]] eqn:Eb;
          try (constructor; [intro H; now elim H|constructor]).
        destruct (IH _ _ _ Eb) as [Hsub _].
        destruct sub as [n' s' d' p' cs']. cbn [nodes Children] in *.
        apply Forall_inv_tail in Hsub. constructor; [|exact Hsub].
        intros _. now apply size_is_sum_intro.
      * intros _. now apply size_is_sum_intro.
    + cbn zeta. intros [= <- <-]. split; [|easy].
      cbn [nodes flat_map]. constructor; [intro H; now elim H|constructor].
  - cbn zeta. intros [= <- <-]. split.
    + cbn [nodes flat_map]. constructor; [intro H; now elim H|constructor].
    + intros _ H. discriminate H.
Qed.
End ConsoleBuild.


(** C1, as spec.md has it, fails in the console-only tool: the directory
    [locked], whose listing fails, stays in the tree without children and
    with the 4096 bytes of its own record. *)
Lemma console_unlisted_directory_size_is_no_sum :
  ConsoleTool.buildFileTree (lib := reference_lib) example_fs "/work"
  = (Some console_example_tree, false) /\
  In (mkFileInfo "locked" 4096 true "/work/locked" [])
     (nodes console_example_tree) /\
  ~ Forall size_is_sum (nodes console_example_tree).
Proof.
  split; [reflexivity|]. split; [cbn; tauto|].
  intro H. cbn [nodes console_example_tree flat_map app] in H.
  do 2 apply Forall_inv_tail in H. apply Forall_inv in H.
  destruct (H eq_refl) as [E _]. discriminate E.
Qed.

(** C5, as spec.md has it, fails in the console-only tool: [locked],
    whose listing fails, and [broken], whose stat fails, are among the
    children of the root, and their 4096 and 7 bytes are in its size. *)
Lemma console_unreadable_entries_are_listed :
  ConsoleTool.buildFileTree (lib := reference_lib) example_fs "/work"
  = (Some console_example_tree, false) /\
  map entName (filter unreadable example_entries) = ["locked"; "broken"] /\
  map Name (Children console_example_tree)
  = ["a.txt"; "locked"; "broken"; "sub"; "e"] /\
  map Name (Children console_example_tree)
  <> map entName (filter readable example_entries) /\
  Size console_example_tree = 10 + 4096 + 7 + 11 + 1.
Proof. repeat split; try reflexivity. discriminate. Qed.

(** C5, amended.  No failure below a directory aborts its walk, in either
    program: the walk of a directory that can be listed succeeds, and the
    size of the directory is the sum over the children it leaves.  In the
    tool with HTML output those are the trees of the entries whose stat
    and readdir succeed, one for one and in the order of the listing; an
    entry whose stat or readdir fails has no tree and so no child.  In the
    console-only tool they are the nodes of the entries whose
    [entry.Info()] succeeds; a directory entry whose stat or readdir fails
    stays among them, without children and with the size of its own
    record. *)
Theorem failing_entries_do_not_abort_the_walk :
  forall (lib : GoLib) (fs : FsEntry) (node : FileInfo) (dirPath : string)
         (size : Z) (entries : list FsEntry),
    entStat fs = Some (true, size) ->
    entReadDir fs = Some entries ->
    Children node = [] ->
    (exists t,
        HtmlTool.buildFileTreeRecursive fs node = Some t /\
        Forall2 (fun e c =>
                   HtmlTool.buildFileTreeRecursive e (child_node node e)
                   = Some c)
                (filter readable entries) (Children t) /\
        map Name (Children t) = map entName (filter readable entries) /\
        Size t = sum64 (map Size (Children t)) /\
        (forall e, unreadable e = true ->
                   HtmlTool.buildFileTreeRecursive e (child_node node e)
                   = None)) /\
    (exists t,
        ConsoleTool.buildFileTree fs dirPath = (Some t, false) /\
        Forall2 (fun e c => console_entry dirPath e = Some c)
                (filter has_info entries) (Children t) /\
        map Name (Children t) = map entName (filter has_info entries) /\
        Size t = sum64 (map Size (Children t)) /\
        (forall e sz,
            In e entries -> entInfo e = Some sz ->
            entIsDir e = true -> unreadable e = true ->
            In (mkFileInfo (entName e) sz true
                           (filepath_Join dirPath (entName e)) [])
               (Children t))).
Proof.
  intros lib fs node dirPath size entries Hstat Hread Hnil. split.
  - rewrite HtmlTool_build_unfold, Hstat, Hread, Hnil. cbn zeta.
    eexists. split; [reflexivity|]. cbn [Children Size app].
    assert (F : Forall2
                  (fun e c =>
                     HtmlTool.buildFileTreeRecursive e (child_node node e)
                     = Some c)
                  (filter readable entries)
                  (successes
                     (fun e => HtmlTool.buildFileTreeRecursive
                                 e (child_node node e)) entries)).
    { apply successes_filter. intros e _. unfold readable.
      rewrite negb_true_iff, <- not_true_iff_false.
      now rewrite HtmlTool_build_fails_iff. }
    split; [exact F|]. split; [|split].
    + induction F as [|e c es cs Hb _ IH]; [reflexivity|].
      cbn [map]. f_equal; [|exact IH].
      now apply HtmlTool_build_name in Hb.
    + reflexivity.
    + intros e He. now apply HtmlTool_build_fails_iff.
  - rewrite ConsoleTool_build_unfold, Hstat, Hread. cbn [negb]. cbn zeta.
    eexists. split; [reflexivity|]. cbn [Children Size].
    assert (F : Forall2 (fun e c => console_entry dirPath e = Some c)
                        (filter has_info entries)
                        (successes (console_entry dirPath) entries)).
    { apply successes_filter. intros e _.
      unfold has_info, console_entry. destruct (entInfo e); easy. }
    split; [exact F|]. split; [|split].
    + induction F as [|e c es cs Hb _ IH]; [reflexivity|].
      cbn [map]. f_equal; [|exact IH].
      now apply console_entry_name in Hb.
    + reflexivity.
    + intros e sz He Hi Hd Hu.
      pose proof (console_entry_unreadable dirPath e Hi Hd Hu) as Hc.
      unfold successes. apply in_flat_map. exists e. split; [exact He|].
      rewrite Hc. now left.
Qed.

(** The theorem at the example: the walk of [/work], whose entries
    [locked] and [broken] fail. *)
Lemma failing_entries_do_not_abort_the_walk_witness :
  (exists t,
      HtmlTool.buildFileTreeRecursive (lib := reference_lib)
        example_fs example_root = Some t /\
      Forall2 (fun e c =>
                 HtmlTool.buildFileTreeRecursive (lib := reference_lib)
                   e (child_node example_root e) = Some c)
              (filter readable example_entries) (Children t) /\
      map Name (Children t) = map entName (filter readable example_entries) /\
      Size t = sum64 (map Size (Children t)) /\
      (forall e, unreadable e = true ->
                 HtmlTool.buildFileTreeRecursive (lib := reference_lib)
                   e (child_node example_root e) = None)) /\
  (exists t,
      ConsoleTool.buildFileTree (lib := reference_lib) example_fs "/work"
      = (Some t, false) /\
      Forall2 (fun e c => console_entry (lib := reference_lib) "/work" e
                          = Some c)
              (filter has_info example_entries) (Children t) /\
      map Name (Children t) = map entName (filter has_info example_entries) /\
      Size t = sum64 (map Size (Children t)) /\
      (forall e sz,
          In e example_entries -> entInfo e = Some sz ->
          entIsDir e = true -> unreadable e = true ->
          In (mkFileInfo (entName e) sz true
                         (filepath_Join (GoLib := reference_lib)
                            "/work" (entName e)) [])
             (Children t))).
Proof.
  apply (@failing_entries_do_not_abort_the_walk
           reference_lib example_fs example_root "/work" 4096
           example_entries);
    reflexivity.
Defined.

(** The walk of the example in the tool with HTML output: [locked] and
    [broken] leave no child. *)
Lemma HtmlTool_example_walk :
  HtmlTool.buildFileTree (lib := reference_lib) example_fs "/work"
  = Some example_tree /\
  map entName (filter readable example_entries) = ["a.txt"; "sub"; "e"].
Proof. split; reflexivity. Qed.

(* ================================================================== *)
(** ** Sorting with the reverse flag, directory by directory *)

Lemma sorted_split (A : Type) (R : A -> A -> Prop) (l l1 l2 l3 : list A)
  (a b : A) :
  StronglySorted R l -> l = l1 ++ a :: l2 ++ b :: l3 -> R a b.
Proof.
  intros H ->. induction l1 as [|x l1 IH].
  - cbn [app] in H. apply StronglySorted_inv in H. destruct H as [_ H].
    rewrite Forall_forall in H. apply H.
    apply in_or_app. right. now left.
  - cbn [app] in H. apply StronglySorted_inv in H. now apply IH.
Qed.

Lemma map_split (A B : Type) (f : A -> B) (l : list A) (l1 l2 l3 : list B)
  (fa fb : B) :
  map f l = l1 ++ fa :: l2 ++ fb :: l3 ->
  exists k1 a k2 b k3,
    l = k1 ++ a :: k2 ++ b :: k3 /\ f a = fa /\ f b = fb.
Proof.
  intro H.
  apply map_eq_app in H. destruct H as (k1 & r1 & -> & _ & H).
  apply map_eq_cons in H. destruct H as (a & r2 & -> & Ha & H).
  apply map_eq_app in H. destruct H as (k2 & r3 & -> & _ & H).
  apply map_eq_cons in H. destruct H as (b & k3 & -> & Hb & _).
  now exists k1, a, k2, b, k3.
Qed.

Lemma one_before_the_other (A : Type) (l : list A) (a b : A) :
  In a l -> In b l -> a <> b ->
  (exists l1 l2 l3, l = l1 ++ a :: l2 ++ b :: l3) \/
  (exists l1 l2 l3, l = l1 ++ b :: l2 ++ a :: l3).
Proof.
  intros Ha Hb Hne. apply in_split in Ha. destruct Ha as (l1 & r & ->).
  apply in_app_or in Hb. destruct Hb as [Hb|[Hb|Hb]].
  - right. apply in_split in Hb. destruct Hb as (k1 & k2 & ->).
    exists k1, k2, r. now rewrite <- app_assoc.
  - now elim Hne.
  - left. apply in_split in Hb. destruct Hb as (k1 & k2 & ->).
    now exists l1, k1, k2.
Qed.

Lemma split_in (A : Type) (l l1 l2 l3 : list A) (a b : A) :
  l = l1 ++ a :: l2 ++ b :: l3 -> In a l /\ In b l.
Proof.
  intros ->. split; apply in_or_app; right; [now left|].
  right. apply in_or_app. right. now left.
Qed.

Section ShortDirectories.
Context {lib : GoLib}.
Variable cmp : FileInfo -> FileInfo -> bool.

Lemma sort_levels_length (t : FileInfo) :
  List.length (Children (sort_levels cmp t)) = List.length (Children t).
Proof.
  rewrite sort_levels_children.
  rewrite <- (Permutation_length (sort_Slice_perm cmp _)).
  apply length_map.
Qed.

(** A directory of at most six entries comes out of [sortFileTree] in the
    order of the comparator, also where the comparator is no strict weak
    ordering. *)
Lemma sort_levels_short_children (t : FileInfo) :
  TotalPreorder cmp -> short t ->
  WeaklySortedBy cmp (Children (sort_levels cmp t)).
Proof.
  intros TP Hs. rewrite sort_levels_children.
  rewrite sort_Slice_short by (rewrite length_map; exact Hs).
  now apply insertionSort_weakly_sorted.
Qed.

(** The same for every directory that [sortFileTree] reaches, whatever
    the other directories of the tree hold. *)
Lemma sort_levels_short_sorted (t : FileInfo) :
  TotalPreorder cmp ->
  Forall (fun d => short d -> WeaklySortedBy cmp (Children d))
         (directories (sort_levels cmp t)).
Proof.
  intro TP.
  induction t as [n s d p cs IH] using FileInfo_tree_ind.
  pose proof (sort_levels_length (mkFileInfo n s d p cs)) as Hlen.
  pose proof (sort_levels_short_children (t := mkFileInfo n s d p cs) TP)
    as Hroot.
  remember (sort_levels cmp (mkFileInfo n s d p cs)) as t' eqn:Et.
  assert (Hc : Children t' = sort_Slice cmp (map (descend cmp) cs))
    by (subst t'; apply (sort_levels_children cmp (mkFileInfo n s d p cs))).
  destruct t' as [n' s' d' p' cs']. cbn [Children] in Hc, Hlen, Hroot.
  cbn [directories]. constructor.
  - unfold short. cbn [Children]. intro Hs. apply Hroot.
    unfold short. cbn [Children]. now rewrite <- Hlen.
  - apply Forall_flat_map. rewrite Forall_forall. intros c' Hin.
    rewrite Hc in Hin.
    apply (Permutation_in _ (Permutation_sym (sort_Slice_perm cmp _))) in Hin.
    apply in_map_iff in Hin. destruct Hin as [c [<- Hc_in]].
    rewrite Forall_forall in IH. specialize (IH c Hc_in).
    assert (Hd : IsDir (descend cmp c) = IsDir c).
    { pose proof (descend_fields cmp c) as F. unfold fields in F.
      congruence. }
    rewrite Hd. unfold descend.
    destruct (IsDir c); [exact IH|constructor].
Qed.

(** In a tree whose files are leaves, that is every directory node. *)
Lemma sort_levels_short_sorted_all (t : FileInfo) :
  TotalPreorder cmp -> files_are_leaves t ->
  forall d, In d (nodes (sort_levels cmp t)) -> IsDir d = true ->
            short d -> WeaklySortedBy cmp (Children d).
Proof.
  intros TP FL d Hd Hdir.
  pose proof (sort_levels_short_sorted t TP) as H.
  rewrite Forall_forall in H. apply H.
  apply directories_complete; try assumption.
  now apply sort_levels_files_are_leaves.
Qed.

Lemma sort_levels_children_fields (t : FileInfo) :
  Permutation (map fields (Children t))
              (map fields (Children (sort_levels cmp t))).
Proof.
  rewrite sort_levels_children.
  transitivity (map fields (map (descend cmp) (Children t))).
  - rewrite map_map.
    replace (map (fun x => fields (descend cmp x)) (Children t))
      with (map fields (Children t)); [reflexivity|].
    apply map_ext. intro c. symmetry. apply descend_fields.
  - apply Permutation_map, sort_Slice_perm.
Qed.
End ShortDirectories.

Section Mirror.
Context {lib : GoLib}.
Variables forward reversed : FileInfo -> FileInfo -> bool.
Hypothesis forward_keys : reads_keys_only forward.
Hypothesis reversed_keys : reads_keys_only reversed.
Hypothesis forward_strict : StrictWeak forward.
Hypothesis reversed_total : TotalPreorder reversed.

Lemma same_fields_same_answer (cmp : FileInfo -> FileInfo -> bool)
  (a a' b b' : FileInfo) :
  reads_keys_only cmp -> fields a = fields a' -> fields b = fields b' ->
  cmp a b = cmp a' b'.
Proof.
  unfold fields. intros K [= Na Sa Da _] [= Nb Sb Db _]. now apply K.
Qed.

(** Where the two comparators answer oppositely on two field tuples, a
    directory of at most six entries lists the two in opposite orders
    with and without the flag. *)
Lemma short_directory_mirrors (root : FileInfo)
  (fa fb : string * Z * bool * string) :
  short root -> fa <> fb ->
  (forall a b, fields a = fa -> fields b = fb ->
               reversed a b = forward b a /\ reversed b a = forward a b) ->
  reverse_mirrors_fields (Children (sort_levels reversed root))
                         (Children (sort_levels forward root)) fa fb.
Proof.
  intros Hs Hne Hopp.
  pose proof (sort_levels_short_children (t := root) reversed_total Hs) as HR.
  assert (HF : SortedBy forward (Children (sort_levels forward root))).
  { rewrite sort_levels_children. now apply sort_Slice_sorted. }
  pose proof (sort_levels_children_fields reversed root) as PR.
  pose proof (sort_levels_children_fields forward root) as PF.
  set (R := Children (sort_levels reversed root)) in *.
  set (F := Children (sort_levels forward root)) in *.
  assert (PRF : Permutation (map fields R) (map fields F))
    by (transitivity (map fields (Children root));
        [now apply Permutation_sym|exact PF]).
  unfold reverse_mirrors_fields, fields_stand_before. split.
  - intros (l1 & l2 & l3 & E).
    destruct (@split_in _ _ _ _ _ _ _ E) as [Ia Ib].
    destruct (@map_split _ _ _ _ _ _ _ _ _ E) as (k1 & a & k2 & b & k3 & ER & Fa & Fb).
    pose proof (@sorted_split _ _ _ _ _ _ _ _ HR ER) as Hab. cbn beta in Hab.
    destruct (@one_before_the_other _ _ _ _
                (Permutation_in _ PRF Ib) (Permutation_in _ PRF Ia)
                (fun E' => Hne (eq_sym E')))
      as [G|(m1 & m2 & m3 & E')]; [exact G|].
    exfalso.
    destruct (@map_split _ _ _ _ _ _ _ _ _ E') as (j1 & a' & j2 & b' & j3 & EF & Fa' & Fb').
    pose proof (@sorted_split _ _ _ _ _ _ _ _ HF EF) as Hba. cbn beta in Hba.
    destruct (Hopp a b Fa Fb) as [O1 _].
    assert (Q : forward b a = forward b' a')
      by (apply same_fields_same_answer;
          [exact forward_keys|congruence|congruence]).
    congruence.
  - intros (l1 & l2 & l3 & E).
    destruct (@split_in _ _ _ _ _ _ _ E) as [Ib Ia].
    destruct (@map_split _ _ _ _ _ _ _ _ _ E) as (k1 & b & k2 & a & k3 & EF & Fb & Fa).
    pose proof (@sorted_split _ _ _ _ _ _ _ _ HF EF) as Hab. cbn beta in Hab.
    destruct (@one_before_the_other _ _ _ _
                (Permutation_in _ (Permutation_sym PRF) Ia)
                (Permutation_in _ (Permutation_sym PRF) Ib) Hne)
      as [G|(m1 & m2 & m3 & E')]; [exact G|].
    exfalso.
    destruct (@map_split _ _ _ _ _ _ _ _ _ E') as (j1 & b' & j2 & a' & j3 & ER & Fb' & Fa').
    pose proof (@sorted_split _ _ _ _ _ _ _ _ HR ER) as Hba. cbn beta in Hba.
    destruct (Hopp a' b' Fa' Fb') as [_ O2].
    assert (Q : forward a' b' = forward a b)
      by (apply same_fields_same_answer;
          [exact forward_keys|congruence|congruence]).
    congruence.
Qed.
End Mirror.

Section ReverseOrders.
Context {lib : GoLib}.

Lemma weakly_sorted_reverse_size_order (l : list FileInfo) :
  WeaklySortedBy (HtmlTool.less SortBySize true) l ->
  ordered_by reverse_size_order l.
Proof.
  unfold WeaklySortedBy, ordered_by.
  induction 1 as [|x l Hs IH Hall]; constructor; [assumption|].
  revert Hall. apply Forall_impl. intros y.
  unfold HtmlTool.less, reverse_size_order.
  rewrite negb_true_iff, Z.ltb_ge. lia.
Qed.

Lemma weakly_sorted_kind_then_reverse_size_order (l : list FileInfo) :
  WeaklySortedBy (ConsoleTool.less SortBySize true) l ->
  ordered_by kind_then_reverse_size_order l.
Proof.
  unfold WeaklySortedBy, ordered_by.
  induction 1 as [|x l Hs IH Hall]; constructor; [assumption|].
  revert Hall. apply Forall_impl. intros y.
  unfold ConsoleTool.less, kind_then_reverse_size_order.
  destruct (IsDir x), (IsDir y); simpl; intro H; split; intros;
    try congruence; apply negb_true_iff, Z.ltb_ge in H; lia.
Qed.

Lemma weakly_sorted_console_reverse_name_order (l : list FileInfo) :
  WeaklySortedBy (ConsoleTool.less SortByName true) l ->
  ordered_by reverse_name_order l.
Proof. intro H. now apply weakly_sorted_reverse_name_order. Qed.

(** On two nodes with different keys, and of one kind where the kind is
    looked at, the comparator with the flag answers as the comparator
    without it does on the two exchanged. *)
Lemma HtmlTool_less_opposite (st : SortType) (a b : FileInfo) :
  keys_differ st (fields a) (fields b) ->
  (st = SortByName -> same_kind (fields a) (fields b)) ->
  HtmlTool.less st true a b = HtmlTool.less st false b a.
Proof.
  unfold keys_differ, same_kind, fields. cbn [fst snd].
  intros Hk Hs. unfold HtmlTool.less. destruct st.
  - rewrite (Hs eq_refl), !Bool.eqb_reflx. cbn [negb].
    symmetry. now apply string_ltb_total.
  - rewrite <- Z.leb_antisym.
    destruct (Z.leb_spec (Size a) (Size b)), (Z.ltb_spec (Size a) (Size b));
      try reflexivity; lia.
Qed.

Lemma ConsoleTool_less_opposite (st : SortType) (a b : FileInfo) :
  keys_differ st (fields a) (fields b) ->
  same_kind (fields a) (fields b) ->
  ConsoleTool.less st true a b = ConsoleTool.less st false b a.
Proof.
  unfold keys_differ, same_kind, fields. cbn [fst snd].
  intros Hk Hs. unfold ConsoleTool.less.
  rewrite Hs, !Bool.eqb_reflx. cbn [negb]. destruct st.
  - symmetry. now apply string_ltb_total.
  - rewrite <- Z.leb_antisym.
    destruct (Z.leb_spec (Size a) (Size b)), (Z.ltb_spec (Size a) (Size b));
      try reflexivity; lia.
Qed.

Lemma keys_differ_sym (st : SortType) (fa fb : string * Z * bool * string) :
  keys_differ st fa fb -> keys_differ st fb fa.
Proof. unfold keys_differ. destruct st; intros H E; now apply H. Qed.

Lemma keys_differ_neq (st : SortType) (fa fb : string * Z * bool * string) :
  keys_differ st fa fb -> fa <> fb.
Proof. unfold keys_differ. intros H ->. now destruct st; apply H. Qed.
End ReverseOrders.

(* ================================================================== *)
(** ** Sorting: the stated properties *)

Section NameSortExample.
Context {lib : GoLib}.

Lemma lower_b_txt : strings_ToLower "b.txt" = "b.txt".
Proof. now rewrite strings_ToLower_ascii. Qed.

Lemma lower_a_txt : strings_ToLower "a.txt" = "a.txt".
Proof. now rewrite strings_ToLower_ascii. Qed.

Lemma lower_A : strings_ToLower "A" = "a".
Proof. now rewrite strings_ToLower_ascii. Qed.
End NameSortExample.

(** Sorting a directory of at most six leaves, for any library. *)
Ltac sort_short_leaves :=
  rewrite ?HtmlTool_sortFileTree_levels, ?ConsoleTool_sortFileTree_levels;
  rewrite sort_levels_unfold; cbn [Children map descend IsDir];
  rewrite sort_Slice_short by (simpl; lia);
  unfold insertionSort_func;
  cbn [fold_left sink HtmlTool.less ConsoleTool.less IsDir Name Size
       Bool.eqb negb sort_levels];
  rewrite ?lower_b_txt, ?lower_a_txt, ?lower_A.

(** C2.  Name sort, forward: in every sorted directory no file stands
    before a directory, and among directories and among files the names
    ascend without regard to case.  This holds of the root and of every
    directory reached through directories, which in a tree whose files are
    leaves, as the walk builds them, is every directory node.  The
    siblings b.txt, A/ and a.txt, listed in any order, come out as A/,
    a.txt, b.txt.  Both programs. *)
Theorem name_sort_directories_first :
  forall (lib : GoLib),
    (forall root,
        Forall (fun d => ordered_by name_order (Children d))
               (directories (HtmlTool.sortFileTree root SortByName false)) /\
        Forall (fun d => ordered_by name_order (Children d))
               (directories
                  (ConsoleTool.sortFileTree root SortByName false))) /\
    (forall root,
        files_are_leaves root ->
        forall d,
          IsDir d = true ->
          (In d (nodes (HtmlTool.sortFileTree root SortByName false)) ->
           ordered_by name_order (Children d)) /\
          (In d (nodes (ConsoleTool.sortFileTree root SortByName false)) ->
           ordered_by name_order (Children d))) /\
    (forall n s d p sb pb sA pA sa pa,
        let b := mkFileInfo "b.txt" sb false pb [] in
        let A := mkFileInfo "A" sA true pA [] in
        let a := mkFileInfo "a.txt" sa false pa [] in
        Forall (fun siblings =>
                  Children (HtmlTool.sortFileTree
                              (mkFileInfo n s d p siblings) SortByName false)
                  = [A; a; b] /\
                  Children (ConsoleTool.sortFileTree
                              (mkFileInfo n s d p siblings) SortByName false)
                  = [A; a; b])
               (arrangements3 b A a)).
Proof.
  intro lib. split; [|split].
  - intro root.
    rewrite HtmlTool_sortFileTree_levels, ConsoleTool_sortFileTree_levels.
    split;
      (eapply Forall_impl;
       [|apply sort_levels_sorted, HtmlTool_less_name_strict]);
      intros d; apply sorted_by_name_order.
  - intros root FL d Hdir.
    rewrite HtmlTool_sortFileTree_levels, ConsoleTool_sortFileTree_levels.
    split; intro Hd; apply sorted_by_name_order;
      apply (sort_levels_sorted_all HtmlTool_less_name_strict FL _ Hd Hdir).
  - intros. unfold arrangements3.
    repeat (apply Forall_cons || apply Forall_nil); split; subst b A a;
      sort_short_leaves; reflexivity.
Qed.

(** C3, as spec.md has it, fails in the console-only tool, whose closure
    tests directories-first before it looks at the sort key: a directory
    of 20 bytes is sorted before a file of 30 bytes. *)
Lemma console_size_sort_puts_directory_first :
  let y := mkFileInfo "y" 30 false "/r/y" [] in
  let z := mkFileInfo "z" 20 true "/r/z" [] in
  let sorted :=
    Children (ConsoleTool.sortFileTree (lib := reference_lib)
                (mkFileInfo "r" 50 true "/r" [y; z]) SortBySize false) in
  sorted = [z; y] /\ ~ ordered_by size_order sorted.
Proof.
  cbv zeta. split; [reflexivity|].
  intro H. change (ordered_by size_order
                     [mkFileInfo "z" 20 true "/r/z" [];
                      mkFileInfo "y" 30 false "/r/y" []]) in H.
  apply StronglySorted_inv in H. destruct H as [_ H].
  apply Forall_inv in H. unfold size_order in H. cbn [Size] in H. lia.
Qed.

(** C3, amended.  Size sort orders by descending size.  In the tool with
    HTML output the comparator looks at the sizes only, whatever the kinds
    of the two nodes, and every sorted directory (the root and every
    directory reached through directories, which is every directory node
    when files are leaves) has its children in descending size.  In the
    console-only tool a directory goes before a file under the size key
    too, and sizes descend among the directories and among the files.
    Siblings x:10, y:30, z:20, listed in any order, come out as y, z, x,
    and as x, z, y with the reverse flag: of any kinds in the tool with
    HTML output, of one kind in the console-only tool. *)
Theorem size_sort_descending :
  forall (lib : GoLib),
    (forall a b,
        HtmlTool.less SortBySize false a b = (Size b <? Size a)%Z /\
        HtmlTool.less SortBySize true a b = (Size a <=? Size b)%Z) /\
    (forall root,
        Forall (fun d => ordered_by size_order (Children d))
               (directories (HtmlTool.sortFileTree root SortBySize false))) /\
    (forall root,
        files_are_leaves root ->
        forall d,
          In d (nodes (HtmlTool.sortFileTree root SortBySize false)) ->
          IsDir d = true ->
          ordered_by size_order (Children d)) /\
    (forall r a b,
        IsDir a = true -> IsDir b = false ->
        ConsoleTool.less SortBySize r a b = true /\
        ConsoleTool.less SortBySize r b a = false) /\
    (forall root,
        Forall (fun d => ordered_by kind_then_size_order (Children d))
               (directories
                  (ConsoleTool.sortFileTree root SortBySize false))) /\
    (forall n s d p dx px dy py dz pz,
        let x := mkFileInfo "x" 10 dx px [] in
        let y := mkFileInfo "y" 30 dy py [] in
        let z := mkFileInfo "z" 20 dz pz [] in
        Forall (fun siblings =>
                  Children (HtmlTool.sortFileTree
                              (mkFileInfo n s d p siblings) SortBySize false)
                  = [y; z; x] /\
                  Children (HtmlTool.sortFileTree
                              (mkFileInfo n s d p siblings) SortBySize true)
                  = [x; z; y])
               (arrangements3 x y z)) /\
    (forall n s d p kind px py pz,
        let x := mkFileInfo "x" 10 kind px [] in
        let y := mkFileInfo "y" 30 kind py [] in
        let z := mkFileInfo "z" 20 kind pz [] in
        Forall (fun siblings =>
                  Children (ConsoleTool.sortFileTree
                              (mkFileInfo n s d p siblings) SortBySize false)
                  = [y; z; x] /\
                  Children (ConsoleTool.sortFileTree
                              (mkFileInfo n s d p siblings) SortBySize true)
                  = [x; z; y])
               (arrangements3 x y z)).
Proof.
  intro lib. split; [|split; [|split; [|split; [|split; [|split]]]]].
  - intros a b. unfold HtmlTool.less. split; [reflexivity|].
    now rewrite Z.leb_antisym.
  - intro root. rewrite HtmlTool_sortFileTree_levels.
    eapply Forall_impl; [|apply sort_levels_sorted, HtmlTool_less_size_strict].
    intros d. apply sorted_by_size_order.
  - intros root FL d Hd Hdir. rewrite HtmlTool_sortFileTree_levels in Hd.
    apply sorted_by_size_order.
    apply (sort_levels_sorted_all HtmlTool_less_size_strict FL _ Hd Hdir).
  - intros r a b Ha Hb. unfold ConsoleTool.less. now rewrite Ha, Hb.
  - intro root. rewrite ConsoleTool_sortFileTree_levels.
    eapply Forall_impl;
      [|apply sort_levels_sorted, (ConsoleTool_less_strict SortBySize)].
    intros d. apply sorted_by_kind_then_size_order.
  - intros. unfold arrangements3. subst x y z.
    destruct dx, dy, dz;
      repeat (apply Forall_cons || apply Forall_nil); split;
      sort_short_leaves; reflexivity.
  - intros. unfold arrangements3. subst x y z.
    destruct kind;
      repeat (apply Forall_cons || apply Forall_nil); split;
      sort_short_leaves; reflexivity.
Qed.

(** C4, as spec.md has it, fails: a directory and a file under name sort
    stand in the same order with and without the reverse flag, in both
    programs. *)
Lemma reverse_keeps_directories_first :
  let docs := mkFileInfo "docs" 0 true "/r/docs" [] in
  let a_txt := mkFileInfo "a.txt" 5 false "/r/a.txt" [] in
  let root := mkFileInfo "r" 5 true "/r" [a_txt; docs] in
  let html r := Children (HtmlTool.sortFileTree (lib := reference_lib)
                            root SortByName r) in
  let console r := Children (ConsoleTool.sortFileTree (lib := reference_lib)
                               root SortByName r) in
  ~ reverse_mirrors (html true) (html false) docs a_txt /\
  ~ reverse_mirrors (console true) (console false) docs a_txt /\
  html true = [docs; a_txt] /\ html false = [docs; a_txt] /\
  console true = [docs; a_txt] /\ console false = [docs; a_txt].
Proof.
  assert (H : forall docs a_txt : FileInfo,
             docs <> a_txt ->
             ~ reverse_mirrors [docs; a_txt] [docs; a_txt] docs a_txt).
  { intros docs a_txt Hne [Hrev _].
    destruct Hrev as (l1 & l2 & l3 & E).
    - now exists [], [], [].
    - destruct l1 as [|u l1]; simpl in E.
      + inversion E. now apply Hne.
      + destruct l1 as [|v l1]; simpl in E.
        * inversion E as [[E1 E2 E3]]. now destruct l2.
        * inversion E as [[E1 E2 E3]]. now destruct l1. }
  cbv zeta.
  repeat split; try reflexivity; apply H; discriminate.
Qed.

(** C4, amended.  The reverse flag negates the comparison of the keys and
    nothing else.  Size sort of the tool with HTML output, and any two
    nodes of the same kind under either key in both programs: the
    comparator with the flag is the negation of the comparator without it,
    which for different keys means that [a] goes before [b] with the flag
    exactly when [b] goes before [a] without it.  The directories-first
    test is decided before the flag is read: a directory goes before a
    file for either value of the flag, under the name key in the tool with
    HTML output and under both keys in the console-only tool.

    So much for the closure; now the sorted lists.  The closure with the
    flag is no strict weak ordering, so the contract of [sort.Slice] is
    silent; a directory of at most six entries is sorted by insertion in
    every release of Go, and of each such directory, whatever the other
    directories of the tree hold: with the flag the name sort lists the
    directories first and the names of each kind in descending order; the
    size sort lists the sizes in ascending order, in the console-only
    tool after putting the directories first; and two siblings with
    different keys, of one kind where the kind is looked at, stand in
    the opposite order with and without the flag. *)
Theorem reverse_negates_key_comparison_only :
  forall (lib : GoLib),
    (forall a b,
        HtmlTool.less SortBySize true a b
        = negb (HtmlTool.less SortBySize false a b)) /\
    (forall st a b,
        IsDir a = IsDir b ->
        HtmlTool.less st true a b = negb (HtmlTool.less st false a b) /\
        ConsoleTool.less st true a b = negb (ConsoleTool.less st false a b)) /\
    (forall a b,
        Size a <> Size b ->
        HtmlTool.less SortBySize true a b
        = HtmlTool.less SortBySize false b a /\
        (IsDir a = IsDir b ->
         ConsoleTool.less SortBySize true a b
         = ConsoleTool.less SortBySize false b a)) /\
    (forall a b,
        IsDir a = IsDir b ->
        strings_ToLower (Name a) <> strings_ToLower (Name b) ->
        HtmlTool.less SortByName true a b
        = HtmlTool.less SortByName false b a /\
        ConsoleTool.less SortByName true a b
        = ConsoleTool.less SortByName false b a) /\
    (forall r a b,
        IsDir a = true -> IsDir b = false ->
        HtmlTool.less SortByName r a b = true /\
        HtmlTool.less SortByName r b a = false) /\
    (forall st r a b,
        IsDir a = true -> IsDir b = false ->
        ConsoleTool.less st r a b = true /\
        ConsoleTool.less st r b a = false) /\
    (forall root,
        Forall (fun d => short d ->
                         ordered_by reverse_name_order (Children d))
               (directories (HtmlTool.sortFileTree root SortByName true)) /\
        Forall (fun d => short d ->
                         ordered_by reverse_name_order (Children d))
               (directories
                  (ConsoleTool.sortFileTree root SortByName true)) /\
        Forall (fun d => short d ->
                         ordered_by reverse_size_order (Children d))
               (directories (HtmlTool.sortFileTree root SortBySize true)) /\
        Forall (fun d => short d ->
                         ordered_by kind_then_reverse_size_order (Children d))
               (directories
                  (ConsoleTool.sortFileTree root SortBySize true))) /\
    (forall root,
        files_are_leaves root ->
        forall d,
          IsDir d = true -> short d ->
          (In d (nodes (HtmlTool.sortFileTree root SortByName true)) ->
           ordered_by reverse_name_order (Children d)) /\
          (In d (nodes (ConsoleTool.sortFileTree root SortByName true)) ->
           ordered_by reverse_name_order (Children d)) /\
          (In d (nodes (HtmlTool.sortFileTree root SortBySize true)) ->
           ordered_by reverse_size_order (Children d)) /\
          (In d (nodes (ConsoleTool.sortFileTree root SortBySize true)) ->
           ordered_by kind_then_reverse_size_order (Children d))) /\
    (forall root st fa fb,
        short root -> keys_differ st fa fb ->
        ((st = SortByName -> same_kind fa fb) ->
         reverse_mirrors_fields
           (Children (HtmlTool.sortFileTree root st true))
           (Children (HtmlTool.sortFileTree root st false)) fa fb) /\
        (same_kind fa fb ->
         reverse_mirrors_fields
           (Children (ConsoleTool.sortFileTree root st true))
           (Children (ConsoleTool.sortFileTree root st false)) fa fb)).
Proof.
  intro lib.
  split; [|split; [|split; [|split; [|split; [|split; [|split; [|split]]]]]]].
  - intros a b. reflexivity.
  - intros st a b H. split.
    + unfold HtmlTool.less. destruct st; [|reflexivity].
      rewrite H, Bool.eqb_reflx. reflexivity.
    + unfold ConsoleTool.less. rewrite H, Bool.eqb_reflx. reflexivity.
  - intros a b H.
    assert (E : negb (Size b <? Size a)%Z = (Size a <? Size b)%Z).
    { rewrite <- Z.leb_antisym.
      destruct (Z.leb_spec (Size a) (Size b)), (Z.ltb_spec (Size a) (Size b));
        try reflexivity; lia. }
    split; [exact E|]. intro K. unfold ConsoleTool.less.
    rewrite K, !Bool.eqb_reflx. exact E.
  - intros a b H Hne. split.
    + unfold HtmlTool.less. rewrite H, !Bool.eqb_reflx. cbn [negb].
      symmetry. now apply string_ltb_total.
    + unfold ConsoleTool.less. rewrite H, !Bool.eqb_reflx. cbn [negb].
      symmetry. now apply string_ltb_total.
  - intros r a b Ha Hb. unfold HtmlTool.less. now rewrite Ha, Hb.
  - intros st r a b Ha Hb. unfold ConsoleTool.less. now rewrite Ha, Hb.
  - intro root.
    rewrite !HtmlTool_sortFileTree_levels, !ConsoleTool_sortFileTree_levels.
    split; [|split; [|split]].
    + eapply Forall_impl;
        [|apply sort_levels_short_sorted,
                (HtmlTool_less_reverse_total SortByName)].
      intros d H Hs. now apply weakly_sorted_reverse_name_order, H.
    + eapply Forall_impl;
        [|apply sort_levels_short_sorted,
                (ConsoleTool_less_reverse_total SortByName)].
      intros d H Hs.
      now apply weakly_sorted_console_reverse_name_order, H.
    + eapply Forall_impl;
        [|apply sort_levels_short_sorted,
                (HtmlTool_less_reverse_total SortBySize)].
      intros d H Hs. now apply weakly_sorted_reverse_size_order, H.
    + eapply Forall_impl;
        [|apply sort_levels_short_sorted,
                (ConsoleTool_less_reverse_total SortBySize)].
      intros d H Hs.
      now apply weakly_sorted_kind_then_reverse_size_order, H.
  - intros root FL d Hd Hs.
    rewrite !HtmlTool_sortFileTree_levels, !ConsoleTool_sortFileTree_levels.
    split; [|split; [|split]]; intro Hin.
    + apply weakly_sorted_reverse_name_order.
      eapply sort_levels_short_sorted_all;
        [apply (HtmlTool_less_reverse_total SortByName)|exact FL|exact Hin
        |exact Hd|exact Hs].
    + apply weakly_sorted_console_reverse_name_order.
      eapply sort_levels_short_sorted_all;
        [apply (ConsoleTool_less_reverse_total SortByName)|exact FL|exact Hin
        |exact Hd|exact Hs].
    + apply weakly_sorted_reverse_size_order.
      eapply sort_levels_short_sorted_all;
        [apply (HtmlTool_less_reverse_total SortBySize)|exact FL|exact Hin
        |exact Hd|exact Hs].
    + apply weakly_sorted_kind_then_reverse_size_order.
      eapply sort_levels_short_sorted_all;
        [apply (ConsoleTool_less_reverse_total SortBySize)|exact FL|exact Hin
        |exact Hd|exact Hs].
  - intros root st fa fb Hs Hk.
    rewrite !HtmlTool_sortFileTree_levels, !ConsoleTool_sortFileTree_levels.
    split; intro Hkind.
    + apply short_directory_mirrors.
      * apply HtmlTool_less_keys.
      * destruct st;
          [apply HtmlTool_less_name_strict|apply HtmlTool_less_size_strict].
      * apply HtmlTool_less_reverse_total.
      * exact Hs.
      * eapply keys_differ_neq; exact Hk.
      * intros a b <- <-. split.
        -- now apply HtmlTool_less_opposite.
        -- apply HtmlTool_less_opposite; [now apply keys_differ_sym|].
           intro E. symmetry. now apply Hkind.
    + apply short_directory_mirrors.
      * apply ConsoleTool_less_keys.
      * apply ConsoleTool_less_strict.
      * apply ConsoleTool_less_reverse_total.
      * exact Hs.
      * eapply keys_differ_neq; exact Hk.
      * intros a b <- <-. split.
        -- now apply ConsoleTool_less_opposite.
        -- apply ConsoleTool_less_opposite; [now apply keys_differ_sym|].
           symmetry. exact Hkind.
Qed.

(** The theorem at a tree with a directory of seven entries and one of
    three: the one of three is in ascending order of size under the size
    key with the flag, whatever the other holds, and its entries of 10 and
    30 bytes stand in opposite orders with and without the flag. *)
Lemma reverse_negates_key_comparison_only_witness :
  let file name size := mkFileInfo name size false "" [] in
  let big :=
    mkFileInfo "big" 28 true ""
      [ file "a7" 7; file "a6" 6; file "a5" 5; file "a4" 4; file "a3" 3;
        file "a2" 2; file "a1" 1 ] in
  let few :=
    mkFileInfo "few" 60 true "" [ file "x" 10; file "y" 30; file "z" 20 ] in
  let root := mkFileInfo "r" 88 true "" [few; big] in
  let sorted r :=
    HtmlTool.sortFileTree (lib := reference_lib) root SortBySize r in
  let few_sorted r :=
    HtmlTool.sortFileTree (lib := reference_lib) few SortBySize r in
  ~ short big /\
  map Name (Children (few_sorted true)) = ["x"; "z"; "y"] /\
  map Name (Children (few_sorted false)) = ["y"; "z"; "x"] /\
  In (few_sorted true) (directories (sorted true)) /\
  ordered_by reverse_size_order (Children (few_sorted true)) /\
  reverse_mirrors_fields (Children (few_sorted true))
                         (Children (few_sorted false))
                         (fields (file "x" 10)) (fields (file "y" 30)).
Proof.
  cbv zeta.
  destruct (@reverse_negates_key_comparison_only reference_lib)
    as (_ & _ & _ & _ & _ & _ & L & _ & M).
  split; [unfold short; cbn; lia|].
  split; [reflexivity|]. split; [reflexivity|].
  split; [cbn; tauto|]. split.
  - destruct (L (mkFileInfo "r" 88 true ""
                   [ mkFileInfo "few" 60 true ""
                       [ mkFileInfo "x" 10 false "" [];
                         mkFileInfo "y" 30 false "" [];
                         mkFileInfo "z" 20 false "" [] ];
                     mkFileInfo "big" 28 true ""
                       [ mkFileInfo "a7" 7 false "" [];
                         mkFileInfo "a6" 6 false "" [];
                         mkFileInfo "a5" 5 false "" [];
                         mkFileInfo "a4" 4 false "" [];
                         mkFileInfo "a3" 3 false "" [];
                         mkFileInfo "a2" 2 false "" [];
                         mkFileInfo "a1" 1 false "" [] ] ]))
      as (_ & _ & S & _).
    rewrite Forall_forall in S. apply S.
    + cbn. tauto.
    + unfold short. cbn. lia.
  - assert (Hs : short (mkFileInfo "few" 60 true ""
                          [ mkFileInfo "x" 10 false "" [];
                            mkFileInfo "y" 30 false "" [];
                            mkFileInfo "z" 20 false "" [] ]))
      by (unfold short; cbn; lia).
    assert (Hk : keys_differ (lib := reference_lib) SortBySize
                   (fields (mkFileInfo "x" 10 false "" []))
                   (fields (mkFileInfo "y" 30 false "" [])))
      by (cbn; discriminate).
    destruct (M _ _ _ _ Hs Hk) as [Mh _]. apply Mh.
    intro E. discriminate E.
Defined.

(** C8.  Sorting the children of a node first and descending into them
    afterwards gives the tree that [sortFileTree] gives, which descends
    first; any tree, either key, either value of the flag, both
    programs. *)
Theorem sort_order_of_work_irrelevant :
  forall (lib : GoLib) (root : FileInfo) (st : SortType) (r : bool),
    sortFileTree_sort_first (HtmlTool.less st r) root
    = HtmlTool.sortFileTree root st r /\
    sortFileTree_sort_first (ConsoleTool.less st r) root
    = ConsoleTool.sortFileTree root st r.
Proof.
  intros lib root st r. unfold sortFileTree_sort_first. split.
  - rewrite HtmlTool_sortFileTree_levels.
    apply sort_then_descend_eq; [apply HtmlTool_less_keys|lia].
  - rewrite ConsoleTool_sortFileTree_levels.
    apply sort_then_descend_eq; [apply ConsoleTool_less_keys|lia].
Qed.

(** C9.  [sortFileTree] only permutes: the sorted tree is the given tree
    with children lists reordered, every node keeping its name, size, kind
    and path, and the nodes of the whole tree are the same; any tree,
    either key, either value of the flag, both programs. *)
Theorem sortFileTree_only_permutes :
  forall (lib : GoLib) (root : FileInfo) (st : SortType) (r : bool),
    (reordered root (HtmlTool.sortFileTree root st r) /\
     fields (HtmlTool.sortFileTree root st r) = fields root /\
     Permutation (map fields (nodes root))
                 (map fields (nodes (HtmlTool.sortFileTree root st r)))) /\
    (reordered root (ConsoleTool.sortFileTree root st r) /\
     fields (ConsoleTool.sortFileTree root st r) = fields root /\
     Permutation (map fields (nodes root))
                 (map fields (nodes (ConsoleTool.sortFileTree root st r)))).
Proof.
  intros lib root st r.
  rewrite HtmlTool_sortFileTree_levels, ConsoleTool_sortFileTree_levels.
  repeat split;
    first [apply sort_levels_reordered | apply sort_levels_fields
          | apply sort_levels_nodes].
Qed.

(* ================================================================== *)
(** ** Formatting sizes *)

Lemma round_half_even_nearest (num den : Z) :
  0 < den -> 2 * Z.abs (num - round_half_even num den * den) <= den.
Proof.
  intro Hden. unfold round_half_even.
  pose proof (Z.div_mod num den ltac:(lia)) as E.
  pose proof (Z.mod_pos_bound num den Hden) as B.
  set (q := num / den) in *. set (r := num mod den) in *.
  destruct (Z.ltb_spec (2 * r) den); [lia|].
  destruct (Z.ltb_spec den (2 * r)); [lia|].
  destruct (Z.even q); lia.
Qed.

Lemma round_half_even_nonneg (num den : Z) :
  0 <= num -> 0 < den -> 0 <= round_half_even num den.
Proof.
  intros Hn Hd. unfold round_half_even.
  assert (0 <= num / den) by (apply Z.div_pos; lia).
  destruct (2 * (num mod den) <? den)%Z; [lia|].
  destruct (den <? 2 * (num mod den))%Z; [lia|].
  destruct (Z.even (num / den)); lia.
Qed.

Lemma fmt_d_negative (n : Z) :
  n < 0 -> fmt_d n = String "-" (fmt_d (- n)).
Proof. destruct n; easy. Qed.

Lemma float64_of_int64_exact (n : Z) :
  Z.abs n < 2 ^ 53 -> float64_of_int64 n = n.
Proof.
  intro H. unfold float64_of_int64.
  destruct (Z.ltb_spec (Z.abs n) (2 ^ 53)); [reflexivity|lia].
Qed.

Lemma round_half_even_upper (num den : Z) :
  0 < den -> round_half_even num den <= num / den + 1.
Proof.
  intros Hd. unfold round_half_even.
  destruct (2 * (num mod den) <? den)%Z; [lia|].
  destruct (den <? 2 * (num mod den))%Z; [lia|].
  destruct (Z.even (num / den)); lia.
Qed.

(** From [2^53] on, [float64_of_int64] gives a number with a significand
    of at most 53 bits that is nearest to the integer. *)
Lemma float64_of_int64_nearest (n : Z) :
  2 ^ 53 <= Z.abs n ->
  let e := Z.log2 (Z.abs n) - 52 in
  exists m,
    float64_of_int64 n = m * 2 ^ e /\
    Z.abs m <= 2 ^ 53 /\
    2 * Z.abs (float64_of_int64 n - n) <= 2 ^ e.
Proof.
  intros Hbig e. unfold float64_of_int64. fold e.
  destruct (Z.ltb_spec (Z.abs n) (2 ^ 53)) as [Hlt|_]; [lia|].
  set (a := Z.abs n) in *.
  assert (Ha : 0 < a) by lia.
  assert (He : 1 <= e).
  { unfold e. assert (53 <= Z.log2 a) by (apply Z.log2_le_pow2; lia). lia. }
  assert (Hpow : 0 < 2 ^ e) by (apply Z.pow_pos_nonneg; lia).
  pose proof (Z.log2_spec a Ha) as [_ Hup].
  replace (Z.succ (Z.log2 a)) with (e + 53) in Hup by (unfold e; lia).
  rewrite Z.pow_add_r in Hup by lia.
  set (r := round_half_even a (2 ^ e)).
  assert (Hr0 : 0 <= r) by (apply round_half_even_nonneg; lia).
  assert (Hr1 : r <= 2 ^ 53).
  { pose proof (@round_half_even_upper a (2 ^ e) Hpow) as U. fold r in U.
    assert (a / 2 ^ e < 2 ^ 53) by (apply Z.div_lt_upper_bound; lia). lia. }
  pose proof (@round_half_even_nearest a (2 ^ e) Hpow) as Near. fold r in Near.
  exists (Z.sgn n * r). split; [ring|]. split.
  - rewrite Z.abs_mul. unfold a in Ha.
    destruct n; cbn [Z.sgn Z.abs] in *; lia.
  - unfold a in *. destruct n; cbn [Z.sgn Z.abs] in *; lia.
Qed.

(** The unit thresholds, as numbers. *)
Lemma unit_values :
  KB = 1024 /\ MB = 1024 ^ 2 /\ GB = 1024 ^ 3 /\ TB = 1024 ^ 4.
Proof. repeat split. Qed.


(** C10.  A negative size passes every threshold and is printed by [%d]:
    a minus sign, the digits of its absolute value, and [ B]. *)
Theorem formatSize_negative :
  forall n : Z,
    n < 0 ->
    formatSize n = (fmt_d n ++ " B")%string /\
    fmt_d n = String "-" (fmt_d (- n)).
Proof.
  intros n Hn. split; [|now apply fmt_d_negative].
  destruct unit_values as (EK & EM & EG & ET).
  unfold formatSize. rewrite EK, EM, EG, ET.
  repeat match goal with
         | |- context [(?a <=? ?b)%Z] => destruct (Z.leb_spec a b); try lia
         end.
  reflexivity.
Qed.

(** The theorem at [-5]. *)
Lemma formatSize_negative_witness :
  formatSize (-5) = "-5 B" /\ fmt_d (-5) = String "-" (fmt_d 5).
Proof. apply (@formatSize_negative (-5)). reflexivity. Defined.

(* ================================================================== *)
(** ** The console tree *)

Lemma string_append_assoc (a b c : string) :
  ((a ++ b) ++ c = a ++ b ++ c)%string.
Proof. induction a as [|x a IH]; simpl; [reflexivity|now rewrite IH]. Qed.

Lemma string_append_empty_r (a : string) : (a ++ "")%string = a.
Proof. induction a as [|x a IH]; simpl; [reflexivity|now rewrite IH]. Qed.

Lemma prefix_of_snoc (ancestors : list bool) (isLast : bool) :
  prefix_of (ancestors ++ [isLast])
  = (prefix_of ancestors ++ continuation isLast)%string.
Proof.
  unfold prefix_of. induction ancestors as [|a l IH]; simpl.
  - now rewrite string_append_empty_r.
  - rewrite string_append_assoc. f_equal. exact IH.
Qed.

(** Only the root has the empty prefix. *)
Lemma prefix_of_empty (ancestors : list bool) :
  String.eqb (prefix_of ancestors) ""
  = match ancestors with [] => true | _ :: _ => false end.
Proof. destruct ancestors as [|[|] l]; reflexivity. Qed.

Lemma tree_lines_unfold (rc : bool) (ancestors : list bool)
  (node : FileInfo) (isLast : bool) :
  tree_lines rc ancestors node isLast
  = node_line (prefix_of ancestors)
              (match ancestors with
               | [] => if rc then connector_of isLast else ""
               | _ :: _ => connector_of isLast
               end) node
    :: forest_lines rc (ancestors ++ [isLast]) (Children node).
Proof.
  destruct node as [n s d p cs]. cbn [tree_lines Children]. f_equal.
  induction cs as [|c cs IH]; [reflexivity|].
  cbn [forest_lines]. now rewrite IH.
Qed.

Section HtmlPrint.
Context {lib : GoLib}.

Lemma HtmlTool_print_unfold (node : FileInfo) (prefix : string)
  (isLast : bool) :
  HtmlTool.printFileTree node prefix isLast
  = node_line prefix
      (if String.eqb prefix "" then ""
       else if isLast then connector_last else connector_mid) node
    :: (fix range (children : list FileInfo) : list string :=
          match children with
          | [] => []
          | child :: rest =>
              HtmlTool.printFileTree child
                (prefix ++ continuation isLast)%string (is_last_index rest)
              ++ range rest
          end) (Children node).
Proof.
  destruct node as [n s d p cs]. cbn [HtmlTool.printFileTree Children].
  f_equal. destruct cs as [|c cs]; [reflexivity|].
  assert (E : (if String.eqb prefix ""
               then if isLast then indent_last else indent_mid
               else if isLast then (prefix ++ indent_last)%string
                    else (prefix ++ indent_mid)%string)
              = (prefix ++ continuation isLast)%string).
  { unfold continuation. destruct (String.eqb_spec prefix "") as [->|_];
      destruct isLast; reflexivity. }
  now rewrite E.
Qed.

Lemma HtmlTool_print_lines (node : FileInfo) :
  forall ancestors isLast,
    HtmlTool.printFileTree node (prefix_of ancestors) isLast
    = tree_lines false ancestors node isLast.
Proof.
  induction node as [n s d p cs IH] using FileInfo_tree_ind.
  intros ancestors isLast.
  rewrite HtmlTool_print_unfold, tree_lines_unfold, prefix_of_empty.
  f_equal.
  - destruct ancestors; reflexivity.
  - rewrite <- prefix_of_snoc. cbn [Children].
    induction IH as [|c l Hc Hl IHl]; [reflexivity|].
    cbn [forest_lines]. now rewrite Hc, IHl.
Qed.
End HtmlPrint.

Section ConsolePrint.
Context {lib : GoLib}.

Lemma ConsoleTool_print_unfold (node : FileInfo) (prefix : string)
  (isLast : bool) :
  String.eqb prefix "" = false ->
  ConsoleTool.printFileTree node prefix isLast
  = node_line prefix (connector_of isLast) node
    :: (fix range (children : list FileInfo) : list string :=
          match children with
          | [] => []
          | child :: rest =>
              ConsoleTool.printFileTree child
                (prefix ++ continuation isLast)%string (is_last_index rest)
              ++ range rest
          end) (Children node).
Proof.
  intro Hp. destruct node as [n s d p cs].
  cbn [ConsoleTool.printFileTree Children]. rewrite Hp.
  f_equal. destruct cs as [|c cs]; [reflexivity|].
  unfold continuation. destruct isLast; reflexivity.
Qed.

Lemma ConsoleTool_print_lines (node : FileInfo) :
  forall ancestors isLast,
    ancestors <> [] ->
    ConsoleTool.printFileTree node (prefix_of ancestors) isLast
    = tree_lines true ancestors node isLast.
Proof.
  induction node as [n s d p cs IH] using FileInfo_tree_ind.
  intros ancestors isLast Hne.
  assert (Hp : String.eqb (prefix_of ancestors) "" = false).
  { rewrite prefix_of_empty. destruct ancestors; [contradiction|reflexivity]. }
  rewrite (ConsoleTool_print_unfold _ _ _ Hp), tree_lines_unfold.
  f_equal.
  - destruct ancestors; [contradiction|reflexivity].
  - rewrite <- prefix_of_snoc. cbn [Children].
    assert (Hne' : ancestors ++ [isLast] <> []) by (now destruct ancestors).
    induction IH as [|c l Hc Hl IHl]; [reflexivity|].
    cbn [forest_lines]. now rewrite (Hc _ _ Hne'), IHl.
Qed.

Lemma ConsoleTool_display_grandchildren (isLast : bool)
  (grandChildren : list FileInfo) :
  ConsoleTool.display_grandchildren (continuation isLast) grandChildren
  = forest_lines true [isLast] grandChildren.
Proof.
  induction grandChildren as [|g rest IH]; [reflexivity|].
  cbn [ConsoleTool.display_grandchildren forest_lines]. rewrite IH.
  f_equal. rewrite <- ConsoleTool_print_lines by discriminate.
  f_equal. unfold prefix_of. cbn [map fold_right].
  now rewrite string_append_empty_r.
Qed.

Lemma ConsoleTool_display_children (children : list FileInfo) :
  ConsoleTool.display_children children = forest_lines true [] children.
Proof.
  induction children as [|c rest IH]; [reflexivity|].
  cbn [ConsoleTool.display_children forest_lines].
  rewrite tree_lines_unfold, IH. cbn [app]. f_equal.
  f_equal. destruct (is_last_index rest).
  + exact (ConsoleTool_display_grandchildren true (Children c)).
  + exact (ConsoleTool_display_grandchildren false (Children c)).
Qed.
End ConsolePrint.


(** What the console-only tool prints for the tree it builds of the
    example: the root line is the directory as given, the children of the
    root carry no prefix, and [locked] shows the size of its own record. *)
Lemma ConsoleTool_display_example :
  forall (lib : GoLib),
    ConsoleTool.display "/work" console_example_tree
    = [ "/work" ++ newline;
        "├── a.txt (10 B)" ++ newline;
        "├── locked/ (4.00 KB)" ++ newline;
        "├── broken (7 B)" ++ newline;
        "├── sub/ (11 B)" ++ newline;
        "│   ├── c (5 B)" ++ newline;
        "│   └── d (6 B)" ++ newline;
        "└── e (1 B)" ++ newline ]%string.
Proof. reflexivity. Qed.

(* ================================================================== *)
(** ** More on the walk *)

Lemma flat_map_ext_within (A B : Type) (f g : A -> list B) (l : list A) :
  (forall a, In a l -> f a = g a) -> flat_map f l = flat_map g l.
Proof.
  induction l as [|x l IH]; intro H; [reflexivity|].
  cbn [flat_map]. rewrite (H x (or_introl eq_refl)). f_equal.
  apply IH. intros a Ha. apply H. now right.
Qed.

Section HtmlBuildMore.
Context {lib : GoLib}.

Lemma HtmlTool_build_paths (fs : FsEntry) :
  forall node t,
    Children node = [] ->
    HtmlTool.buildFileTreeRecursive fs node = Some t ->
    paths_follow_names t.
Proof.
  induction fs as [n d i s r IH] using FsEntry_tree_ind.
  intros node t Hnil. rewrite HtmlTool_build_unfold.
  cbn [entStat entReadDir]. rewrite Hnil. unfold paths_follow_names.
  destruct s as [[[|] size]|]; [| |easy].
  - destruct r as [entries|]; [|easy]. cbn zeta. intros [= <-].
    cbn [nodes app Children Path]. constructor.
    + rewrite Forall_forall. intros c Hc.
      apply in_successes in Hc. destruct Hc as (e & He & Hb).
      apply HtmlTool_build_name in Hb. destruct Hb as [-> ->].
      reflexivity.
    + apply Forall_flat_map. rewrite Forall_forall. intros c Hc.
      apply in_successes in Hc. destruct Hc as (e & He & Hb).
      specialize (IH entries eq_refl). rewrite Forall_forall in IH.
      now apply (IH e He (child_node node e) c).
  - intros [= <-]. cbn [nodes flat_map Children].
    constructor; [constructor|constructor].
Qed.
End HtmlBuildMore.

Section ConsoleBuildMore.
Context {lib : GoLib}.

Lemma ConsoleTool_build_root (fs : FsEntry) (dirPath : string)
  (t : FileInfo) (err : bool) :
  ConsoleTool.buildFileTree fs dirPath = (Some t, err) ->
  Name t = filepath_Base dirPath /\ Path t = dirPath.
Proof.
  rewrite ConsoleTool_build_unfold.
  destruct (entStat fs) as [[[|] size]|]; cbn [negb]; [| |easy].
  - destruct (entReadDir fs); cbn zeta; intros [= <- <-]; now split.
  - cbn zeta. intros [= <- <-]. now split.
Qed.

Lemma ConsoleTool_build_none (fs : FsEntry) (dirPath : string) :
  fst (ConsoleTool.buildFileTree fs dirPath) = None <-> entStat fs = None.
Proof.
  rewrite ConsoleTool_build_unfold.
  destruct (entStat fs) as [[[|] size]|]; cbn [negb]; [| |easy].
  - destruct (entReadDir fs); easy.
  - easy.
Qed.

Lemma console_entry_path (dirPath : string) (e : FsEntry) (c : FileInfo) :
  console_entry dirPath e = Some c ->
  Path c = filepath_Join dirPath (entName e).
Proof.
  unfold console_entry. destruct (entInfo e) as [sz|]; [|easy].
  intros [= <-]. destruct (entIsDir e); [|reflexivity].
  destruct (ConsoleTool.buildFileTree e _) as [[sub|] [|]]; reflexivity.
Qed.

(** What a child of the console walk is made of. *)
Lemma console_entry_cases (dirPath : string) (e : FsEntry) (c : FileInfo) :
  console_entry dirPath e = Some c ->
  Children c = [] \/
  (IsDir c = true /\
   exists sub,
     ConsoleTool.buildFileTree e (filepath_Join dirPath (entName e))
     = (Some sub, false) /\
     Children c = Children sub).
Proof.
  unfold console_entry. destruct (entInfo e) as [sz|]; [|easy].
  intros [= <-]. destruct (entIsDir e); [|now left].
  destruct (ConsoleTool.buildFileTree e _) as [[sub|] [|]] eqn:Eb;
    try (now left).
  right. split; [reflexivity|]. exists sub. now split.
Qed.

Lemma ConsoleTool_build_paths (fs : FsEntry) :
  forall dirPath t err,
    ConsoleTool.buildFileTree fs dirPath = (Some t, err) ->
    paths_follow_names t.
Proof.
  induction fs as [n d i s r IH] using FsEntry_tree_ind.
  intros dirPath t err. rewrite ConsoleTool_build_unfold.
  cbn [entStat entReadDir]. unfold paths_follow_names.
  destruct s as [[[|] size]|]; cbn [negb]; [| |easy].
  - destruct r as [entries|]; cbn zeta; intros [= <- <-].
    + cbn [nodes Children Path]. constructor.
      * rewrite Forall_forall. intros c Hc.
        apply in_successes in Hc. destruct Hc as (e & He & Hb).
        rewrite (console_entry_path _ _ Hb).
        now rewrite (console_entry_name _ _ Hb).
      * apply Forall_flat_map. rewrite Forall_forall. intros c Hc.
        apply in_successes in Hc. destruct Hc as (e & He & Hb).
        specialize (IH entries eq_refl). rewrite Forall_forall in IH.
        pose proof (console_entry_path _ _ Hb) as Pc.
        destruct (console_entry_cases _ _ Hb) as [Hnil|(_ & sub & Eb & Ec)].
        { destruct c as [n' s' d' p' cs']. cbn [Children] in Hnil.
          subst cs'. cbn [nodes flat_map Children].
          constructor; [constructor|constructor]. }
        pose proof (IH e He _ _ _ Eb) as Hsub.
        destruct (ConsoleTool_build_root _ _ Eb) as [_ Ps].
        unfold paths_follow_names in Hsub.
        destruct sub as [n2 s2 d2 p2 cs2]. destruct c as [n' s' d' p' cs'].
        cbn [Children Path nodes] in *. subst cs' p2.
        apply Forall_cons_iff in Hsub. destruct Hsub as [Hhead Htail].
        constructor; [|exact Htail]. cbn [Children Path] in *.
        now rewrite Pc.
    + cbn [nodes flat_map Children].
      constructor; [constructor|constructor].
  - cbn zeta. intros [= <- <-]. cbn [nodes flat_map Children].
    constructor; [constructor|constructor].
Qed.

Lemma ConsoleTool_build_leaves (fs : FsEntry) :
  forall dirPath t err,
    ConsoleTool.buildFileTree fs dirPath = (Some t, err) ->
    files_are_leaves t.
Proof.
  induction fs as [n d i s r IH] using FsEntry_tree_ind.
  intros dirPath t err. rewrite ConsoleTool_build_unfold.
  cbn [entStat entReadDir]. unfold files_are_leaves.
  destruct s as [[[|] size]|]; cbn [negb]; [| |easy].
  - destruct r as [entries|]; cbn zeta; intros [= <- <-].
    + cbn [nodes]. constructor; [intro H; discriminate H|].
      apply Forall_flat_map. rewrite Forall_forall. intros c Hc.
      apply in_successes in Hc. destruct Hc as (e & He & Hb).
      specialize (IH entries eq_refl). rewrite Forall_forall in IH.
      destruct (console_entry_cases _ _ Hb) as [Hnil|(Hd & sub & Eb & Ec)].
      { destruct c as [n' s' d' p' cs']. cbn [Children] in Hnil.
        subst cs'. cbn [nodes flat_map]. constructor; [easy|constructor]. }
      pose proof (IH e He _ _ _ Eb) as Hsub.
      unfold files_are_leaves in Hsub.
      destruct sub as [n2 s2 d2 p2 cs2]. destruct c as [n' s' d' p' cs'].
      cbn [Children IsDir nodes] in *. subst cs' d'.
      apply Forall_inv_tail in Hsub.
      constructor; [intro H; discriminate H|exact Hsub].
    + cbn [nodes flat_map]. constructor; [easy|constructor].
  - cbn zeta. intros [= <- <-]. cbn [nodes flat_map].
    constructor; [easy|constructor].
Qed.
End ConsoleBuildMore.

Section HealthyWalk.
Context {lib : GoLib}.

(** On a healthy entry the console walk appends what the walk of the tool
    with HTML output builds. *)
Lemma healthy_entry_same (e : FsEntry) :
  healthy e = true ->
  forall node dirPath,
    Children node = [] -> Path node = dirPath ->
    console_entry dirPath e
    = HtmlTool.buildFileTreeRecursive e (child_node node e).
Proof.
  induction e as [n d i s r IH] using FsEntry_tree_ind.
  intros H node dirPath Hnil Hpath. cbn [healthy] in H.
  destruct i as [isz|]; [|discriminate H].
  destruct s as [[sd ssz]|]; [|discriminate H].
  apply andb_true_iff in H. destruct H as [Hk H].
  apply Bool.eqb_prop in Hk. subst sd.
  assert (Ec : child_node node (mkFsEntry n d (Some isz) (Some (d, ssz)) r)
               = mkFileInfo n 0 false (filepath_Join dirPath n) []).
  { unfold child_node. cbn [entName]. now rewrite Hpath. }
  rewrite Ec. clear Ec.
  unfold console_entry. cbn [entInfo entIsDir entName].
  rewrite HtmlTool_build_unfold, ConsoleTool_build_unfold.
  cbn [entStat entReadDir Name Path Children app].
  destruct d.
  - destruct r as [entries|]; [|discriminate H]. cbn [negb]. cbn zeta.
    cbn [Children].
    assert (E : successes
                  (console_entry (filepath_Join dirPath n)) entries
                = successes
                    (fun e0 =>
                       HtmlTool.buildFileTreeRecursive e0
                         (child_node
                            (mkFileInfo n 0 false (filepath_Join dirPath n)
                                        []) e0)) entries).
    { unfold successes. apply flat_map_ext_within. intros e0 He0.
      specialize (IH entries eq_refl). rewrite Forall_forall in IH.
      rewrite forallb_forall in H.
      now rewrite (IH e0 He0 (H e0 He0)
                      (mkFileInfo n 0 false (filepath_Join dirPath n) [])
                      (filepath_Join dirPath n) eq_refl eq_refl). }
    rewrite E. reflexivity.
  - apply Z.eqb_eq in H. subst ssz. reflexivity.
Qed.

Lemma healthy_root_same (fs : FsEntry) (path : string) :
  healthy_root fs = true ->
  ConsoleTool.buildFileTree fs path
  = (HtmlTool.buildFileTreeRecursive fs
       (mkFileInfo (filepath_Base path) 0 false path []),
     false).
Proof.
  unfold healthy_root. intro H.
  rewrite HtmlTool_build_unfold, ConsoleTool_build_unfold.
  destruct (entStat fs) as [[[|] size]|]; [| |discriminate H].
  - destruct (entReadDir fs) as [entries|]; [|discriminate H].
    cbn [negb]. cbn zeta. cbn [Children Name Path app].
    assert (E : successes (console_entry path) entries
                = successes
                    (fun e0 =>
                       HtmlTool.buildFileTreeRecursive e0
                         (child_node
                            (mkFileInfo (filepath_Base path) 0 false path [])
                            e0)) entries).
    { unfold successes. apply flat_map_ext_within. intros e0 He0.
      rewrite forallb_forall in H.
      now rewrite (healthy_entry_same e0 (H e0 He0)
                     (mkFileInfo (filepath_Base path) 0 false path [])
                     eq_refl eq_refl). }
    rewrite E. reflexivity.
  - reflexivity.
Qed.
End HealthyWalk.

(** X1.  Whether a walk fails is decided at its root alone.
    [buildFileTree] of the tool with HTML output returns an error exactly
    when [filepath.Abs] fails or the stat or the listing of the root
    fails; [buildFileTree] of the console-only tool returns an error
    exactly when the stat or the listing of the root fails, and a nil tree
    exactly when the stat fails.  No failure below the root reaches the
    caller. *)
Theorem walk_fails_only_at_the_root :
  forall (lib : GoLib) (fs : FsEntry) (path : string),
    (HtmlTool.buildFileTree fs path = None <->
     filepath_Abs path = None \/ unreadable fs = true) /\
    snd (ConsoleTool.buildFileTree fs path) = unreadable fs /\
    (fst (ConsoleTool.buildFileTree fs path) = None <-> entStat fs = None).
Proof.
  intros lib fs path. split; [|split].
  - unfold HtmlTool.buildFileTree.
    destruct (filepath_Abs path) as [absPath|].
    + rewrite HtmlTool_build_fails_iff. split; [now right|].
      intros [H|H]; [discriminate H|exact H].
    + split; [now left|reflexivity].
  - apply ConsoleTool_build_error.
  - apply ConsoleTool_build_none.
Qed.

(** X2.  In every tree that a walk returns, the path of a child is
    [filepath.Join] of the path of its parent and its own name.  The root
    of the tool with HTML output carries the absolute path and its base
    name; the root of the console-only tool carries the path as it was
    given, and the base name of that. *)
Theorem built_paths_follow_names :
  forall (lib : GoLib) (fs : FsEntry) (rootPath : string) (tree : FileInfo),
    (HtmlTool.buildFileTree fs rootPath = Some tree ->
     filepath_Abs rootPath = Some (Path tree) /\
     Name tree = filepath_Base (Path tree) /\
     paths_follow_names tree) /\
    (fst (ConsoleTool.buildFileTree fs rootPath) = Some tree ->
     Path tree = rootPath /\
     Name tree = filepath_Base rootPath /\
     paths_follow_names tree).
Proof.
  intros lib fs rootPath tree. split.
  - unfold HtmlTool.buildFileTree.
    destruct (filepath_Abs rootPath) as [absPath|]; [|easy]. intro H.
    destruct (HtmlTool_build_name _ _ H) as [Hn Hp].
    cbn [Name Path] in Hn, Hp. rewrite Hp, Hn. repeat split.
    eapply HtmlTool_build_paths; [|exact H]. reflexivity.
  - destruct (ConsoleTool.buildFileTree fs rootPath) as [[t|] err] eqn:E;
      [|easy].
    cbn [fst]. intros [= ->].
    destruct (ConsoleTool_build_root _ _ E) as [Hn Hp].
    repeat split; try assumption.
    exact (ConsoleTool_build_paths _ _ E).
Qed.

(** The theorem at the example: both walks of [/work]. *)
Lemma built_paths_follow_names_witness :
  paths_follow_names (lib := reference_lib) example_tree /\
  paths_follow_names (lib := reference_lib) console_example_tree.
Proof.
  split.
  - apply (proj1 (@built_paths_follow_names
                    reference_lib example_fs "/work" example_tree)).
    reflexivity.
  - apply (proj2 (@built_paths_follow_names
                    reference_lib example_fs "/work" console_example_tree)).
    reflexivity.
Defined.

(** X3.  In every tree that a walk returns, of either program, only
    directory nodes have children. *)
Theorem built_files_are_leaves :
  forall (lib : GoLib) (fs : FsEntry) (rootPath : string) (tree : FileInfo),
    (HtmlTool.buildFileTree fs rootPath = Some tree ->
     files_are_leaves tree) /\
    (fst (ConsoleTool.buildFileTree fs rootPath) = Some tree ->
     files_are_leaves tree).
Proof.
  intros lib fs rootPath tree. split.
  - apply HtmlTool_built_tree_files_are_leaves.
  - destruct (ConsoleTool.buildFileTree fs rootPath) as [[t|] err] eqn:E;
      [|easy].
    cbn [fst]. intros [= ->]. exact (ConsoleTool_build_leaves _ _ E).
Qed.

(** The theorem at the example: both walks of [/work]. *)
Lemma built_files_are_leaves_witness :
  files_are_leaves example_tree /\ files_are_leaves console_example_tree.
Proof.
  split.
  - apply (proj1 (@built_files_are_leaves
                    reference_lib example_fs "/work" example_tree)).
    reflexivity.
  - apply (proj2 (@built_files_are_leaves
                    reference_lib example_fs "/work" console_example_tree)).
    reflexivity.
Defined.

(** X4.  Where nothing fails and the record of every entry agrees with
    [os.Stat], the two programs build the same tree: the console-only walk
    of [path] returns, without error, the tree that the recursive walk of
    the tool with HTML output makes of a root with the base name and the
    path [path]; and so, when [filepath.Abs] leaves [path] as it is, the
    two [buildFileTree] agree. *)
Theorem healthy_walks_agree :
  forall (lib : GoLib) (fs : FsEntry) (path : string),
    healthy_root fs = true ->
    ConsoleTool.buildFileTree fs path
    = (HtmlTool.buildFileTreeRecursive fs
         (mkFileInfo (filepath_Base path) 0 false path []),
       false) /\
    (filepath_Abs path = Some path ->
     ConsoleTool.buildFileTree fs path
     = (HtmlTool.buildFileTree fs path, false)).
Proof.
  intros lib fs path H. split.
  - now apply healthy_root_same.
  - intro Habs. unfold HtmlTool.buildFileTree. rewrite Habs.
    now apply healthy_root_same.
Qed.

(** The theorem at a directory with a file and a subdirectory. *)
Lemma healthy_walks_agree_witness :
  let fs :=
    mkFsEntry "work" true (Some 4096) (Some (true, 4096))
      (Some [ plain_file "a.txt" 10;
              mkFsEntry "sub" true (Some 4096) (Some (true, 4096))
                        (Some [plain_file "c" 5; plain_file "d" 6]) ]) in
  ConsoleTool.buildFileTree (lib := reference_lib) fs "/work"
  = (HtmlTool.buildFileTreeRecursive (lib := reference_lib) fs
       (mkFileInfo "work" 0 false "/work" []),
     false) /\
  ConsoleTool.buildFileTree (lib := reference_lib) fs "/work"
  = (HtmlTool.buildFileTree (lib := reference_lib) fs "/work", false).
Proof.
  cbv zeta.
  destruct (@healthy_walks_agree reference_lib
              (mkFsEntry "work" true (Some 4096) (Some (true, 4096))
                 (Some [ plain_file "a.txt" 10;
                         mkFsEntry "sub" true (Some 4096)
                                   (Some (true, 4096))
                                   (Some [plain_file "c" 5;
                                          plain_file "d" 6]) ]))
              "/work" eq_refl) as [A B].
  split; [exact A|]. apply B. reflexivity.
Defined.

(* ================================================================== *)
(** ** The sizes of the console walk, entry by entry *)

Section ConsoleMade.
Context {lib : GoLib}.

Lemma flat_map_nodes_successes (build : FsEntry -> option FileInfo)
  (entries : list FsEntry) :
  flat_map nodes (successes build entries)
  = flat_map (fun e => match build e with
                       | Some c => nodes c
                       | None => []
                       end) entries.
Proof.
  unfold successes. induction entries as [|e l IH]; [reflexivity|].
  cbn [flat_map]. rewrite flat_map_app, IH. f_equal.
  destruct (build e); [cbn [flat_map]; apply app_nil_r|reflexivity].
Qed.

Lemma map_snd_flat_map (A : Type) (f : A -> list (FsEntry * FileInfo))
  (l : list A) :
  map snd (flat_map f l) = flat_map (fun a => map snd (f a)) l.
Proof.
  induction l as [|a l IH]; [reflexivity|].
  cbn [flat_map]. now rewrite map_app, IH.
Qed.

(** What the loop appends for an entry, by what the file system answers
    at it. *)
Lemma console_entry_unfold (dirPath : string) (e : FsEntry) :
  console_entry dirPath e =
  match entInfo e with
  | None => None
  | Some childSize =>
      let childPath := filepath_Join dirPath (entName e) in
      Some
        (if entIsDir e then
           match entStat e, entReadDir e with
           | Some (true, _), Some entries =>
               let children := successes (console_entry childPath) entries in
               mkFileInfo (entName e) (sum64 (map Size children)) true
                          childPath children
           | Some (true, _), None =>
               mkFileInfo (entName e) childSize true childPath []
           | Some (false, _), _ =>
               mkFileInfo (entName e) (sum64 []) true childPath []
           | None, _ => mkFileInfo (entName e) childSize true childPath []
           end
         else mkFileInfo (entName e) childSize false childPath [])
  end.
Proof.
  unfold console_entry. destruct (entInfo e) as [sz|]; [|reflexivity].
  cbn zeta. f_equal. destruct (entIsDir e); [|reflexivity].
  rewrite ConsoleTool_build_unfold.
  destruct (entStat e) as [[[|] size]|]; cbn [negb]; [|reflexivity..].
  destruct (entReadDir e); reflexivity.
Qed.

(** The nodes made of an entry are the nodes of the child appended for
    it, in order. *)
Lemma console_made_nodes (e : FsEntry) :
  forall dirPath,
    map snd (console_made dirPath e)
    = match console_entry dirPath e with
      | Some c => nodes c
      | None => []
      end.
Proof.
  induction e as [n d i s r IH] using FsEntry_tree_ind.
  intro dirPath. cbn [console_made].
  rewrite console_entry_unfold. cbn [entInfo entIsDir entStat entReadDir
                                     entName].
  destruct i as [sz|]; [|reflexivity]. cbn zeta. cbn [map snd].
  destruct d; [|reflexivity].
  destruct s as [[[|] size]|]; [|reflexivity..].
  destruct r as [entries|]; [|reflexivity].
  cbn [nodes]. f_equal.
  rewrite map_snd_flat_map, flat_map_nodes_successes.
  apply flat_map_ext_within. intros e' He'.
  specialize (IH entries eq_refl). rewrite Forall_forall in IH.
  apply (IH e' He').
Qed.

Lemma console_made_node_of (e : FsEntry) :
  forall dirPath, Forall console_node_of (console_made dirPath e).
Proof.
  induction e as [n d i s r IH] using FsEntry_tree_ind.
  intro dirPath. cbn [console_made].
  rewrite console_entry_unfold. cbn [entInfo entIsDir entStat entReadDir
                                     entName].
  destruct i as [sz|]; [|constructor]. cbn zeta.
  constructor.
  - unfold console_node_of, unreadable.
    cbn [entName entIsDir entStat entReadDir entInfo].
    destruct d.
    + destruct s as [[[|] size]|]; [destruct r as [entries|]| |];
        cbn [Name IsDir Children Size];
        (split; [reflexivity|]); (split; [reflexivity|]);
        (split; [|split]); intros; try discriminate;
        try (split; reflexivity);
        now apply size_is_sum_intro.
    + cbn [Name IsDir Children Size].
      (split; [reflexivity|]); (split; [reflexivity|]);
      (split; [|split]); intros; try discriminate. split; reflexivity.
  - destruct d; [|constructor].
    destruct s as [[[|] size]|]; [|constructor..].
    destruct r as [entries|]; [|constructor].
    apply Forall_flat_map. rewrite Forall_forall. intros e' He'.
    specialize (IH entries eq_refl). rewrite Forall_forall in IH.
    apply (IH e' He').
Qed.

(** The same for a whole walk that returns a tree. *)
Lemma console_made_below_nodes (fs : FsEntry) (rootPath : string)
  (tree : FileInfo) (err : bool) :
  ConsoleTool.buildFileTree fs rootPath = (Some tree, err) ->
  map snd (console_made_below fs rootPath)
  = flat_map nodes (Children tree) /\
  Forall console_node_of (console_made_below fs rootPath).
Proof.
  rewrite ConsoleTool_build_unfold. unfold console_made_below.
  destruct (entStat fs) as [[[|] size]|]; cbn [negb]; [| |easy].
  - destruct (entReadDir fs) as [entries|]; cbn zeta; intros [= <- <-];
      cbn [Children flat_map map]; [|split; [reflexivity|constructor]].
    split.
    + rewrite map_snd_flat_map, flat_map_nodes_successes.
      apply flat_map_ext_within. intros e _. apply console_made_nodes.
    + apply Forall_flat_map. rewrite Forall_forall. intros e _.
      apply console_made_node_of.
  - cbn zeta. intros [= <- <-]. cbn [Children flat_map map].
    split; [reflexivity|constructor].
Qed.
End ConsoleMade.

(** C1, amended.  In every tree that [buildFileTree] of the tool with HTML
    output returns, the size of every directory node is the sum of the
    sizes of the children in its list: the int64 sum of the loop, which is
    the exact sum whenever that fits into an int64.  In every tree that
    [buildFileTree] of the console-only tool returns without error, the
    same holds of the root and of every directory node but those made of
    an entry whose stat or listing fails: the nodes below the root are,
    in order, the nodes made of the entries of the file system, and the
    node of a directory entry that can be walked carries the sum of its
    children, 0 when it has none, while the node of a directory entry
    whose stat or listing fails has no children and the size of the
    entry's own record, as the node of a file has. *)
Theorem directory_size_is_sum_of_children :
  forall (lib : GoLib) (fs : FsEntry) (rootPath : string) (tree : FileInfo),
    (HtmlTool.buildFileTree fs rootPath = Some tree ->
     Forall size_is_sum (nodes tree)) /\
    (ConsoleTool.buildFileTree fs rootPath = (Some tree, false) ->
     size_is_sum tree /\
     Forall listed_size_is_sum (nodes tree) /\
     nodes tree = tree :: map snd (console_made_below fs rootPath) /\
     Forall console_node_of (console_made_below fs rootPath)).
Proof.
  intros lib fs rootPath tree. split.
  - unfold HtmlTool.buildFileTree.
    destruct (filepath_Abs rootPath) as [absPath|]; [|easy].
    now apply HtmlTool_build_sizes.
  - intro H. destruct (ConsoleTool_build_listed fs _ H) as [L R].
    destruct (console_made_below_nodes fs _ H) as [M N].
    split; [now apply R|]. split; [exact L|]. split; [|exact N].
    rewrite M. destruct tree; reflexivity.
Qed.

(** The theorem at the example, both walks of [/work], and at a directory
    with an empty subdirectory and one that cannot be listed: the empty
    one has size 0, the other the 4096 bytes of its record. *)
Lemma directory_size_is_sum_of_children_witness :
  (Forall size_is_sum (nodes example_tree) /\
   size_is_sum console_example_tree /\
   Forall listed_size_is_sum (nodes console_example_tree) /\
   nodes console_example_tree
   = console_example_tree
     :: map snd (console_made_below (lib := reference_lib)
                   example_fs "/work") /\
   Forall console_node_of
          (console_made_below (lib := reference_lib) example_fs "/work")) /\
  (let tree :=
     mkFileInfo "work" 4096 true "/work"
       [ mkFileInfo "empty" 0 true "/work/empty" [];
         mkFileInfo "locked" 4096 true "/work/locked" [] ] in
   ConsoleTool.buildFileTree (lib := reference_lib) sparse_fs "/work"
   = (Some tree, false) /\
   map (fun made => (entName (fst made), Size (snd made)))
       (console_made_below (lib := reference_lib) sparse_fs "/work")
   = [("empty", 0); ("locked", 4096)] /\
   nodes tree
   = tree :: map snd (console_made_below (lib := reference_lib)
                        sparse_fs "/work") /\
   Forall console_node_of
          (console_made_below (lib := reference_lib) sparse_fs "/work")).
Proof.
  split.
  - split.
    + apply (proj1 (@directory_size_is_sum_of_children
                      reference_lib example_fs "/work" example_tree)).
      reflexivity.
    + apply (proj2 (@directory_size_is_sum_of_children
                      reference_lib example_fs "/work"
                      console_example_tree)).
      reflexivity.
  - cbv zeta. split; [reflexivity|]. split; [reflexivity|].
    apply (proj2 (@directory_size_is_sum_of_children
                    reference_lib sparse_fs "/work"
                    (mkFileInfo "work" 4096 true "/work"
                       [ mkFileInfo "empty" 0 true "/work/empty" [];
                         mkFileInfo "locked" 4096 true "/work/locked" [] ]))).
    reflexivity.
Defined.

(* ================================================================== *)
(** ** More on sorting *)

Lemma Zsum_perm (l l' : list Z) : Permutation l l' -> Zsum l = Zsum l'.
Proof.
  induction 1 as [|x l l' _ IH|x y l|l l' l'' _ IH1 _ IH2]; simpl;
    [reflexivity|now rewrite IH|lia|now rewrite IH1].
Qed.

Lemma sum64_perm (l l' : list Z) : Permutation l l' -> sum64 l = sum64 l'.
Proof. intro H. now rewrite !sum64_wrap, (Zsum_perm H). Qed.

Lemma map_fields_Size (l : list FileInfo) :
  map Size l = map (fun f : string * Z * bool * string => snd (fst (fst f)))
                   (map fields l).
Proof. rewrite map_map. reflexivity. Qed.

Lemma size_is_sum_reads_level : reads_level size_is_sum.
Proof.
  intros d d' F Perm H Hd. unfold fields in F.
  injection F as En Es Ed Ep.
  assert (PS : Permutation (map Size (Children d)) (map Size (Children d'))).
  { rewrite !map_fields_Size. now apply Permutation_map. }
  destruct H as [H1 H2]; [congruence|].
  rewrite <- Es, <- (sum64_perm PS), <- (Zsum_perm PS). now split.
Qed.

Lemma listed_size_is_sum_reads_level : reads_level listed_size_is_sum.
Proof.
  intros d d' F Perm H Hne. apply (size_is_sum_reads_level F Perm).
  apply H. intro E. rewrite E in Perm. cbn [map] in Perm.
  apply Permutation_nil in Perm. apply map_eq_nil in Perm. now apply Hne.
Qed.

Lemma leaf_reads_level :
  reads_level (fun d => IsDir d = false -> Children d = []).
Proof.
  intros d d' F Perm H Hd. unfold fields in F.
  injection F as En Es Ed Ep.
  rewrite H in Perm by congruence. cbn [map] in Perm.
  apply Permutation_nil in Perm. now apply map_eq_nil in Perm.
Qed.

Lemma paths_reads_level {lib : GoLib} :
  reads_level
    (fun d => Forall (fun c => Path c = filepath_Join (Path d) (Name c))
                     (Children d)).
Proof.
  intros d d' F Perm H. unfold fields in F.
  injection F as En Es Ed Ep.
  assert (G : forall l p,
             Forall (fun c => Path c = filepath_Join p (Name c)) l <->
             Forall (fun f : string * Z * bool * string =>
                       snd f = filepath_Join p (fst (fst (fst f))))
                    (map fields l)).
  { intros l p. rewrite Forall_map. reflexivity. }
  rewrite G in H. rewrite G, <- Ep.
  revert H. apply Permutation_Forall. exact Perm.
Qed.

Section SortKeeps.
Context {lib : GoLib}.
Variable cmp : FileInfo -> FileInfo -> bool.
Variable P : FileInfo -> Prop.
Hypothesis P_level : reads_level P.

Lemma map_descend_fields (l : list FileInfo) :
  map fields (map (descend cmp) l) = map fields l.
Proof.
  rewrite map_map. apply map_ext. intro c. apply descend_fields.
Qed.

(** Sorting keeps such a property at every node. *)
Lemma sort_levels_keeps (t : FileInfo) :
  Forall P (nodes t) -> Forall P (nodes (sort_levels cmp t)).
Proof.
  induction t as [n s d p cs IH] using FileInfo_tree_ind.
  destruct cs as [|c cs]; [trivial|].
  change (sort_levels cmp (mkFileInfo n s d p (c :: cs)))
    with (mkFileInfo n s d p
            (sort_Slice cmp (map (descend cmp) (c :: cs)))).
  intro H. cbn [nodes] in H |- *.
  apply Forall_cons_iff in H. destruct H as [Hroot Hbelow].
  constructor.
  - revert Hroot. apply P_level; [reflexivity|]. cbn [Children].
    rewrite <- (map_descend_fields (c :: cs)).
    apply Permutation_map, sort_Slice_perm.
  - assert (Hd : Forall P (flat_map nodes (map (descend cmp) (c :: cs)))).
    { rewrite Forall_flat_map in Hbelow. apply Forall_flat_map.
      rewrite Forall_map. rewrite Forall_forall in *.
      intros x Hx. unfold descend.
      destruct (IsDir x); [apply (IH x Hx)|]; rewrite Forall_forall;
        apply Forall_forall, (Hbelow x Hx). }
    revert Hd. apply Permutation_Forall, Permutation_flat_map.
    apply sort_Slice_perm.
Qed.
End SortKeeps.

Section ComparatorsMore.
Context {lib : GoLib}.

Lemma HtmlTool_less_reverse_refl (st : SortType) (a : FileInfo) :
  HtmlTool.less st true a a = true.
Proof.
  unfold HtmlTool.less. destruct st.
  - rewrite Bool.eqb_reflx. cbn [negb].
    destruct (String.ltb _ _) eqn:E; [|reflexivity].
    pose proof (string_ltb_asym _ _ E). congruence.
  - rewrite Z.ltb_irrefl. reflexivity.
Qed.

Lemma ConsoleTool_less_reverse_refl (st : SortType) (a : FileInfo) :
  ConsoleTool.less st true a a = true.
Proof.
  unfold ConsoleTool.less. rewrite Bool.eqb_reflx. cbn [negb]. destruct st.
  - destruct (String.ltb _ _) eqn:E; [|reflexivity].
    pose proof (string_ltb_asym _ _ E). congruence.
  - rewrite Z.ltb_irrefl. reflexivity.
Qed.

Lemma HtmlTool_less_strict (st : SortType) :
  StrictWeak (HtmlTool.less st false).
Proof.
  destruct st;
    [apply HtmlTool_less_name_strict|apply HtmlTool_less_size_strict].
Qed.
End ComparatorsMore.

(** X5.  Sorting keeps a tree well formed.  After [sortFileTree] of
    either program, with any key and flag: if every directory carried the
    sum of its children's sizes, it still does (also when only the
    directories with children did); if only directories had children,
    that is still so; and if every child's path was the join of its
    parent's path and its name, that is still so. *)
Theorem sortFileTree_keeps_tree_well_formed :
  forall (lib : GoLib) (root sorted : FileInfo) (st : SortType) (r : bool),
    sorted = HtmlTool.sortFileTree root st r \/
    sorted = ConsoleTool.sortFileTree root st r ->
    (Forall size_is_sum (nodes root) -> Forall size_is_sum (nodes sorted)) /\
    (Forall listed_size_is_sum (nodes root) ->
     Forall listed_size_is_sum (nodes sorted)) /\
    (files_are_leaves root -> files_are_leaves sorted) /\
    (paths_follow_names root -> paths_follow_names sorted).
Proof.
  intros lib root sorted st r H.
  assert (E : exists cmp, sorted = sort_levels cmp root).
  { destruct H as [-> | ->].
    - eexists. apply HtmlTool_sortFileTree_levels.
    - eexists. apply ConsoleTool_sortFileTree_levels. }
  destruct E as [cmp ->]. unfold files_are_leaves, paths_follow_names.
  split; [|split; [|split]]; apply sort_levels_keeps.
  - exact size_is_sum_reads_level.
  - exact listed_size_is_sum_reads_level.
  - exact leaf_reads_level.
  - exact paths_reads_level.
Qed.

(** The theorem at the example tree, sorted by size with the flag. *)
Lemma sortFileTree_keeps_tree_well_formed_witness :
  let sorted :=
    HtmlTool.sortFileTree (lib := reference_lib) example_tree SortBySize true
  in
  map Name (Children sorted) = ["e"; "a.txt"; "sub"] /\
  Forall size_is_sum (nodes sorted) /\
  files_are_leaves sorted /\
  paths_follow_names (lib := reference_lib) sorted.
Proof.
  cbv zeta. split; [reflexivity|].
  destruct (@sortFileTree_keeps_tree_well_formed
              reference_lib example_tree
              (HtmlTool.sortFileTree (lib := reference_lib)
                 example_tree SortBySize true)
              SortBySize true (or_introl eq_refl)) as (S1 & _ & S3 & S4).
  split; [|split].
  - apply S1.
    eapply (@HtmlTool_build_sizes reference_lib example_fs example_root);
      reflexivity.
  - apply S3.
    eapply (@HtmlTool_build_leaves reference_lib example_fs example_root);
      reflexivity.
  - apply S4.
    eapply (@HtmlTool_build_paths reference_lib example_fs example_root);
      reflexivity.
Defined.

(** X6.  The closure that [sortFileTree] hands to [sort.Slice] is a
    strict weak ordering, as [sort.Slice] asks, exactly when the reverse
    flag is off.  With the flag it answers true for a node against
    itself.  Both programs, both keys. *)
Theorem less_is_strict_exactly_without_reverse :
  forall (lib : GoLib) (st : SortType) (r : bool),
    (StrictWeak (HtmlTool.less st r) <-> r = false) /\
    (StrictWeak (ConsoleTool.less st r) <-> r = false) /\
    (forall a, HtmlTool.less st true a a = true) /\
    (forall a, ConsoleTool.less st true a a = true).
Proof.
  intros lib st r.
  pose (a := mkFileInfo "" 0 false "" []).
  split; [|split; [|split]].
  - split.
    + intros [A _]. destruct r; [|reflexivity].
      pose proof (HtmlTool_less_reverse_refl st a) as E.
      rewrite (A a a E) in E. discriminate E.
    + intros ->. apply HtmlTool_less_strict.
  - split.
    + intros [A _]. destruct r; [|reflexivity].
      pose proof (ConsoleTool_less_reverse_refl st a) as E.
      rewrite (A a a E) in E. discriminate E.
    + intros ->. apply ConsoleTool_less_strict.
  - apply HtmlTool_less_reverse_refl.
  - apply ConsoleTool_less_reverse_refl.
Qed.

(** X7.  Under the name key the two programs sort alike: their closures
    are the same function, and [sortFileTree] gives the same tree, with
    and without the reverse flag. *)
Theorem name_sort_same_in_both_programs :
  forall (lib : GoLib) (root : FileInfo) (r : bool),
    (forall a b,
        ConsoleTool.less SortByName r a b = HtmlTool.less SortByName r a b) /\
    ConsoleTool.sortFileTree root SortByName r
    = HtmlTool.sortFileTree root SortByName r.
Proof.
  intros lib root r. split; [reflexivity|].
  rewrite ConsoleTool_sortFileTree_levels, HtmlTool_sortFileTree_levels.
  reflexivity.
Qed.

(** X18.  [calculateDirSize] of the console-only tool adds up the sizes
    of the direct children of a directory and nothing else: it gives the
    own size for a node that is no directory, the int64 sum of the
    children's sizes for a directory, whatever size the directory itself
    carries, and the same number after [sortFileTree] has reordered the
    tree. *)
Theorem calculateDirSize_sums_direct_children :
  forall (lib : GoLib) (dir : FileInfo) (st : SortType) (r : bool),
    (IsDir dir = false -> ConsoleTool.calculateDirSize dir = Size dir) /\
    (IsDir dir = true ->
     ConsoleTool.calculateDirSize dir = sum64 (map Size (Children dir))) /\
    ConsoleTool.calculateDirSize (ConsoleTool.sortFileTree dir st r)
    = ConsoleTool.calculateDirSize dir.
Proof.
  intros lib dir st r. split; [|split].
  - intro H. unfold ConsoleTool.calculateDirSize. now rewrite H.
  - apply calculateDirSize_dir.
  - rewrite ConsoleTool_sortFileTree_levels.
    pose proof (sort_levels_fields (ConsoleTool.less st r) dir) as F.
    unfold fields in F. injection F as En Es Ed Ep.
    unfold ConsoleTool.calculateDirSize. rewrite Ed, Es.
    destruct (IsDir dir); [|reflexivity]. cbn [negb].
    rewrite !fold_add64_sizes. apply sum64_perm.
    rewrite sort_levels_children, !map_fields_Size.
    apply Permutation_map. symmetry.
    rewrite <- (map_descend_fields (ConsoleTool.less st r) (Children dir)).
    apply Permutation_map, sort_Slice_perm.
Qed.

(* ================================================================== *)
(** ** More on formatting *)

Lemma round_half_even_lower (num den : Z) :
  num / den <= round_half_even num den.
Proof.
  unfold round_half_even.
  destruct (2 * (num mod den) <? den)%Z; [lia|].
  destruct (den <? 2 * (num mod den))%Z; [lia|].
  destruct (Z.even (num / den)); lia.
Qed.

(** From [2^53] on the conversion to float64 stays at or above [2^53]. *)
Lemma float64_of_int64_large (n : Z) :
  2 ^ 53 <= n -> 2 ^ 53 <= float64_of_int64 n.
Proof.
  intro Hbig. unfold float64_of_int64.
  rewrite (Z.abs_eq n) by lia.
  destruct (Z.ltb_spec n (2 ^ 53)) as [Hlt|_]; [lia|].
  set (e := Z.log2 n - 52).
  assert (Hn : 0 < n) by lia.
  assert (He : 1 <= e).
  { unfold e. assert (53 <= Z.log2 n) by (apply Z.log2_le_pow2; lia). lia. }
  assert (Hpow : 0 < 2 ^ e) by (apply Z.pow_pos_nonneg; lia).
  pose proof (Z.log2_spec n Hn) as [Hlow _].
  replace (Z.log2 n) with (52 + e) in Hlow by (unfold e; lia).
  rewrite Z.pow_add_r in Hlow by lia.
  pose proof (round_half_even_lower n (2 ^ e)) as Hr.
  assert (Hq : 2 ^ 52 <= n / 2 ^ e)
    by (apply Z.div_le_lower_bound; lia).
  rewrite Z.sgn_pos by lia.
  assert (H2 : 2 <= 2 ^ e)
    by (change 2 with (2 ^ 1) at 1; apply Z.pow_le_mono_r; lia).
  assert (2 ^ 52 * 2 <= round_half_even n (2 ^ e) * 2 ^ e)
    by (apply Z.mul_le_mono_nonneg; lia).
  change (2 ^ 53) with (2 ^ 52 * 2). lia.
Qed.

(** What [%.2f] prints for a value that is not negative, with the text
    that follows it. *)
Lemma fmt_2f_parts (num den : Z) (suffix : string) :
  0 <= num ->
  let h := round_half_even (num * 100) den in
  (fmt_2f num den ++ suffix)%string
  = (fmt_d (h / 100) ++ "."
     ++ String (digit_char (h / 10 mod 10))
          (String (digit_char (h mod 10)) suffix))%string.
Proof.
  intros Hnum h. unfold fmt_2f. rewrite (Z.abs_eq num) by lia. fold h.
  destruct (Z.ltb_spec num 0); [lia|].
  cbn [String.append]. rewrite string_append_assoc. reflexivity.
Qed.

(** The number that [%.2f] prints for [num / den] between 1 and 1024. *)
Lemma hundredths_bounds (num den : Z) :
  0 < den -> den <= num ->
  let h := round_half_even (num * 100) den in
  1 <= h / 100 /\
  0 <= h / 10 mod 10 <= 9 /\ 0 <= h mod 10 <= 9 /\
  (num < 1024 * den ->
   h / 100 <= 1024 /\
   (h / 100 = 1024 -> h / 10 mod 10 = 0 /\ h mod 10 = 0)).
Proof.
  intros Hden Hnum h.
  pose proof (round_half_even_lower (num * 100) den) as Hlow. fold h in Hlow.
  pose proof (@round_half_even_upper (num * 100) den Hden) as Hup.
  fold h in Hup.
  assert (Hq : 100 <= num * 100 / den)
    by (apply Z.div_le_lower_bound; lia).
  pose proof (Z.mod_pos_bound (h / 10) 10 ltac:(lia)).
  pose proof (Z.mod_pos_bound h 10 ltac:(lia)).
  split; [apply Z.div_le_lower_bound; lia|].
  split; [lia|]. split; [lia|].
  intro Hlt.
  assert (Hq' : num * 100 / den < 102400)
    by (apply Z.div_lt_upper_bound; lia).
  assert (Hh : h <= 102400) by lia.
  split.
  - apply Z.div_le_upper_bound; lia.
  - intro E.
    assert (102400 <= h).
    { pose proof (Z.div_mod h 100 ltac:(lia)) as D.
      pose proof (Z.mod_pos_bound h 100 ltac:(lia)). lia. }
    assert (Eh : h = 102400) by lia. rewrite Eh. split; reflexivity.
Qed.

Lemma list_ascii_of_string_app (a b : string) :
  list_ascii_of_string (a ++ b)%string
  = list_ascii_of_string a ++ list_ascii_of_string b.
Proof. induction a as [|c a IH]; simpl; [reflexivity|now rewrite IH]. Qed.

Lemma string_append_inv_tail (a b s : string) :
  (a ++ s)%string = (b ++ s)%string -> a = b.
Proof.
  intro H. apply (f_equal list_ascii_of_string) in H.
  rewrite !list_ascii_of_string_app in H. apply app_inv_tail in H.
  apply (f_equal string_of_list_ascii) in H.
  now rewrite !string_of_list_ascii_of_string in H.
Qed.

Lemma to_int_nonnil (n : Z) :
  Z.to_int n <> Decimal.Pos Decimal.Nil /\
  Z.to_int n <> Decimal.Neg Decimal.Nil.
Proof.
  destruct n as [|p|p]; cbn [Z.to_int]; split; try discriminate;
    intros [= E]; now apply DecimalPos.Unsigned.to_uint_nonnil in E.
Qed.

(** [%d] prints different integers differently. *)
Lemma fmt_d_inj (a b : Z) : fmt_d a = fmt_d b -> a = b.
Proof.
  unfold fmt_d. intro H. apply DecimalZ.to_int_inj.
  apply (f_equal NilZero.int_of_string) in H.
  destruct (to_int_nonnil a) as [A1 A2]. destruct (to_int_nonnil b) as [B1 B2].
  rewrite !NilZero.isi in H by assumption. now injection H.
Qed.

(** X8.  From 1 KiB on, the number that [formatSize] prints is at least
    1.00; below 1 TiB it is at most 1024.00, and 1024.00 is printed when
    the size is just below the next unit, for each of KB, MB and GB:
    rounding to two places never moves a size to the next unit. *)
Theorem formatSize_number_between_1_and_1024 :
  (forall size : Z,
      1024 <= size ->
      exists (unit : Z) (suffix : string) (whole d1 d2 : Z),
        In (unit, suffix) [(KB, " KB"); (MB, " MB"); (GB, " GB"); (TB, " TB")]
        /\ formatSize size
           = (fmt_d whole ++ "."
              ++ String (digit_char d1) (String (digit_char d2) suffix))%string
        /\ 1 <= whole /\ 0 <= d1 <= 9 /\ 0 <= d2 <= 9
        /\ (size < TB ->
            unit <= size < 1024 * unit /\
            whole <= 1024 /\ (whole = 1024 -> d1 = 0 /\ d2 = 0))) /\
  formatSize (MB - 1) = "1024.00 KB" /\
  formatSize (GB - 1) = "1024.00 MB" /\
  formatSize (TB - 1) = "1024.00 GB".
Proof.
  split; [|repeat split].
  intros size Hsize. destruct unit_values as (EK & EM & EG & ET).
  assert (Hf : 1024 <= float64_of_int64 size /\
               (size < TB -> float64_of_int64 size = size)).
  { destruct (Z.lt_ge_cases size (2 ^ 53)) as [Hs|Hs].
    - rewrite float64_of_int64_exact by lia. split; [lia|reflexivity].
    - pose proof (float64_of_int64_large Hs). split; [lia|].
      rewrite ET. lia. }
  destruct Hf as [Hf1 Hf2].
  unfold formatSize.
  destruct (Z.leb_spec TB size) as [H4|H4];
    [|destruct (Z.leb_spec GB size) as [H3|H3];
      [|destruct (Z.leb_spec MB size) as [H2|H2];
        [|destruct (Z.leb_spec KB size) as [H1|H1]; [|lia]]]].
  - exists TB, " TB". rewrite fmt_2f_parts by lia.
    assert (Hbig : TB <= float64_of_int64 size).
    { destruct (Z.lt_ge_cases size (2 ^ 53)) as [Hs|Hs].
      - rewrite float64_of_int64_exact by lia. exact H4.
      - pose proof (float64_of_int64_large Hs). rewrite ET. lia. }
    destruct (@hundredths_bounds (float64_of_int64 size) TB
                ltac:(rewrite ET; lia) Hbig) as (B1 & B2 & B3 & _).
    do 3 eexists. split; [cbn; tauto|]. split; [reflexivity|].
    repeat split; try (apply B1 || apply B2 || apply B3); lia.
  - exists GB, " GB". rewrite (Hf2 H4), fmt_2f_parts by lia.
    destruct (@hundredths_bounds size GB ltac:(rewrite EG; lia) H3)
      as (B1 & B2 & B3 & B4).
    do 3 eexists. split; [cbn; tauto|]. split; [reflexivity|].
    repeat split; try (apply B1 || apply B2 || apply B3);
      try (apply B4; rewrite EG; rewrite ET in H4; lia);
      try lia; rewrite EG; rewrite ET in H4; lia.
  - exists MB, " MB". rewrite (Hf2 H4), fmt_2f_parts by lia.
    destruct (@hundredths_bounds size MB ltac:(rewrite EM; lia) H2)
      as (B1 & B2 & B3 & B4).
    do 3 eexists. split; [cbn; tauto|]. split; [reflexivity|].
    repeat split; try (apply B1 || apply B2 || apply B3);
      try (apply B4; rewrite EM; rewrite EG in H3; lia);
      try lia; rewrite EM; rewrite EG in H3; lia.
  - exists KB, " KB". rewrite (Hf2 H4), fmt_2f_parts by lia.
    destruct (@hundredths_bounds size KB ltac:(rewrite EK; lia) H1)
      as (B1 & B2 & B3 & B4).
    do 3 eexists. split; [cbn; tauto|]. split; [reflexivity|].
    repeat split; try (apply B1 || apply B2 || apply B3);
      try (apply B4; rewrite EK; rewrite EM in H2; lia);
      try lia; rewrite EK; rewrite EM in H2; lia.
Qed.

(** X9.  Below 1 KiB [formatSize] shows the size itself: two different
    sizes never get the same text, negative ones included.  From 1 KiB on
    that is lost, 1024 and 1029 bytes are both 1.00 KB. *)
Theorem formatSize_exact_below_1_KiB :
  (forall a b : Z,
      a < 1024 -> b < 1024 -> formatSize a = formatSize b -> a = b) /\
  formatSize 1024 = "1.00 KB" /\ formatSize 1029 = "1.00 KB".
Proof.
  split; [|split; reflexivity].
  intros a b Ha Hb. destruct unit_values as (EK & EM & EG & ET).
  unfold formatSize. rewrite EK, EM, EG, ET.
  repeat match goal with
         | |- context [(?x <=? ?y)%Z] => destruct (Z.leb_spec x y); try lia
         end.
  intro Heq. apply string_append_inv_tail in Heq. now apply fmt_d_inj.
Qed.

(** The theorem at 1536 bytes. *)
Lemma formatSize_number_between_1_and_1024_witness :
  exists (unit : Z) (suffix : string) (whole d1 d2 : Z),
    In (unit, suffix) [(KB, " KB"); (MB, " MB"); (GB, " GB"); (TB, " TB")]
    /\ formatSize 1536
       = (fmt_d whole ++ "."
          ++ String (digit_char d1) (String (digit_char d2) suffix))%string
    /\ 1 <= whole /\ 0 <= d1 <= 9 /\ 0 <= d2 <= 9
    /\ (1536 < TB ->
        unit <= 1536 < 1024 * unit /\
        whole <= 1024 /\ (whole = 1024 -> d1 = 0 /\ d2 = 0)).
Proof.
  apply (proj1 formatSize_number_between_1_and_1024 1536). lia.
Defined.

(* ================================================================== *)
(** ** More on the console tree *)

Lemma node_line_label (prefix connector : string) (node : FileInfo) :
  node_line prefix connector node
  = ((prefix ++ connector) ++ label node)%string.
Proof.
  unfold node_line, label. rewrite string_append_assoc.
  destruct (IsDir node); reflexivity.
Qed.

Lemma node_line_shows (prefix connector : string) (node : FileInfo) :
  shows (node_line prefix connector node) node.
Proof. exists (prefix ++ connector)%string. apply node_line_label. Qed.

Lemma node_line_shift (shift prefix connector : string) (node : FileInfo) :
  node_line (shift ++ prefix) connector node
  = (shift ++ node_line prefix connector node)%string.
Proof.
  unfold node_line. destruct (IsDir node); now rewrite string_append_assoc.
Qed.

Section PrintMore.
Context {lib : GoLib}.

Lemma HtmlTool_print_shows (node : FileInfo) :
  forall prefix isLast,
    Forall2 shows (HtmlTool.printFileTree node prefix isLast) (nodes node).
Proof.
  induction node as [n s d p cs IH] using FileInfo_tree_ind.
  intros prefix isLast. rewrite HtmlTool_print_unfold.
  cbn [nodes Children]. constructor; [apply node_line_shows|].
  generalize (prefix ++ continuation isLast)%string as newPrefix.
  intro newPrefix.
  induction IH as [|c l Hc Hl IHl]; [constructor|].
  cbn [flat_map]. apply Forall2_app; [apply Hc|exact IHl].
Qed.

Lemma ConsoleTool_print_shows (node : FileInfo) :
  forall prefix isLast,
    Forall2 shows (ConsoleTool.printFileTree node prefix isLast)
            (nodes node).
Proof.
  induction node as [n s d p cs IH] using FileInfo_tree_ind.
  intros prefix isLast. cbn [ConsoleTool.printFileTree nodes Children].
  constructor; [apply node_line_shows|].
  set (newPrefix := if String.eqb prefix "" then ""%string
                    else if isLast then (prefix ++ indent_last)%string
                         else (prefix ++ indent_mid)%string).
  clearbody newPrefix.
  assert (E : forall (F : list FileInfo -> list string) l,
             F [] = [] ->
             match l with [] => [] | _ :: _ => F l end = F l)
    by (intros F [|x l] HF; [now rewrite HF|reflexivity]).
  rewrite E by reflexivity. clear E.
  induction IH as [|c l Hc Hl IHl]; [constructor|].
  cbn [flat_map]. apply Forall2_app; [apply Hc|exact IHl].
Qed.

Lemma ConsoleTool_display_shows (children : list FileInfo) :
  Forall2 shows (ConsoleTool.display_children children)
          (flat_map nodes children).
Proof.
  induction children as [|c rest IH]; [constructor|].
  cbn [ConsoleTool.display_children flat_map].
  destruct c as [n s d p gcs]. cbn [nodes Children].
  change ((mkFileInfo n s d p gcs :: flat_map nodes gcs)
          ++ flat_map nodes rest)
    with (mkFileInfo n s d p gcs
          :: (flat_map nodes gcs ++ flat_map nodes rest)).
  constructor; [apply node_line_shows|].
  apply Forall2_app; [|exact IH].
  generalize (if is_last_index rest then indent_last else indent_mid)
    as newPrefix.
  intro newPrefix. clear IH.
  induction gcs as [|g gs IHg]; [constructor|].
  cbn [ConsoleTool.display_grandchildren flat_map].
  apply Forall2_app; [apply ConsoleTool_print_shows|exact IHg].
Qed.
End PrintMore.

(** The lines below a first ancestor that was a last sibling are the
    lines without that ancestor, moved four spaces to the right. *)
Lemma tree_lines_shift (node : FileInfo) :
  forall ancestors isLast,
    tree_lines false (true :: ancestors) node isLast
    = map (String.append indent_last)
          (tree_lines true ancestors node isLast).
Proof.
  induction node as [n s d p cs IH] using FileInfo_tree_ind.
  intros ancestors isLast. rewrite !tree_lines_unfold. cbn [map Children].
  f_equal.
  - change (prefix_of (true :: ancestors))
      with (indent_last ++ prefix_of ancestors)%string.
    rewrite node_line_shift. now destruct ancestors.
  - change ((true :: ancestors) ++ [isLast])
      with (true :: (ancestors ++ [isLast])).
    generalize (ancestors ++ [isLast]) as below. intro below.
    induction IH as [|c l Hc Hl IHl]; [reflexivity|].
    cbn [forest_lines]. now rewrite map_app, Hc, IHl.
Qed.

Lemma forest_lines_shift (siblings : list FileInfo) (ancestors : list bool) :
  forest_lines false (true :: ancestors) siblings
  = map (String.append indent_last) (forest_lines true ancestors siblings).
Proof.
  induction siblings as [|c l IH]; [reflexivity|].
  cbn [forest_lines]. now rewrite map_app, tree_lines_shift, IH.
Qed.

(** X10.  [printFileTree] prints every node of the tree once, parents
    before children and siblings in the order of their list: line for
    line, the output is the list of the nodes, each line ending with the
    name, a slash for a directory, and the formatted size of its node.
    This holds for any prefix and flag, in both programs; in the
    console-only tool the same holds of what [main] prints below its
    first line, for the nodes below the root. *)
Theorem every_node_printed_once_in_preorder :
  forall (lib : GoLib) (root : FileInfo),
    (forall prefix isLast,
        Forall2 shows (HtmlTool.printFileTree root prefix isLast)
                (nodes root)) /\
    (forall prefix isLast,
        Forall2 shows (ConsoleTool.printFileTree root prefix isLast)
                (nodes root)) /\
    List.length (HtmlTool.console_output root) = List.length (nodes root) /\
    (forall targetDir,
        exists below,
          ConsoleTool.display targetDir root
          = (targetDir ++ newline)%string :: below /\
          Forall2 shows below (flat_map nodes (Children root))).
Proof.
  intros lib root. split; [|split; [|split]].
  - apply HtmlTool_print_shows.
  - apply ConsoleTool_print_shows.
  - apply (Forall2_length (HtmlTool_print_shows root "" true)).
  - intro targetDir. eexists. split; [reflexivity|].
    apply ConsoleTool_display_shows.
Qed.

(** X11.  The two programs draw the same tree below the root.  The tool
    with HTML output prints the line of the root, with its name and size,
    and below it, four spaces to the right, exactly the lines that the
    console-only tool prints below its first line, which is the directory
    as it was given. *)
Theorem console_trees_differ_by_the_root_line :
  forall (lib : GoLib) (root : FileInfo) (targetDir : string),
    HtmlTool.console_output root
    = node_line "" "" root
      :: map (String.append indent_last)
             (tl (ConsoleTool.display targetDir root)) /\
    hd ""%string (ConsoleTool.display targetDir root)
    = (targetDir ++ newline)%string.
Proof.
  intros lib root targetDir. split; [|reflexivity].
  unfold HtmlTool.console_output, ConsoleTool.display. cbn [tl].
  change ""%string with (prefix_of []) at 1.
  rewrite (HtmlTool_print_lines root [] true), tree_lines_unfold.
  rewrite ConsoleTool_display_children. cbn [app].
  now rewrite forest_lines_shift.
Qed.

(* ================================================================== *)
(** ** The JSON tree *)

Lemma convertToJSON_unfold (t : FileInfo) :
  HtmlTool.convertToJSON t
  = HtmlTool.mkJSONFileInfo (Name t) (Size t) (formatSize (Size t))
      (IsDir t) (Path t)
      (match Children t with
       | [] => None
       | _ :: _ => Some (map HtmlTool.convertToJSON (Children t))
       end).
Proof. destruct t as [n s d p cs]. reflexivity. Qed.

Lemma json_nodes_convertToJSON (t : FileInfo) :
  json_nodes (HtmlTool.convertToJSON t)
  = map HtmlTool.convertToJSON (nodes t).
Proof.
  induction t as [n s d p cs IH] using FileInfo_tree_ind.
  cbn [HtmlTool.convertToJSON nodes map json_nodes]. f_equal.
  destruct cs as [|c cs]; [reflexivity|].
  induction IH as [|x l Hx Hl IHl]; [reflexivity|].
  cbn [map flat_map]. now rewrite map_app, Hx, IHl.
Qed.

Lemma tree_of_json_convertToJSON (t : FileInfo) :
  tree_of_json (HtmlTool.convertToJSON t) = t.
Proof.
  induction t as [n s d p cs IH] using FileInfo_tree_ind.
  cbn [HtmlTool.convertToJSON tree_of_json]. f_equal.
  destruct cs as [|c cs]; [reflexivity|].
  induction IH as [|x l Hx Hl IHl]; [reflexivity|].
  cbn [map]. now rewrite Hx, IHl.
Qed.

(** X12.  The JSON tree mirrors the tree node for node: its nodes, parents
    before children, are the converted nodes of the tree in the same
    order; each carries the name, size, kind and path of its node
    unchanged, and as [sizeStr] the text that [formatSize] makes of that
    very size. *)
Theorem convertToJSON_mirrors_tree :
  forall t : FileInfo,
    json_nodes (HtmlTool.convertToJSON t)
    = map HtmlTool.convertToJSON (nodes t) /\
    map json_fields (json_nodes (HtmlTool.convertToJSON t))
    = map json_fields_of (nodes t) /\
    Forall (fun j => HtmlTool.json_sizeStr j
                     = formatSize (HtmlTool.json_size j))
           (json_nodes (HtmlTool.convertToJSON t)).
Proof.
  intro t. rewrite json_nodes_convertToJSON. split; [reflexivity|]. split.
  - rewrite map_map. apply map_ext. intro d.
    now rewrite convertToJSON_unfold.
  - rewrite Forall_map. apply Forall_forall. intros d _.
    now rewrite convertToJSON_unfold.
Qed.

(** X13.  Nothing of the tree is lost in the JSON tree: reading it back
    gives the tree again, so two different trees never convert to the same
    JSON tree. *)
Theorem convertToJSON_lossless :
  (forall t : FileInfo, tree_of_json (HtmlTool.convertToJSON t) = t) /\
  (forall t t' : FileInfo,
      HtmlTool.convertToJSON t = HtmlTool.convertToJSON t' -> t = t').
Proof.
  split; [apply tree_of_json_convertToJSON|].
  intros t t' H. apply (f_equal tree_of_json) in H.
  now rewrite !tree_of_json_convertToJSON in H.
Qed.

(** X14.  In the JSON tree the children of a node are a nil slice exactly
    when the node has no children, a file and an empty directory alike;
    no node anywhere in it has a slice that is allocated and empty; and a
    slice that is there holds the converted children, one for one. *)
Theorem convertToJSON_children_nil_or_nonempty :
  forall t : FileInfo,
    Forall2 (fun j d =>
               match HtmlTool.json_children j with
               | None => Children d = []
               | Some l =>
                   l <> [] /\ l = map HtmlTool.convertToJSON (Children d)
               end)
            (json_nodes (HtmlTool.convertToJSON t)) (nodes t) /\
    Forall (fun j => HtmlTool.json_children j <> Some [])
           (json_nodes (HtmlTool.convertToJSON t)).
Proof.
  intro t. rewrite json_nodes_convertToJSON. split.
  - induction (nodes t) as [|d l IH]; constructor; [|exact IH].
    rewrite convertToJSON_unfold. cbn [HtmlTool.json_children].
    destruct (Children d); [reflexivity|]. split; [discriminate|reflexivity].
  - rewrite Forall_map. apply Forall_forall. intros d _.
    rewrite convertToJSON_unfold. cbn [HtmlTool.json_children].
    destruct (Children d); discriminate.
Qed.

(* ================================================================== *)
(** ** The two [main] functions *)

Lemma label_of_fields (d d' : FileInfo) :
  fields d = fields d' -> label d = label d'.
Proof.
  unfold fields, label. intros [= En Es Ed Ep]. now rewrite En, Es, Ed.
Qed.

Lemma map_label_fields (l l' : list FileInfo) :
  Permutation (map fields l) (map fields l') ->
  Permutation (map label l) (map label l').
Proof.
  intro H.
  pose (g := fun f : string * Z * bool * string =>
               label (mkFileInfo (fst (fst (fst f))) (snd (fst (fst f)))
                                 (snd (fst f)) (snd f) [])).
  assert (E : forall k, map label k = map g (map fields k)).
  { intro k. rewrite map_map. apply map_ext. intro d.
    apply label_of_fields. destruct d; reflexivity. }
  rewrite !E. now apply Permutation_map.
Qed.

Lemma shows_carries (lines : list string) (l : list FileInfo) :
  Forall2 shows lines l -> Forall2 carries lines (map label l).
Proof. induction 1; constructor; assumption. Qed.

Section MainMore.
Context {lib : GoLib}.

Lemma HtmlTool_walk_fails_iff (fs : FsEntry) (path : string) :
  HtmlTool.buildFileTree fs path = None <->
  filepath_Abs path = None \/ unreadable fs = true.
Proof.
  unfold HtmlTool.buildFileTree.
  destruct (filepath_Abs path) as [absPath|].
  - rewrite HtmlTool_build_fails_iff. split; [now right|].
    intros [H|H]; [discriminate H|exact H].
  - split; [now left|reflexivity].
Qed.

Lemma HtmlTool_walk_succeeds_iff (fs : FsEntry) (path : string) :
  HtmlTool.buildFileTree fs path <> None <->
  filepath_Abs path <> None /\ unreadable fs = false.
Proof.
  rewrite HtmlTool_walk_fails_iff. destruct (filepath_Abs path) as [a|].
  - destruct (unreadable fs); split.
    + intro H. elim H. now right.
    + intros [_ H]. discriminate H.
    + intros _. split; [discriminate|reflexivity].
    + intros _ [H|H]; discriminate H.
  - split; [intro H; elim H; now left|]. intros [H _]. now elim H.
Qed.

(** The sort key that the tool with HTML output reads from the flag. *)
Lemma HtmlTool_sort_flag (sortBy : string) :
  (if String.eqb (strings_ToLower sortBy) "size" then Some SortBySize
   else if String.eqb (strings_ToLower sortBy) "name" then Some SortByName
        else None) <> None
  <-> valid_sort sortBy.
Proof.
  unfold valid_sort.
  destruct (String.eqb_spec (strings_ToLower sortBy) "size") as [E|E].
  - split; [now left|discriminate].
  - destruct (String.eqb_spec (strings_ToLower sortBy) "name") as [E'|E'].
    + split; [now right|discriminate].
    + split; [intro H; now elim H|]. intros [H|H]; contradiction.
Qed.

Lemma HtmlTool_print_nonempty (root : FileInfo) (prefix : string)
  (isLast : bool) :
  HtmlTool.printFileTree root prefix isLast <> [].
Proof. rewrite HtmlTool_print_unfold. discriminate. Qed.

Lemma lower_name : strings_ToLower "name" = "name".
Proof. now rewrite strings_ToLower_ascii. Qed.

(** Sorting permutes the labels of the nodes. *)
Lemma sort_levels_labels (cmp : FileInfo -> FileInfo -> bool)
  (t : FileInfo) :
  Permutation (map label (nodes (sort_levels cmp t))) (map label (nodes t)).
Proof. symmetry. apply map_label_fields, sort_levels_nodes. Qed.

Lemma sort_levels_labels_below (cmp : FileInfo -> FileInfo -> bool)
  (t : FileInfo) :
  Permutation (map label (flat_map nodes (Children (sort_levels cmp t))))
              (map label (flat_map nodes (Children t))).
Proof.
  pose proof (sort_levels_labels cmp t) as H.
  pose proof (sort_levels_fields cmp t) as F.
  destruct (sort_levels cmp t) as [n' s' d' p' cs'].
  destruct t as [n s d p cs]. cbn [nodes map Children] in *.
  rewrite (label_of_fields F) in H.
  now apply Permutation_cons_inv in H.
Qed.
End MainMore.

(** X15.  How a run of the tool with HTML output ends.  The status is 0
    or 1.  With status 0 nothing goes to standard error and something to
    standard output; with status 1 nothing goes to standard output and
    one message to standard error.  Without [-html] no file is touched,
    and the status is 0 exactly when the target exists, the sort method
    is size or name in any case of letters, [filepath.Abs] succeeds, and
    the stat and the listing of the target itself succeed: no failure
    deeper in the tree changes the status.  With [-html] the output file
    is created only after all of these have succeeded. *)
Theorem HtmlTool_main_exit_status :
  forall (lib : GoLib) (w : World)
         (json_MarshalIndent : HtmlTool.JSONFileInfo -> option string)
         (sortBy : string) (reverse : bool) (htmlOutput : string)
         (args : list string),
    let out :=
      HtmlTool.main w json_MarshalIndent sortBy reverse htmlOutput args in
    let proceeds :=
      os_IsNotExist w = false /\ valid_sort sortBy /\
      filepath_Abs (target_of args) <> None /\
      unreadable (os_fs w) = false in
    (exit_status out = 0 \/ exit_status out = 1) /\
    (exit_status out = 0 -> stderr out = [] /\ stdout out <> []) /\
    (exit_status out = 1 ->
     stdout out = [] /\ List.length (stderr out) = 1%nat) /\
    (htmlOutput = ""%string ->
     created out = None /\ (exit_status out = 0 <-> proceeds)) /\
    (created out <> None ->
     htmlOutput <> ""%string /\ os_Create w = true /\ proceeds).
Proof.
  intros lib w marshal sortBy reverse htmlOutput args. cbv zeta.
  unfold HtmlTool.main. fold (target_of args).
  pose proof (HtmlTool_sort_flag sortBy) as Hflag.
  pose proof (HtmlTool_walk_succeeds_iff (os_fs w) (target_of args)) as Hwalk.
  destruct (os_IsNotExist w).
  { cbn [exit_status stdout stderr created List.length].
    intuition (discriminate || congruence). }
  destruct (if String.eqb (strings_ToLower sortBy) "size"
            then Some SortBySize
            else if String.eqb (strings_ToLower sortBy) "name"
                 then Some SortByName else None) as [st|].
  2:{ cbn [exit_status stdout stderr created List.length].
      intuition (discriminate || congruence). }
  assert (Hv : valid_sort sortBy) by (apply Hflag; discriminate).
  destruct (HtmlTool.buildFileTree (os_fs w) (target_of args)) as [root|].
  2:{ cbn [exit_status stdout stderr created List.length].
      intuition (discriminate || congruence). }
  assert (Hw : filepath_Abs (target_of args) <> None /\
               unreadable (os_fs w) = false) by (apply Hwalk; discriminate).
  destruct Hw as [Hw1 Hw2].
  pose proof (HtmlTool_print_nonempty
                (HtmlTool.sortFileTree root st reverse) "" true) as Hne.
  destruct (String.eqb_spec htmlOutput "") as [Eh|Eh]; cbn [negb].
  - cbn [exit_status stdout stderr created List.length].
    intuition (discriminate || congruence).
  - unfold HtmlTool.generateHTML.
    destruct (os_Create w); cbn [negb].
    + destruct (marshal _);
        cbn [exit_status stdout stderr created List.length];
        intuition (discriminate || congruence).
    + cbn [exit_status stdout stderr created List.length].
      intuition (discriminate || congruence).
Qed.

(** X16.  How a run of the console-only tool ends.  The status is 1
    exactly when the stat or the listing of the target itself fails, and
    0 otherwise; it never stops on a nil tree.  With status 0 the first
    line is the target as it was given; with status 1 nothing goes to
    standard output and one message to standard error.  Every value of
    [-sort] is taken: what is not size, in any case of letters, sorts by
    name. *)
Theorem ConsoleTool_main_exit_status :
  forall (lib : GoLib) (w : World) (sortBy : string) (reverse : bool)
         (args : list string),
    let out := ConsoleTool.main w sortBy reverse args in
    (exit_status out = 0 <-> unreadable (os_fs w) = false) /\
    (exit_status out = 1 <-> unreadable (os_fs w) = true) /\
    (exit_status out = 0 ->
     stderr out = [] /\
     hd ""%string (stdout out) = (target_of args ++ newline)%string) /\
    (exit_status out = 1 ->
     stdout out = [] /\ List.length (stderr out) = 1%nat) /\
    created out = None /\
    (strings_ToLower sortBy <> "size"%string ->
     out = ConsoleTool.main w "name" reverse args).
Proof.
  intros lib w sortBy reverse args. cbv zeta. unfold ConsoleTool.main.
  change (match args with arg0 :: _ => arg0 | [] => "."%string end)
    with (target_of args).
  pose proof (ConsoleTool_build_error (os_fs w) (target_of args)) as He.
  pose proof (ConsoleTool_build_none (os_fs w) (target_of args)) as Hn.
  rewrite lower_name. cbn [String.eqb Ascii.eqb Bool.eqb].
  destruct (ConsoleTool.buildFileTree (os_fs w) (target_of args))
    as [[root|] [|]]; cbn [fst snd] in He, Hn; rewrite <- He.
  - cbn. repeat split; try easy.
  - cbn. repeat split; try easy.
    intro H. apply String.eqb_neq in H. now rewrite H.
  - cbn. repeat split; try easy.
  - exfalso. destruct Hn as [Hn _]. specialize (Hn eq_refl).
    unfold unreadable in He. rewrite Hn in He. discriminate He.
Qed.

(** X17.  What a successful run prints is the tree that the walk built,
    whatever the sort flags: the lines of the tool with HTML output, in
    console mode, end with the labels (name, slash for a directory,
    formatted size) of the nodes of that tree, one line for each node, in
    some order; the lines of the console-only tool after the first end
    with the labels of the nodes below the root. *)
Theorem main_prints_the_tree_that_was_built :
  forall (lib : GoLib) (w : World)
         (json_MarshalIndent : HtmlTool.JSONFileInfo -> option string)
         (sortBy : string) (reverse : bool) (args : list string)
         (tree : FileInfo),
    (os_IsNotExist w = false -> valid_sort sortBy ->
     HtmlTool.buildFileTree (os_fs w) (target_of args) = Some tree ->
     exists labels,
       Permutation labels (map label (nodes tree)) /\
       Forall2 carries
         (stdout (HtmlTool.main w json_MarshalIndent sortBy reverse "" args))
         labels) /\
    (ConsoleTool.buildFileTree (os_fs w) (target_of args)
     = (Some tree, false) ->
     exists labels,
       Permutation labels (map label (flat_map nodes (Children tree))) /\
       Forall2 carries
         (tl (stdout (ConsoleTool.main w sortBy reverse args))) labels).
Proof.
  intros lib w marshal sortBy reverse args tree. split.
  - intros Hex Hv Hb. unfold HtmlTool.main. fold (target_of args).
    rewrite Hex, Hb.
    assert (E : exists st,
               (if String.eqb (strings_ToLower sortBy) "size"
                then Some SortBySize
                else if String.eqb (strings_ToLower sortBy) "name"
                     then Some SortByName else None) = Some st).
    { destruct (if String.eqb (strings_ToLower sortBy) "size"
                then Some SortBySize
                else if String.eqb (strings_ToLower sortBy) "name"
                     then Some SortByName else None) as [st|] eqn:E.
      - now exists st.
      - apply HtmlTool_sort_flag in Hv. now elim Hv. }
    destruct E as [st ->]. cbn [String.eqb negb stdout].
    rewrite HtmlTool_sortFileTree_levels.
    exists (map label (nodes (sort_levels (HtmlTool.less st reverse) tree))).
    split; [apply sort_levels_labels|].
    apply shows_carries, HtmlTool_print_shows.
  - intro Hb. unfold ConsoleTool.main.
    change (match args with arg0 :: _ => arg0 | [] => "."%string end)
      with (target_of args).
    rewrite Hb. cbn [stdout ConsoleTool.display tl].
    rewrite ConsoleTool_sortFileTree_levels.
    eexists. split; [apply sort_levels_labels_below|].
    apply shows_carries, ConsoleTool_display_shows.
Qed.

(** The theorem at the example: the run of each program on [/work]. *)
Lemma main_prints_the_tree_that_was_built_witness :
  (exists labels,
      Permutation labels (map label (nodes example_tree)) /\
      Forall2 carries
        (stdout (HtmlTool.main (lib := reference_lib) example_world
                   (fun _ => None) "Size" true "" ["/work"]))
        labels) /\
  (exists labels,
      Permutation labels
        (map label (flat_map nodes (Children console_example_tree))) /\
      Forall2 carries
        (tl (stdout (ConsoleTool.main (lib := reference_lib) example_world
                       "Size" true ["/work"])))
        labels).
Proof.
  split.
  - apply (proj1 (@main_prints_the_tree_that_was_built
                    reference_lib example_world (fun _ => None)
                    "Size" true ["/work"] example_tree));
      [reflexivity|left; reflexivity|reflexivity].
  - apply (proj2 (@main_prints_the_tree_that_was_built
                    reference_lib example_world (fun _ => None)
                    "Size" true ["/work"] console_example_tree)).
    reflexivity.
Defined.

(* ================================================================== *)
(** ** The script of the page *)

Lemma float64_of_int64_opp (n : Z) :
  float64_of_int64 (- n) = - float64_of_int64 n.
Proof.
  unfold float64_of_int64. rewrite Z.abs_opp.
  destruct (Z.abs n <? 2 ^ 53)%Z; [reflexivity|].
  rewrite Z.sgn_opp. ring.
Qed.

(** Rounding to float64 keeps the sign. *)
Lemma float64_of_int64_sign (n : Z) :
  (float64_of_int64 n < 0 <-> n < 0) /\
  (float64_of_int64 n = 0 <-> n = 0) /\
  (0 < float64_of_int64 n <-> 0 < n).
Proof.
  assert (P : forall m, 0 < m -> 0 < float64_of_int64 m).
  { intros m Hm. destruct (Z.lt_ge_cases m (2 ^ 53)) as [Hs|Hs].
    - rewrite float64_of_int64_exact by lia. exact Hm.
    - pose proof (float64_of_int64_large Hs). lia. }
  destruct (Z.lt_trichotomy n 0) as [L|[E|G]].
  - pose proof (P (- n) ltac:(lia)) as H.
    rewrite float64_of_int64_opp in H. lia.
  - subst n. change (float64_of_int64 0) with 0. lia.
  - pose proof (P n G). lia.
Qed.

Lemma js_minus_sign (x y : Z) :
  (Page.js_minus x y < 0 <-> x < y) /\
  (Page.js_minus x y = 0 <-> x = y) /\
  (0 < Page.js_minus x y <-> y < x).
Proof.
  unfold Page.js_minus.
  destruct (float64_of_int64_sign (x - y)) as (A & B & C). lia.
Qed.

Lemma Consistent_ext (A : Type) (cmp cmp' : A -> A -> Z) :
  (forall a b, cmp a b = cmp' a b) -> Consistent cmp -> Consistent cmp'.
Proof.
  intros E [R S N TE TL TG].
  split; intros; rewrite <- ?E in *; eauto; now apply N.
Qed.

Lemma Consistent_opp (A : Type) (cmp : A -> A -> Z) :
  Consistent cmp -> Consistent (fun a b => - cmp a b).
Proof.
  intros [R S N TE TL TG]. split.
  - intro a. rewrite R. reflexivity.
  - intros a b H. rewrite (S a b); lia.
  - intros a b. pose proof (N a b). pose proof (N b a). lia.
  - intros a b c H1 H2. rewrite (TE a b c); lia.
  - intros a b c H1 H2. pose proof (TG a b c). lia.
  - intros a b c H1 H2. pose proof (TL a b c). lia.
Qed.

Lemma Consistent_direction (A : Type) (cmp : A -> A -> Z) (ascending : bool) :
  Consistent cmp ->
  Consistent (fun a b => if ascending then cmp a b else - cmp a b).
Proof.
  intro C. destruct ascending; [exact C|now apply Consistent_opp].
Qed.

(** A comparison that puts one kind first and compares within a kind. *)
Lemma Consistent_kind_first (A : Type) (kind : A -> bool)
  (cmp : A -> A -> Z) :
  Consistent cmp ->
  Consistent (fun a b =>
                if negb (Bool.eqb (kind a) (kind b))
                then (if kind a then -1 else 1)
                else cmp a b).
Proof.
  intros [R S N TE TL TG]. split.
  - intro a. rewrite Bool.eqb_reflx. apply R.
  - intros a b. destruct (kind a), (kind b); cbn; try lia; apply S.
  - intros a b. destruct (kind a), (kind b); cbn; try lia; apply N.
  - intros a b c. destruct (kind a), (kind b), (kind c); cbn; try lia;
      apply TE.
  - intros a b c. destruct (kind a), (kind b), (kind c); cbn; try lia;
      apply TL.
  - intros a b c. destruct (kind a), (kind b), (kind c); cbn; try lia;
      apply TG.
Qed.

Section PageSort.
Context {host : JsHost}.

Lemma compare_names_consistent : Consistent compare_names.
Proof.
  destruct String_localeCompare_consistent as [R S N TE TL TG].
  unfold compare_names. split; intros; eauto; now apply N.
Qed.

Lemma compare_by_size (ascending : bool) (a b : HtmlTool.JSONFileInfo) :
  Page.compare "size" ascending a b
  = (if ascending
     then Page.js_minus (Page.js_number (HtmlTool.json_size b))
                        (Page.js_number (HtmlTool.json_size a))
     else - Page.js_minus (Page.js_number (HtmlTool.json_size b))
                          (Page.js_number (HtmlTool.json_size a))).
Proof. reflexivity. Qed.

Lemma compare_by_name (sortBy : string) (ascending : bool)
  (a b : HtmlTool.JSONFileInfo) :
  sortBy <> "size"%string ->
  Page.compare sortBy ascending a b
  = (if negb (Bool.eqb (HtmlTool.json_isDir a) (HtmlTool.json_isDir b))
     then (if HtmlTool.json_isDir a then -1 else 1)
     else if ascending then compare_names a b else - compare_names a b).
Proof.
  intro H. unfold Page.compare. apply String.eqb_neq in H. rewrite H.
  destruct (negb _); reflexivity.
Qed.

Lemma size_difference_consistent :
  Consistent (fun a b : HtmlTool.JSONFileInfo =>
                Page.js_minus (Page.js_number (HtmlTool.json_size b))
                              (Page.js_number (HtmlTool.json_size a))).
Proof.
  split; intros;
    repeat match goal with
           | H : context [Page.js_minus ?x ?y] |- _ =>
               let S := fresh "S" in
               pose proof (js_minus_sign x y) as S;
               generalize dependent (Page.js_minus x y); intros
           | |- context [Page.js_minus ?x ?y] =>
               let S := fresh "S" in
               pose proof (js_minus_sign x y) as S;
               generalize dependent (Page.js_minus x y); intros
           end; lia.
Qed.

(** The comparison function of the script is consistent, for every sort
    key and direction. *)
Lemma compare_consistent (sortBy : string) (ascending : bool) :
  Consistent (Page.compare sortBy ascending).
Proof.
  destruct (String.eqb_spec sortBy "size") as [->|Hne].
  - apply Consistent_ext
      with (cmp := fun a b =>
                     if ascending
                     then Page.js_minus
                            (Page.js_number (HtmlTool.json_size b))
                            (Page.js_number (HtmlTool.json_size a))
                     else - Page.js_minus
                              (Page.js_number (HtmlTool.json_size b))
                              (Page.js_number (HtmlTool.json_size a))).
    + intros a b. now rewrite compare_by_size.
    + apply Consistent_direction, size_difference_consistent.
  - apply Consistent_ext
      with (cmp := fun a b =>
                     if negb (Bool.eqb (HtmlTool.json_isDir a)
                                       (HtmlTool.json_isDir b))
                     then (if HtmlTool.json_isDir a then -1 else 1)
                     else if ascending then compare_names a b
                          else - compare_names a b).
    + intros a b. now rewrite compare_by_name.
    + apply (Consistent_kind_first HtmlTool.json_isDir).
      apply Consistent_direction, compare_names_consistent.
Qed.

Lemma sortTreeData_sortRecursive (data : HtmlTool.JSONFileInfo)
  (sortBy : string) (ascending : bool) :
  Page.sortTreeData data sortBy ascending
  = Page.sortRecursive sortBy ascending data.
Proof.
  unfold Page.sortTreeData. destruct data as [n s ss d p [l|]]; reflexivity.
Qed.

Lemma sortRecursive_fields (sortBy : string) (ascending : bool)
  (j : HtmlTool.JSONFileInfo) :
  json_fields (Page.sortRecursive sortBy ascending j) = json_fields j.
Proof. destruct j as [n s ss d p [l|]]; reflexivity. Qed.

(** What holds of every sorted array holds at every node of the result. *)
Lemma sortRecursive_levels (sortBy : string) (ascending : bool)
  (R : HtmlTool.JSONFileInfo -> HtmlTool.JSONFileInfo -> Prop) :
  (forall l, ComparedSorted (Page.compare sortBy ascending) l ->
             StronglySorted R l) ->
  forall j, levels_ordered R (Page.sortRecursive sortBy ascending j).
Proof.
  intros HR j. unfold levels_ordered.
  induction j as [n s ss d p cs IH] using JSONFileInfo_tree_ind.
  destruct cs as [l|].
  - cbn [Page.sortRecursive json_nodes]. constructor.
    + cbn [HtmlTool.json_children]. intros l' [= <-].
      apply HR, Array_sort_sorted, compare_consistent.
    + assert (H : Forall
                    (fun n0 =>
                       forall l0, HtmlTool.json_children n0 = Some l0 ->
                                  StronglySorted R l0)
                    (flat_map json_nodes
                       (map (Page.sortRecursive sortBy ascending) l))).
      { apply Forall_flat_map. rewrite Forall_map. exact (IH l eq_refl). }
      revert H. apply Permutation_Forall, Permutation_flat_map.
      apply Array_sort_perm.
  - cbn [Page.sortRecursive json_nodes]. constructor; [|constructor].
    cbn [HtmlTool.json_children]. intros l' H. discriminate H.
Qed.

Lemma sortRecursive_nodes (sortBy : string) (ascending : bool)
  (j : HtmlTool.JSONFileInfo) :
  Permutation (map json_fields (json_nodes j))
              (map json_fields
                   (json_nodes (Page.sortRecursive sortBy ascending j))).
Proof.
  induction j as [n s ss d p cs IH] using JSONFileInfo_tree_ind.
  destruct cs as [l|]; [|reflexivity].
  cbn [Page.sortRecursive json_nodes map]. apply perm_skip.
  transitivity
    (map json_fields
         (flat_map json_nodes
                   (map (Page.sortRecursive sortBy ascending) l))).
  - specialize (IH l eq_refl).
    induction IH as [|x k Hx Hk IHk]; [reflexivity|].
    cbn [map flat_map]. rewrite !map_app. now apply Permutation_app.
  - apply Permutation_map, Permutation_flat_map, Array_sort_perm.
Qed.
End PageSort.

(** X19.  Sorting by size on the page: after [sortTreeData] with the key
    size, every array of children in the tree is ordered by size, and the
    order selected as ascending is the one with the largest size first,
    the order selected as descending the one with the smallest first.
    Directories get no priority.  The sizes are compared as the script
    holds them, which is the size itself below [2^53] bytes. *)
Theorem page_size_sort_largest_first_when_ascending :
  forall (host : JsHost) (data : HtmlTool.JSONFileInfo) (ascending : bool),
    levels_ordered (page_size_order ascending)
                   (Page.sortTreeData data "size" ascending) /\
    (forall n : Z, Z.abs n < 2 ^ 53 -> Page.js_number n = n).
Proof.
  intros host data ascending. split; [|apply float64_of_int64_exact].
  rewrite sortTreeData_sortRecursive. apply sortRecursive_levels.
  intros l H. unfold ComparedSorted in H.
  induction H as [|x k Hs IH Hall]; constructor; [exact IH|].
  revert Hall. apply Forall_impl. intro y.
  rewrite compare_by_size. unfold page_size_order.
  pose proof (js_minus_sign (Page.js_number (HtmlTool.json_size x))
                            (Page.js_number (HtmlTool.json_size y))) as S.
  destruct ascending; lia.
Qed.

(** X20.  Sorting by name on the page: after [sortTreeData] with any key
    but size, in every array of children no file stands before a
    directory, whatever the direction; within a kind the lower-cased
    names are in the order of [localeCompare], turned round when the
    direction is descending. *)
Theorem page_name_sort_directories_first :
  forall (host : JsHost) (data : HtmlTool.JSONFileInfo) (sortBy : string)
         (ascending : bool),
    sortBy <> "size"%string ->
    levels_ordered (page_name_order ascending)
                   (Page.sortTreeData data sortBy ascending).
Proof.
  intros host data sortBy ascending Hne.
  rewrite sortTreeData_sortRecursive. apply sortRecursive_levels.
  intros l H. unfold ComparedSorted in H.
  induction H as [|x k Hs IH Hall]; constructor; [exact IH|].
  revert Hall. apply Forall_impl. intro y.
  rewrite (compare_by_name _ _ _ Hne). unfold page_name_order.
  destruct (HtmlTool.json_isDir x), (HtmlTool.json_isDir y); cbn;
    intro H; split; intros; try congruence; try lia;
    destruct ascending; lia.
Qed.

(** The theorem at the JSON tree of the example, sorted by name in
    descending direction. *)
Lemma page_name_sort_directories_first_witness :
  let sorted :=
    Page.sortTreeData (host := reference_host)
      (HtmlTool.convertToJSON example_tree) "name" false in
  option_map (map HtmlTool.json_name) (HtmlTool.json_children sorted)
  = Some ["sub"; "e"; "a.txt"] /\
  levels_ordered (page_name_order (host := reference_host) false) sorted.
Proof.
  cbv zeta. split; [reflexivity|].
  apply (@page_name_sort_directories_first reference_host
           (HtmlTool.convertToJSON example_tree) "name" false).
  discriminate.
Defined.

(** X21.  [sortTreeData] only reorders: the nodes of the result carry, in
    some order, exactly the names, sizes, formatted sizes, kinds and paths
    of the nodes of the data, and the root keeps its own. *)
Theorem page_sort_only_reorders :
  forall (host : JsHost) (data : HtmlTool.JSONFileInfo) (sortBy : string)
         (ascending : bool),
    Permutation
      (map json_fields (json_nodes data))
      (map json_fields
           (json_nodes (Page.sortTreeData data sortBy ascending))) /\
    json_fields (Page.sortTreeData data sortBy ascending) = json_fields data.
Proof.
  intros host data sortBy ascending. rewrite sortTreeData_sortRecursive.
  split; [apply sortRecursive_nodes|apply sortRecursive_fields].
Qed.

(** X22.  The script and [sortFileTree] of the Go program decide alike
    where the script was written to follow it: on two nodes whose sizes
    are below [2^53] in absolute value, the script's comparison under the
    key size and the ascending direction is negative exactly when the
    closure of the Go program, under the size key without the reverse
    flag, says that the first goes before the second; and on two nodes of
    different kinds the script's name comparison is negative exactly when
    the Go closure under the name key says so, in both directions.  On a
    tie they part: for a node against itself the script returns zero in
    the descending direction where the reversed Go closure says true. *)
Theorem page_compare_follows_less :
  forall (host : JsHost) (lib : GoLib) (a b : FileInfo),
    (Z.abs (Size a) < 2 ^ 53 -> Z.abs (Size b) < 2 ^ 53 ->
     (Page.compare "size" true (HtmlTool.convertToJSON a)
                   (HtmlTool.convertToJSON b) < 0
      <-> HtmlTool.less SortBySize false a b = true)) /\
    (forall sortBy ascending reverse,
        sortBy <> "size"%string -> IsDir a <> IsDir b ->
        (Page.compare sortBy ascending (HtmlTool.convertToJSON a)
                      (HtmlTool.convertToJSON b) < 0
         <-> HtmlTool.less SortByName reverse a b = true)) /\
    (Page.compare "size" false (HtmlTool.convertToJSON a)
                  (HtmlTool.convertToJSON a) = 0 /\
     HtmlTool.less SortBySize true a a = true).
Proof.
  intros host lib a b. split; [|split].
  - intros Ha Hb. rewrite compare_by_size.
    rewrite !convertToJSON_unfold. cbn [HtmlTool.json_size].
    unfold Page.js_number. rewrite !float64_of_int64_exact by assumption.
    destruct (js_minus_sign (Size b) (Size a)) as (S1 & _ & _).
    unfold HtmlTool.less. rewrite Z.ltb_lt. exact S1.
  - intros sortBy ascending reverse Hne Hk.
    rewrite (compare_by_name _ _ _ Hne).
    rewrite !convertToJSON_unfold. cbn [HtmlTool.json_isDir].
    unfold HtmlTool.less.
    destruct (IsDir a), (IsDir b); cbn; try congruence; split;
      intro H; try reflexivity; try lia; discriminate H.
  - split.
    + destruct (compare_consistent (host := host) "size" false) as [R _].
      apply R.
    + apply HtmlTool_less_reverse_refl.
Qed.
